(** * Pressure-sensor acquisition client: device link and sample decoding

    A shallow embedding of the browser client of the pressure-sensor
    device (the React component [LiveMeasurementPage]): the packed-sample
    decoder, the serial line framing, the live buffer, the CSV
    accumulator and the start/stop/gain control surface, with the
    properties of the design document stated and proved over it. *)

From Stdlib Require Import ZArith List Lia Strings.String Strings.Ascii.
From Stdlib Require Import DecimalString HexadecimalString.
From Stdlib Require Init.Byte Strings.Byte.
From stdpp Require Import base list.
From coqutil Require Import Z.bitblast.

Local Open Scope Z_scope.

(** ** JavaScript integer operators

    The bit operators of JavaScript work on 32-bit two's-complement
    integers: both operands go through [ToInt32], the shift count is taken
    modulo 32 and the result is again an int32.  Integers are modelled as
    [Z] with the wrap-around written out. *)

Module JS.

Definition wrap32 (z : Z) : Z := (z + 2 ^ 31) mod 2 ^ 32 - 2 ^ 31.

(** [a << k] *)
Definition shl (a k : Z) : Z := wrap32 (Z.shiftl (wrap32 a) (k mod 32)).

(** [a & b] *)
Definition band (a b : Z) : Z := wrap32 (Z.land (wrap32 a) (wrap32 b)).

(** [a | b] *)
Definition bor (a b : Z) : Z := wrap32 (Z.lor (wrap32 a) (wrap32 b)).

(** *** Numbers

    A Number is an IEEE 754 binary64 value.  A finite one is kept as
    sign, integral significand [m] and exponent [e], standing for
    [(-1)^neg * m * 2^e]; both zeros are [Finite _ 0 0]. *)

Inductive number : Type :=
| NaN
| Infinity (neg : bool)
| Finite (neg : bool) (m : Z) (e : Z).

(** [floor (log2 (n / d))] for positive [n] and [d]. *)
Definition floorLog2 (n d : Z) : Z :=
  let e0 := Z.log2 n - Z.log2 d in
  let reaches :=
    if 0 <=? e0 then d * 2 ^ e0 <=? n else d <=? n * 2 ^ (- e0) in
  if reaches then e0 else e0 - 1.

(** Round-to-nearest, ties-to-even, of the non-negative rational
    [n / d] to a binary64 value of the given sign. *)
Definition roundToDouble (neg : bool) (n d : Z) : number :=
  if n =? 0 then Finite neg 0 0
  else
    let e := Z.max (floorLog2 n d) (-1022) in
    let sh := e - 52 in
    let num := if 0 <=? sh then n else n * 2 ^ (- sh) in
    let den := if 0 <=? sh then d * 2 ^ sh else d in
    let q := num / den in
    let r := num mod den in
    let m :=
      if 2 * r <? den then q
      else if den <? 2 * r then q + 1
      else if Z.even q then q else q + 1 in
    let '(m, sh) := if m =? 2 ^ 53 then (2 ^ 52, sh + 1) else (m, sh) in
    if 1024 <=? sh + 52 then Infinity neg
    else if m =? 0 then Finite neg 0 0
    else Finite neg m sh.

Definition isNaN (x : number) : bool :=
  match x with NaN => true | _ => false end.

(** [Number.isInteger] *)
Definition isInteger (x : number) : bool :=
  match x with
  | Finite _ m e => if 0 <=? e then true else m mod 2 ^ (- e) =? 0
  | _ => false
  end.

(** Truncation towards zero of a finite value; [0] for [NaN] and the
    infinities, as in [ToInt32] and [ToUint8]. *)
Definition truncate (x : number) : Z :=
  match x with
  | Finite neg m e =>
      let a := if 0 <=? e then m * 2 ^ e else m / 2 ^ (- e) in
      if neg then - a else a
  | _ => 0
  end.

Definition ToInt32 (x : number) : Z := wrap32 (truncate x).

(** [x < k] and [x > k] against an integer constant [k]. *)
Definition ltZ (x : number) (k : Z) : bool :=
  match x with
  | NaN => false
  | Infinity neg => neg
  | Finite neg m e =>
      let s := if neg then - m else m in
      if 0 <=? e then s * 2 ^ e <? k else s <? k * 2 ^ (- e)
  end.

Definition gtZ (x : number) (k : Z) : bool :=
  match x with
  | NaN => false
  | Infinity neg => negb neg
  | Finite neg m e =>
      let s := if neg then - m else m in
      if 0 <=? e then k <? s * 2 ^ e else k * 2 ^ (- e) <? s
  end.

(** *** Strings

    A String is a sequence of UTF-16 code units; [lit] turns an ASCII
    literal into one. *)

Abbreviation jsstring := (list N).

Definition lit (s : string) : jsstring :=
  map N_of_ascii (list_ascii_of_string s).

(** The code points of [WhiteSpace] and [LineTerminator]: what [\s]
    matches, what [trim()] strips and what [StrWhiteSpaceChar] is. *)
Definition isWhiteSpace (c : N) : bool :=
  ((9 <=? c) && (c <=? 13) || (c =? 32) || (c =? 0xA0) || (c =? 0x1680)
   || (0x2000 <=? c) && (c <=? 0x200A) || (c =? 0x2028) || (c =? 0x2029)
   || (c =? 0x202F) || (c =? 0x205F) || (c =? 0x3000) || (c =? 0xFEFF))%N.

Definition isDigit (c : N) : bool := ((48 <=? c) && (c <=? 57))%N.

(** [[0-9A-Fa-f]] *)
Definition isHexDigit (c : N) : bool :=
  ((48 <=? c) && (c <=? 57) || (65 <=? c) && (c <=? 70)
   || (97 <=? c) && (c <=? 102))%N.

(** The value of a digit of radix up to 16 (0 for other code units). *)
Definition digitValue (c : N) : Z :=
  if ((48 <=? c) && (c <=? 57))%N then Z.of_N (c - 48)
  else if ((65 <=? c) && (c <=? 70))%N then Z.of_N (c - 55)
  else if ((97 <=? c) && (c <=? 102))%N then Z.of_N (c - 87)
  else 0.

(** The mathematical value of a digit sequence in the given radix. *)
Definition digitsValue (radix : Z) (ds : jsstring) : Z :=
  fold_left (fun acc c => radix * acc + digitValue c) ds 0.

(** The longest prefix whose code units satisfy [p]. *)
Fixpoint takeWhile (p : N -> bool) (s : jsstring) : jsstring :=
  match s with
  | c :: s' => if p c then c :: takeWhile p s' else []
  | [] => []
  end.

Fixpoint dropWhile (p : N -> bool) (s : jsstring) : jsstring :=
  match s with
  | c :: s' => if p c then dropWhile p s' else s
  | [] => []
  end.

Definition trimStart (s : jsstring) : jsstring := dropWhile isWhiteSpace s.

Definition trimEnd (s : jsstring) : jsstring :=
  rev (dropWhile isWhiteSpace (rev s)).

(** [s.trim()] *)
Definition trim (s : jsstring) : jsstring := trimEnd (trimStart s).

Definition isEmpty (s : jsstring) : bool :=
  match s with [] => true | _ => false end.

Definition eqb (s t : jsstring) : bool :=
  bool_decide (s = t).

(** [s.substr(i, n)] for [0 <= i]. *)
Definition substr (s : jsstring) (i n : nat) : jsstring := take n (drop i s).

(** [s.toUpperCase()] on the ASCII letters; the strings it is applied
    to here are ASCII. *)
Definition toUpperCase (s : jsstring) : jsstring :=
  map (fun c => if ((97 <=? c) && (c <=? 122))%N then (c - 32)%N else c) s.

Fixpoint startsWith (s p : jsstring) : bool :=
  match p, s with
  | [], _ => true
  | a :: p', b :: s' => (a =? b)%N && startsWith s' p'
  | _ :: _, [] => false
  end.

(** [s.includes(p)] *)
Fixpoint includes (s p : jsstring) : bool :=
  startsWith s p
  || match s with
     | [] => false
     | _ :: s' => includes s' p
     end.

(** [s.indexOf(c)] for a one-character [c]; [None] stands for [-1]. *)
Fixpoint indexOf (s : jsstring) (c : N) : option nat :=
  match s with
  | [] => None
  | d :: s' =>
      if (d =? c)%N then Some O
      else match indexOf s' c with
           | Some i => Some (S i)
           | None => None
           end
  end.

(** An optional sign in front of a literal. *)
Definition splitSign (s : jsstring) : bool * jsstring :=
  match s with
  | 45%N :: r => (true, r)
  | 43%N :: r => (false, r)
  | _ => (false, s)
  end.

(** [parseInt(s, 16)]: leading white space, an optional sign, an
    optional [0x] or [0X], then the longest run of hexadecimal digits;
    [NaN] when that run is empty. *)
Definition parseInt16 (s : jsstring) : number :=
  let '(neg, s2) := splitSign (trimStart s) in
  let s3 :=
    match s2 with
    | 48%N :: c :: r => if ((c =? 120) || (c =? 88))%N then r else s2
    | _ => s2
    end in
  let digits := takeWhile isHexDigit s3 in
  if isEmpty digits then NaN
  else roundToDouble neg (digitsValue 16 digits) 1.

(** [0x], [0o] and [0b] literals of [StringToNumber]: the whole rest
    must be digits of the radix. *)
Definition nonDecimalLiteral (t : jsstring) : option Z :=
  match t with
  | 48%N :: p :: ds =>
      let radix : Z :=
        if ((p =? 120) || (p =? 88))%N then 16
        else if ((p =? 111) || (p =? 79))%N then 8
        else if ((p =? 98) || (p =? 66))%N then 2
        else 0 in
      if (radix =? 0) || isEmpty ds then None
      else if forallb (fun c => isHexDigit c && (digitValue c <? radix)) ds
      then Some (digitsValue radix ds)
      else None
  | _ => None
  end.

(** [ExponentPart], optional, up to the end of the literal. *)
Definition exponentPart (r : jsstring) : option Z :=
  match r with
  | [] => Some 0
  | c :: r1 =>
      if ((c =? 101) || (c =? 69))%N then
        let '(eneg, r2) := splitSign r1 in
        if isEmpty r2 || negb (forallb isDigit r2) then None
        else Some (if eneg then - digitsValue 10 r2 else digitsValue 10 r2)
      else None
  end.

(** [StrDecimalLiteral]: sign, then [Infinity] or digits with an
    optional fraction and exponent. *)
Definition strDecimalLiteral (t : jsstring) : number :=
  let '(neg, u) := splitSign t in
  if eqb u (lit "Infinity") then Infinity neg
  else
    let ip := takeWhile isDigit u in
    let r1 := dropWhile isDigit u in
    let '(fp, r2) :=
      match r1 with
      | 46%N :: r => (takeWhile isDigit r, dropWhile isDigit r)
      | _ => ([], r1)
      end in
    if isEmpty ip && isEmpty fp then NaN
    else
      match exponentPart r2 with
      | None => NaN
      | Some e =>
          let digits := digitsValue 10 (ip ++ fp) in
          let e' := e - Z.of_nat (length fp) in
          if 0 <=? e' then roundToDouble neg (digits * 10 ^ e') 1
          else roundToDouble neg digits (10 ^ (- e'))
      end.

(** [Number(s)], that is [StringToNumber]: white space is stripped at
    both ends, the empty string is [+0], anything outside the grammar
    of [StrNumericLiteral] is [NaN]. *)
Definition Number (s : jsstring) : number :=
  let t := trim s in
  if isEmpty t then Finite false 0 0
  else
    match nonDecimalLiteral t with
    | Some n => roundToDouble false n 1
    | None => strDecimalLiteral t
    end.

(** [String(z)] for an integer below [10^21] in absolute value. *)
Definition ofInteger (z : Z) : jsstring :=
  lit (DecimalString.NilZero.string_of_int (Z.to_int z)).

(** [z.toString(16)] for an integer. *)
Definition toString16 (z : Z) : jsstring :=
  lit (HexadecimalString.NilZero.string_of_int (Z.to_hex_int z)).

End JS.

(** ** Typed arrays

    A [Uint8Array] is a sequence of bytes.  Reading past its end yields
    [undefined], which the bit operators turn into [0]
    ([ToInt32(undefined) = ToInt32(NaN) = +0]). *)

Abbreviation byte := Byte.byte.

Abbreviation Uint8Array := (list byte).

Definition byteZ (b : byte) : Z := Z.of_N (Byte.to_N b).

(** [ToInt32] of the result of an indexed read [bytes[i]]. *)
Definition ToInt32_elem (e : option byte) : Z :=
  match e with
  | Some b => byteZ b
  | None => 0
  end.

(** [ToUint8], the conversion applied to each element by
    [new Uint8Array(numbers)], on an integral value. *)
Definition ToUint8 (z : Z) : byte :=
  match Byte.of_N (Z.to_N (z mod 256)) with
  | Some b => b
  | None => Byte.x00
  end.

(** ** Sample decoder *)

(** The body of the loop of [decodeBytesToSamples] at index [i]: the two
    samples pushed for the triplet [bytes[i], bytes[i+1], bytes[i+2]]. *)
Definition decodeTriplet (bytes : Uint8Array) (i : nat) : list Z :=
  let b0 := ToInt32_elem (bytes !! i) in
  let b1 := ToInt32_elem (bytes !! (i + 1)%nat) in
  let b2 := ToInt32_elem (bytes !! (i + 2)%nat) in
  let v1 := JS.bor (JS.band (JS.shl b2 4) 0x0F00) b0 - 2048 in
  let v2 := JS.bor (JS.band (JS.shl b2 8) 0x0F00) b1 - 2048 in
  [v1; v2].

(** [for (let i = 0; i < 54; i += 3) { ... samples.push(v1); samples.push(v2) }] *)
Fixpoint decodeLoop (fuel : nat) (i : nat) (bytes : Uint8Array)
    (samples : list Z) : list Z :=
  if (i <? 54)%nat then
    match fuel with
    | O => samples
    | S fuel' =>
        decodeLoop fuel' (i + 3) bytes (samples ++ decodeTriplet bytes i)
    end
  else samples.

(** The loop runs 18 times, so 18 units of fuel let it run to its exit
    test (see [decodeLoop_exits]). *)
Definition decodeBytesToSamples (bytes : Uint8Array) : list Z :=
  decodeLoop 18 0 bytes [].

(** [for (let i = 0; i < hexString.length; i += 2)
      bytes.push(parseInt(hexString.substr(i, 2), 16))] *)
Fixpoint hexLoop (fuel : nat) (i : nat) (hexString : JS.jsstring)
    (bytes : list JS.number) : list JS.number :=
  if (i <? length hexString)%nat then
    match fuel with
    | O => bytes
    | S fuel' =>
        hexLoop fuel' (i + 2) hexString
          (bytes ++ [JS.parseInt16 (JS.substr hexString i 2)])
    end
  else bytes.

(** [new Uint8Array(numbers)]: each element through [ToUint8], which
    sends [NaN] to [0]. *)
Definition Uint8Array_from (numbers : list JS.number) : Uint8Array :=
  map (fun v => ToUint8 (JS.truncate v)) numbers.

(** Every turn of [hexLoop] advances [i] by two, so [length hexString]
    units of fuel are enough (see [hexLoop_pairs]). *)
Definition decodeHexToSamples (hexString : JS.jsstring) : list Z :=
  decodeBytesToSamples
    (Uint8Array_from (hexLoop (length hexString) 0 hexString [])).

(** ** Live buffer *)

Module LivePoint.
Record t : Type := mk { x : Z; raw : Z; filtered : Z; seq : option Z }.
End LivePoint.

Definition MAX_PLOT : nat := 2000.

(** The updater handed to [setLiveData] by [readSerialData] and, with the
    same text, by [handleBLEData]: push one point per sample, keep the
    last [MAX_PLOT] points, renumber [x]. *)
Definition appendSamples (samples : list Z) (seq : Z)
    (prev : list LivePoint.t) : list LivePoint.t :=
  let next :=
    fold_left
      (fun next s =>
         next ++ [ {| LivePoint.x := 0; LivePoint.raw := s;
                      LivePoint.filtered := s; LivePoint.seq := Some seq |} ])
      samples prev in
  let next :=
    if (MAX_PLOT <? length next)%nat
    then drop (length next - MAX_PLOT) next
    else next in
  imap (fun i p =>
          {| LivePoint.x := Z.of_nat i; LivePoint.raw := LivePoint.raw p;
             LivePoint.filtered := LivePoint.filtered p;
             LivePoint.seq := LivePoint.seq p |}) next.

(** ** Serial line framing *)

(** [line.match(/^\s*([0-9A-Fa-f]+)\s*:\s*([0-9A-Fa-f]{108})\s*$/)]: the
    two captured groups, or [None] for [null].  The character classes of
    neighbouring pieces are disjoint, so the greedy runs never have to be
    given back. *)
Definition matchFrameLine (line : JS.jsstring)
    : option (JS.jsstring * JS.jsstring) :=
  let s1 := JS.dropWhile JS.isWhiteSpace line in
  let seq := JS.takeWhile JS.isHexDigit s1 in
  let s2 := JS.dropWhile JS.isHexDigit s1 in
  if JS.isEmpty seq then None
  else
    match JS.dropWhile JS.isWhiteSpace s2 with
    | 58%N :: s3 =>
        let s4 := JS.dropWhile JS.isWhiteSpace s3 in
        let data := JS.takeWhile JS.isHexDigit s4 in
        let s5 := JS.dropWhile JS.isHexDigit s4 in
        if (length data =? 108)%nat
           && JS.isEmpty (JS.dropWhile JS.isWhiteSpace s5)
        then Some (seq, data)
        else None
    | _ => None
    end.

(** The frame pattern as the design document words it: a sequence number
    in hexadecimal, a colon, exactly 108 hexadecimal characters, with
    optional white space around each piece. *)
Definition FrameLinePattern (line seq data : JS.jsstring) : Prop :=
  exists w1 w2 w3 w4 : JS.jsstring,
    line = w1 ++ seq ++ w2 ++ [58%N] ++ w3 ++ data ++ w4
    /\ forallb JS.isWhiteSpace (w1 ++ w2 ++ w3 ++ w4) = true
    /\ seq <> [] /\ forallb JS.isHexDigit seq = true
    /\ length data = 108%nat /\ forallb JS.isHexDigit data = true.

(** ** Reference encoder *)

(** Modelled from the spec: the encoder of the packed format, which runs
    on the device and is not part of this repository.  Each pair of
    samples, re-centred to [0, 4095], becomes a triplet: the low byte of
    the first, the low byte of the second, and a shared byte with the
    high nibble of the first in its upper half and the high nibble of the
    second in its lower half. *)
Fixpoint encodeSamplesToBytes (samples : list Z) : Uint8Array :=
  match samples with
  | s1 :: s2 :: rest =>
      let u1 := s1 + 2048 in
      let u2 := s2 + 2048 in
      ToUint8 (Z.land u1 255)
      :: ToUint8 (Z.land u2 255)
      :: ToUint8 (Z.lor (Z.shiftl (Z.shiftr u1 8) 4) (Z.shiftr u2 8))
      :: encodeSamplesToBytes rest
  | _ => []
  end.

(** Modelled from the spec: the hex digit of a nibble, in upper or lower
    case. *)
Definition hexChar (upper : bool) (d : Z) : N :=
  if d <? 10 then Z.to_N (48 + d)
  else if upper then Z.to_N (55 + d) else Z.to_N (87 + d).

(** Modelled from the spec: the hex text of a frame as the device sends
    it on the serial line, two characters per byte. *)
Definition bytesToHex (upper : bool) (bytes : Uint8Array) : JS.jsstring :=
  flat_map
    (fun b => [hexChar upper (byteZ b / 16); hexChar upper (byteZ b mod 16)])
    bytes.

(** ** The component: state, closures and the outside world *)

Inductive ConnectionMode : Type := serial | bluetooth.

Module ConnStatus.
Inductive t : Type := disconnected | connected | error.

(** [a === b] *)
Definition eqb (a b : t) : bool :=
  match a, b with
  | disconnected, disconnected | connected, connected | error, error => true
  | _, _ => false
  end.
End ConnStatus.

Module LogType.
Inductive t : Type := info | command | response | error | warning.
End LogType.

(** A log entry; its [timestamp], a reading of the wall clock, is left
    out. *)
Module LogEntry.
Record t : Type := mk { type : LogType.t; message : JS.jsstring }.
End LogEntry.

(** The object kept in [bleDeviceRef]: the device and the two
    characteristics are always set, [server] is reset to [null] by the
    disconnect handler. *)
Module BleDevice.
Record t : Type := mk { server : bool }.
End BleDevice.

(** A thrown value: an [Error] with its [name] and [message]. *)
Module JsError.
Record t : Type := mk { name : JS.jsstring; message : JS.jsstring }.
End JsError.

(** [new Error(message)] *)
Definition Error (message : JS.jsstring) : JsError.t :=
  JsError.mk (JS.lit "Error") message.

(** The calls the component makes on the browser: timers, Web Serial,
    Web Bluetooth and the File System Access API.  The text handed to
    [writer.write] is shown before its UTF-8 encoding. *)
Inductive IOCall : Type :=
| SetTimeout (ms : Z)
| RequestPort
| PortOpen (baudRate dataBits stopBits : Z)
| PortClose
| GetReader
| ReaderCancel
| ReaderReleaseLock
| GetWriter
| WriterWrite (text : JS.jsstring)
| WriterReleaseLock
| RequestDevice (namePrefix service : JS.jsstring)
| AddDisconnectListener
| GattConnect
| GattDisconnect
| GetPrimaryService (uuid : JS.jsstring)
| GetCharacteristic (uuid : JS.jsstring)
| StartNotifications
| StopNotifications
| AddValueListener
| RemoveValueListener
| WriteValue (bytes : Uint8Array)
| GetFileHandle (filename : JS.jsstring)
| CreateWritable
| FileWrite (content : JS.jsstring)
| FileClose.

(** The mutable state of the component: the pending values of its React
    state variables, the contents of its refs ([true] for a ref that
    holds an object, [false] for [null]) and, last, the calls made on the
    browser so far, oldest first. *)
Module Store.
Record t : Type := mk {
  isRunning : bool;
  liveData : list LivePoint.t;
  connStatus : ConnStatus.t;
  logs : list LogEntry.t;
  zoomRange : Z;
  xStart : Z;
  yShift : Z;
  yZoom : Z;
  serialPortRef : bool;
  serialReaderRef : bool;
  bleDeviceRef : option BleDevice.t;
  streamingRef : bool;
  bleHandlerRef : bool;
  csvDataRef : list Z;
  trace : list IOCall
}.

Definition set_isRunning (v : bool) (s : t) : t :=
  mk v (liveData s) (connStatus s) (logs s) (zoomRange s) (xStart s) (yShift s) (yZoom s) (serialPortRef s) (serialReaderRef s) (bleDeviceRef s) (streamingRef s) (bleHandlerRef s) (csvDataRef s) (trace s).
Definition set_liveData (v : list LivePoint.t) (s : t) : t :=
  mk (isRunning s) v (connStatus s) (logs s) (zoomRange s) (xStart s) (yShift s) (yZoom s) (serialPortRef s) (serialReaderRef s) (bleDeviceRef s) (streamingRef s) (bleHandlerRef s) (csvDataRef s) (trace s).
Definition set_connStatus (v : ConnStatus.t) (s : t) : t :=
  mk (isRunning s) (liveData s) v (logs s) (zoomRange s) (xStart s) (yShift s) (yZoom s) (serialPortRef s) (serialReaderRef s) (bleDeviceRef s) (streamingRef s) (bleHandlerRef s) (csvDataRef s) (trace s).
Definition set_logs (v : list LogEntry.t) (s : t) : t :=
  mk (isRunning s) (liveData s) (connStatus s) v (zoomRange s) (xStart s) (yShift s) (yZoom s) (serialPortRef s) (serialReaderRef s) (bleDeviceRef s) (streamingRef s) (bleHandlerRef s) (csvDataRef s) (trace s).
Definition set_zoomRange (v : Z) (s : t) : t :=
  mk (isRunning s) (liveData s) (connStatus s) (logs s) v (xStart s) (yShift s) (yZoom s) (serialPortRef s) (serialReaderRef s) (bleDeviceRef s) (streamingRef s) (bleHandlerRef s) (csvDataRef s) (trace s).
Definition set_xStart (v : Z) (s : t) : t :=
  mk (isRunning s) (liveData s) (connStatus s) (logs s) (zoomRange s) v (yShift s) (yZoom s) (serialPortRef s) (serialReaderRef s) (bleDeviceRef s) (streamingRef s) (bleHandlerRef s) (csvDataRef s) (trace s).
Definition set_yShift (v : Z) (s : t) : t :=
  mk (isRunning s) (liveData s) (connStatus s) (logs s) (zoomRange s) (xStart s) v (yZoom s) (serialPortRef s) (serialReaderRef s) (bleDeviceRef s) (streamingRef s) (bleHandlerRef s) (csvDataRef s) (trace s).
Definition set_yZoom (v : Z) (s : t) : t :=
  mk (isRunning s) (liveData s) (connStatus s) (logs s) (zoomRange s) (xStart s) (yShift s) v (serialPortRef s) (serialReaderRef s) (bleDeviceRef s) (streamingRef s) (bleHandlerRef s) (csvDataRef s) (trace s).
Definition set_serialPortRef (v : bool) (s : t) : t :=
  mk (isRunning s) (liveData s) (connStatus s) (logs s) (zoomRange s) (xStart s) (yShift s) (yZoom s) v (serialReaderRef s) (bleDeviceRef s) (streamingRef s) (bleHandlerRef s) (csvDataRef s) (trace s).
Definition set_serialReaderRef (v : bool) (s : t) : t :=
  mk (isRunning s) (liveData s) (connStatus s) (logs s) (zoomRange s) (xStart s) (yShift s) (yZoom s) (serialPortRef s) v (bleDeviceRef s) (streamingRef s) (bleHandlerRef s) (csvDataRef s) (trace s).
Definition set_bleDeviceRef (v : option BleDevice.t) (s : t) : t :=
  mk (isRunning s) (liveData s) (connStatus s) (logs s) (zoomRange s) (xStart s) (yShift s) (yZoom s) (serialPortRef s) (serialReaderRef s) v (streamingRef s) (bleHandlerRef s) (csvDataRef s) (trace s).
Definition set_streamingRef (v : bool) (s : t) : t :=
  mk (isRunning s) (liveData s) (connStatus s) (logs s) (zoomRange s) (xStart s) (yShift s) (yZoom s) (serialPortRef s) (serialReaderRef s) (bleDeviceRef s) v (bleHandlerRef s) (csvDataRef s) (trace s).
Definition set_bleHandlerRef (v : bool) (s : t) : t :=
  mk (isRunning s) (liveData s) (connStatus s) (logs s) (zoomRange s) (xStart s) (yShift s) (yZoom s) (serialPortRef s) (serialReaderRef s) (bleDeviceRef s) (streamingRef s) v (csvDataRef s) (trace s).
Definition set_csvDataRef (v : list Z) (s : t) : t :=
  mk (isRunning s) (liveData s) (connStatus s) (logs s) (zoomRange s) (xStart s) (yShift s) (yZoom s) (serialPortRef s) (serialReaderRef s) (bleDeviceRef s) (streamingRef s) (bleHandlerRef s) v (trace s).
Definition set_trace (v : list IOCall) (s : t) : t :=
  mk (isRunning s) (liveData s) (connStatus s) (logs s) (zoomRange s) (xStart s) (yShift s) (yZoom s) (serialPortRef s) (serialReaderRef s) (bleDeviceRef s) (streamingRef s) (bleHandlerRef s) (csvDataRef s) v.
End Store.

(** What a handler closes over: the values the state variables had in the
    render that created it.  A handler keeps seeing these values however
    the state is set while it runs. *)
Module Render.
Record t : Type := mk {
  mode : ConnectionMode;
  gainValue : JS.jsstring;
  connStatus : ConnStatus.t;
  isRunning : bool;
  csvEnabled : bool;
  csvDir : JS.jsstring;
  folderHandle : bool
}.
End Render.

(** The outside world: whether the two transport APIs exist, how each
    call ends ([None] when it succeeds, the thrown error otherwise; the
    number is the count of calls made before it), what [server.connected]
    and [new Date().toISOString()] read at a given moment, and the name
    of the chosen Bluetooth device. *)
Module World.
Record t : Type := mk {
  supportsWebSerial : bool;
  supportsWebBluetooth : bool;
  outcome : IOCall -> nat -> option JsError.t;
  serverConnected : nat -> bool;
  deviceName : option JS.jsstring;
  toISOString : nat -> JS.jsstring
}.
End World.

(** *** Asynchronous functions as state transformers that may throw *)

Inductive Result (A : Type) : Type :=
| Ok (a : A)
| Throw (e : JsError.t).

Arguments Ok {A} a.
Arguments Throw {A} e.

Definition M (A : Type) : Type := Store.t -> Result A * Store.t.

Definition ret {A : Type} (a : A) : M A := fun s => (Ok a, s).

Definition bind {A B : Type} (m : M A) (k : A -> M B) : M B :=
  fun s =>
    match m s with
    | (Ok a, s') => k a s'
    | (Throw e, s') => (Throw e, s')
    end.

Definition throw {A : Type} (e : JsError.t) : M A := fun s => (Throw e, s).

(** [try { body } catch (err) { handler }] *)
Definition tryCatch {A : Type} (body : M A) (handler : JsError.t -> M A)
    : M A :=
  fun s =>
    match body s with
    | (Ok a, s') => (Ok a, s')
    | (Throw e, s') => handler e s'
    end.

Definition get : M Store.t := fun s => (Ok s, s).

Definition modify (f : Store.t -> Store.t) : M unit := fun s => (Ok tt, f s).

Definition when (b : bool) (m : M unit) : M unit := if b then m else ret tt.

Declare Scope js_scope.
Delimit Scope js_scope with js.
Notation "x ← y ; z" := (bind y (fun x => z))
  (at level 20, y at level 100, z at level 200, only parsing) : js_scope.
Notation "x ;; z" := (bind x (fun _ => z))
  (at level 100, z at level 200, only parsing, right associativity) : js_scope.
Local Open Scope js_scope.

Definition emit (c : IOCall) : M unit :=
  modify (fun s => Store.set_trace (Store.trace s ++ [c]) s).

(** [await new Promise(r => setTimeout(r, ms))]: never rejects. *)
Definition sleep (ms : Z) : M unit := emit (SetTimeout ms).

(** [addLog(type, message)] *)
Definition addLog (type : LogType.t) (message : JS.jsstring) : M unit :=
  modify (fun s => Store.set_logs (Store.logs s ++ [LogEntry.mk type message]) s).

Definition CR_LF : JS.jsstring := [13%N; 10%N].
Definition CHECK_MARK : JS.jsstring := [0x2705%N].
Definition ANTENNA : JS.jsstring := [0xD83D%N; 0xDCE1%N].
Definition STOP_SIGN : JS.jsstring := [0xD83D%N; 0xDED1%N].
Definition LEVEL_SLIDER : JS.jsstring := [0xD83C%N; 0xDF9A%N].
Definition WARNING_SIGN : JS.jsstring := [0x26A0%N; 0xFE0F%N].

Definition BLE_SERVICE_UUID : JS.jsstring :=
  JS.lit "6e400001-b5a3-f393-e0a9-e50e24dcca9e".
Definition BLE_RX_CHAR_UUID : JS.jsstring :=
  JS.lit "6e400003-b5a3-f393-e0a9-e50e24dcca9e".
Definition BLE_TX_CHAR_UUID : JS.jsstring :=
  JS.lit "6e400002-b5a3-f393-e0a9-e50e24dcca9e".

(** A [DataView] over an [ArrayBuffer], as delivered in
    [event.target.value]. *)
Module DataView.
Record t : Type := mk {
  buffer : Uint8Array;
  byteOffset : nat;
  byteLength : nat
}.
End DataView.

(** What one [await reader.read()] yields: a chunk (shown as the text the
    streaming [TextDecoder] makes of it), the end of the stream, or a
    rejection. *)
Inductive ReadResult : Type :=
| ReadValue (text : JS.jsstring)
| ReadDone
| ReadThrows (e : JsError.t).

Definition modeName (m : ConnectionMode) : JS.jsstring :=
  match m with
  | serial => JS.lit "serial"
  | bluetooth => JS.lit "bluetooth"
  end.

Section Component.

Variable w : World.t.
Variable r : Render.t.

(** A call on the browser that may throw: it is recorded, then ends as
    the world has it. *)
Definition call (c : IOCall) : M unit :=
  fun s =>
    let s' := Store.set_trace (Store.trace s ++ [c]) s in
    match World.outcome w c (length (Store.trace s)) with
    | None => (Ok tt, s')
    | Some e => (Throw e, s')
    end.

(** [server && server.connected] for the held device. *)
Definition serverIsConnected (d : BleDevice.t) : M bool :=
  fun s =>
    (Ok (BleDevice.server d
         && World.serverConnected w (length (Store.trace s))), s).

(** [server.connected] on the server just obtained. *)
Definition serverConnected : M bool :=
  fun s => (Ok (World.serverConnected w (length (Store.trace s))), s).

Definition now : M JS.jsstring :=
  fun s => (Ok (World.toISOString w (length (Store.trace s))), s).

(** *** CSV accumulator *)

(** [`data_${iso.replace(/[:.]/g, '-').slice(0, -5)}.csv`] *)
Definition csvFilename (iso : JS.jsstring) : JS.jsstring :=
  let replaced :=
    map (fun c => if ((c =? 58) || (c =? 46))%N then 45%N else c) iso in
  let timestamp := take (length replaced - 5) replaced in
  JS.lit "data_" ++ timestamp ++ JS.lit ".csv".

Definition csvContent (data : list Z) : JS.jsstring :=
  fold_left
    (fun content iv =>
       content ++ JS.ofInteger (Z.of_nat (fst iv)) ++ JS.lit ","
               ++ JS.ofInteger (snd iv) ++ [10%N])
    (imap (fun index value => (index, value)) data)
    (JS.lit "index,raw" ++ [10%N]).

Definition saveCSVIfEnabled : M unit :=
  s ← get;
  if negb (Render.csvEnabled r) || negb (Render.folderHandle r)
     || (length (Store.csvDataRef s) =? 0)%nat
  then modify (Store.set_csvDataRef [])
  else
    tryCatch
      (iso ← now;
       let filename := csvFilename iso in
       call (GetFileHandle filename);;
       call CreateWritable;;
       call (FileWrite (csvContent (Store.csvDataRef s)));;
       call FileClose;;
       addLog LogType.response
         (CHECK_MARK ++ JS.lit " CSV saved to " ++ Render.csvDir r
            ++ JS.lit "/" ++ filename ++ JS.lit " ("
            ++ JS.ofInteger (Z.of_nat (length (Store.csvDataRef s)))
            ++ JS.lit " samples)");;
       modify (Store.set_csvDataRef []))
      (fun err =>
         addLog LogType.error
           (JS.lit "Failed to save CSV: " ++ JsError.message err);;
         modify (Store.set_csvDataRef [])).

(** *** Serial adapter *)

Definition connectSerial : M unit :=
  tryCatch
    (if negb (World.supportsWebSerial w) then
       addLog LogType.error
         (JS.lit "Web Serial API not supported. Use Chrome/Edge 89+")
     else
       (s ← get;
        when (Store.serialPortRef s)
          (tryCatch
             (modify (Store.set_streamingRef false);;
              (s1 ← get;
               when (Store.serialReaderRef s1)
                 (call ReaderCancel;;
                  modify (Store.set_serialReaderRef false)));;
              call PortClose;;
              addLog LogType.info (JS.lit "Closed previous serial port");;
              sleep 300)
             (fun _ => ret tt);;
           modify (Store.set_serialPortRef false)));;
       addLog LogType.info (JS.lit "Requesting serial port...");;
       call RequestPort;;
       call (PortOpen 115200 8 1);;
       addLog LogType.info
         (CHECK_MARK ++ JS.lit " Serial port opened (115200 baud)");;
       modify (Store.set_serialPortRef true);;
       modify (Store.set_connStatus ConnStatus.connected);;
       addLog LogType.info
         (CHECK_MARK ++ JS.lit " Serial device connected and ready"))
    (fun err =>
       (if JS.eqb (JsError.name err) (JS.lit "NotFoundError") then
          addLog LogType.info (JS.lit "No port selected")
        else
          (addLog LogType.error
             (JS.lit "Serial connection failed: " ++ JsError.message err);;
           modify (Store.set_connStatus ConnStatus.error)));;
       s ← get;
       when (Store.serialPortRef s)
         (tryCatch (call PortClose) (fun _ => ret tt);;
          modify (Store.set_serialPortRef false))).

(** The body of the inner loop of [readSerialData] for one line cut out
    of the buffer: trim, match, decode, store. *)
Definition processLine (rawLine : JS.jsstring) : M unit :=
  let line := JS.trim rawLine in
  if JS.isEmpty line then ret tt
  else
    match matchFrameLine line with
    | Some (m1, m2) =>
        let seq := JS.band (JS.ToInt32 (JS.parseInt16 m1)) 0xFF in
        let hexData := m2 in
        let samples := decodeHexToSamples hexData in
        when (Render.csvEnabled r)
          (modify (fun s =>
             Store.set_csvDataRef (Store.csvDataRef s ++ samples) s));;
        modify (fun s =>
          Store.set_liveData (appendSamples samples seq (Store.liveData s)) s)
    | None => ret tt
    end.

(** [while ((newlineIndex = buffer.indexOf('\n')) >= 0) { ... }]; the
    result is what is left in [buffer]. *)
Fixpoint drainLines (fuel : nat) (buffer : JS.jsstring) : M JS.jsstring :=
  match JS.indexOf buffer 10%N with
  | None => ret buffer
  | Some newlineIndex =>
      match fuel with
      | O => ret buffer
      | S fuel' =>
          processLine (take newlineIndex buffer);;
          drainLines fuel' (drop (newlineIndex + 1) buffer)
      end
  end.

(** One chunk: [buffer += decoder.decode(value, { stream: true })], then
    the complete lines.  Each line taken shortens the buffer, so its
    length is fuel enough. *)
Definition processChunk (text buffer : JS.jsstring) : M JS.jsstring :=
  let buffer := buffer ++ text in
  drainLines (length buffer) buffer.

(** [while (streamingRef.current) { ... await reader.read() ... }]
    followed by the release of the reader, over the results of the
    successive reads.  When the results run out the loop is suspended in
    [await reader.read()].  What other handlers do while the loop is
    suspended is not part of this function. *)
Fixpoint readLoop (reads : list ReadResult) (buffer : JS.jsstring)
    : M unit :=
  let finish :=
    call ReaderReleaseLock;;
    modify (Store.set_serialReaderRef false) in
  s ← get;
  if negb (Store.streamingRef s) then finish
  else
    match reads with
    | [] => ret tt
    | ReadDone :: _ =>
        addLog LogType.warning (JS.lit "Serial stream ended");;
        finish
    | ReadValue text :: reads' =>
        buffer' ← processChunk text buffer;
        readLoop reads' buffer'
    | ReadThrows e :: _ => throw e
    end.

Definition readSerialData (reads : list ReadResult) : M unit :=
  s ← get;
  if negb (Store.serialPortRef s) || negb (Store.streamingRef s) then ret tt
  else
    tryCatch
      (call GetReader;;
       modify (Store.set_serialReaderRef true);;
       readLoop reads [])
      (fun err =>
         (s1 ← get;
          when (Store.streamingRef s1)
            (addLog LogType.error
               (JS.lit "Serial read error: " ++ JsError.message err);;
             modify (Store.set_streamingRef false);;
             modify (Store.set_isRunning false)));;
         s2 ← get;
         when (Store.serialReaderRef s2)
           (tryCatch (call ReaderReleaseLock) (fun _ => ret tt);;
            modify (Store.set_serialReaderRef false))).

(** [readSerialData()] is not awaited: [startSerialStreaming] goes on as
    soon as the loop is suspended in its first read. *)
Definition startSerialStreaming : M unit :=
  s ← get;
  if negb (Store.serialPortRef s) then
    addLog LogType.error (JS.lit "No serial port connected")
  else
    tryCatch
      (call GetWriter;;
       call (WriterWrite (JS.lit "S0" ++ CR_LF));;
       call WriterReleaseLock;;
       modify (Store.set_streamingRef true);;
       modify (Store.set_isRunning true);;
       addLog LogType.info (ANTENNA ++ JS.lit " Serial streaming started");;
       readSerialData [])
      (fun err =>
         addLog LogType.error
           (JS.lit "Serial streaming failed: " ++ JsError.message err);;
         modify (Store.set_streamingRef false);;
         modify (Store.set_isRunning false)).

Definition stopSerialStreaming : M unit :=
  s ← get;
  if negb (Store.serialPortRef s) then ret tt
  else
    tryCatch
      (modify (Store.set_streamingRef false);;
       (s1 ← get;
        when (Store.serialReaderRef s1)
          (call ReaderCancel;;
           modify (Store.set_serialReaderRef false)));;
       sleep 100;;
       call GetWriter;;
       call (WriterWrite (JS.lit "B0" ++ CR_LF));;
       call WriterReleaseLock;;
       modify (Store.set_isRunning false);;
       addLog LogType.info (STOP_SIGN ++ JS.lit " Serial streaming stopped");;
       saveCSVIfEnabled)
      (fun err =>
         addLog LogType.error
           (JS.lit "Serial stop error: " ++ JsError.message err)).

Definition setSerialGain (newGain : Z) : M unit :=
  s ← get;
  if negb (Store.serialPortRef s) then ret tt
  else
    tryCatch
      (let gainHex := JS.toUpperCase (JS.toString16 newGain) in
       call GetWriter;;
       call (WriterWrite (JS.lit "G" ++ gainHex ++ CR_LF));;
       call WriterReleaseLock;;
       addLog LogType.info
         (LEVEL_SLIDER ++ JS.lit " Serial gain set to "
            ++ JS.ofInteger newGain))
      (fun err =>
         addLog LogType.error
           (JS.lit "Serial gain error: " ++ JsError.message err)).

(** *** Bluetooth adapter *)

(** The listener registered for [gattserverdisconnected]. *)
Definition disconnectHandler : M unit :=
  addLog LogType.warning
    (WARNING_SIGN ++ JS.lit " BLE device disconnected unexpectedly");;
  modify (Store.set_connStatus ConnStatus.disconnected);;
  modify (Store.set_streamingRef false);;
  modify (Store.set_isRunning false);;
  modify (fun s =>
    match Store.bleDeviceRef s with
    | Some _ => Store.set_bleDeviceRef (Some (BleDevice.mk false)) s
    | None => s
    end).

(** [if (server && server.connected) server.disconnect()] on the held
    device. *)
Definition disconnectHeldServer (d : BleDevice.t) : M unit :=
  c ← serverIsConnected d;
  when c (call GattDisconnect).

(** [while (!server && connectAttempts < maxConnectAttempts) { ... }]
    with [maxConnectAttempts = 3]: the result tells whether a server
    was obtained. *)
Fixpoint gattConnectLoop (fuel : nat) (connectAttempts : Z) : M bool :=
  if connectAttempts <? 3 then
    match fuel with
    | O => ret false
    | S fuel' =>
        res ← tryCatch
                (call GattConnect;;
                 addLog LogType.info
                   (CHECK_MARK ++ JS.lit " GATT server connected");;
                 ret (true, connectAttempts))
                (fun _ =>
                   let connectAttempts := connectAttempts + 1 in
                   if connectAttempts <? 3 then
                     addLog LogType.warning
                       (JS.lit "Connection attempt "
                          ++ JS.ofInteger connectAttempts
                          ++ JS.lit " failed, retrying...");;
                     sleep 1000;;
                     ret (false, connectAttempts)
                   else
                     throw (Error (JS.lit
                       "Failed to connect to GATT server after multiple attempts.")));
        if fst res then ret true else gattConnectLoop fuel' (snd res)
    end
  else ret false.

Definition connectBLE : M unit :=
  tryCatch
    (if negb (World.supportsWebBluetooth w) then
       addLog LogType.error
         (JS.lit "Web Bluetooth not supported. Use Chrome/Edge/Opera with HTTPS")
     else
       (s ← get;
        match Store.bleDeviceRef s with
        | Some _ =>
            tryCatch
              (modify (Store.set_streamingRef false);;
               (s1 ← get;
                when (Store.bleHandlerRef s1)
                  (emit RemoveValueListener;;
                   modify (Store.set_bleHandlerRef false)));;
               tryCatch (call StopNotifications) (fun _ => ret tt);;
               (s2 ← get;
                match Store.bleDeviceRef s2 with
                | Some d => disconnectHeldServer d
                | None => ret tt
                end);;
               addLog LogType.info (JS.lit "Disconnected previous BLE device");;
               sleep 500)
              (fun _ => ret tt);;
            modify (Store.set_bleDeviceRef None)
        | None => ret tt
        end);;
       addLog LogType.info (JS.lit "Requesting Bluetooth device...");;
       call (RequestDevice (JS.lit "PS02") BLE_SERVICE_UUID);;
       addLog LogType.info
         (JS.lit "Device selected: "
            ++ match World.deviceName w with
               | Some name => if JS.isEmpty name then JS.lit "Unknown" else name
               | None => JS.lit "Unknown"
               end);;
       emit AddDisconnectListener;;
       addLog LogType.info (JS.lit "Connecting to GATT server...");;
       server ← gattConnectLoop 3 0;
       if negb server then
         throw (Error (JS.lit "Failed to establish GATT connection"))
       else
         sleep 300;;
         c1 ← serverConnected;
         if negb c1 then
           throw (Error (JS.lit
             "GATT server disconnected immediately after connection."))
         else
           addLog LogType.info (JS.lit "Getting primary service...");;
           call (GetPrimaryService BLE_SERVICE_UUID);;
           addLog LogType.info (CHECK_MARK ++ JS.lit " Service found");;
           addLog LogType.info (JS.lit "Getting characteristics...");;
           call (GetCharacteristic BLE_RX_CHAR_UUID);;
           call (GetCharacteristic BLE_TX_CHAR_UUID);;
           addLog LogType.info (CHECK_MARK ++ JS.lit " Characteristics found");;
           c2 ← serverConnected;
           if negb c2 then
             throw (Error (JS.lit
               "Device disconnected while getting characteristics"))
           else
             modify (Store.set_bleDeviceRef (Some (BleDevice.mk true)));;
             modify (Store.set_connStatus ConnStatus.connected);;
             addLog LogType.info
               (CHECK_MARK ++ JS.lit " BLE connected and ready"))
    (fun err =>
       let errorMsg :=
         if JS.isEmpty (JsError.message err) then JS.lit "Unknown error"
         else JsError.message err in
       let errorMsg :=
         if JS.includes errorMsg (JS.lit "User cancelled") then
           JS.lit "Device selection cancelled"
         else if JS.includes errorMsg (JS.lit "Connection attempt failed") then
           JS.lit "Connection failed. Try: Reset device, move closer, check battery"
         else if JS.includes errorMsg (JS.lit "GATT Server is disconnected") then
           JS.lit "Device disconnected during setup. Try: Reset device and connect immediately after power-on"
         else errorMsg in
       addLog LogType.error (JS.lit "BLE connection failed: " ++ errorMsg);;
       modify (Store.set_connStatus ConnStatus.error);;
       s ← get;
       match Store.bleDeviceRef s with
       | Some d =>
           tryCatch (disconnectHeldServer d) (fun _ => ret tt);;
           modify (Store.set_bleDeviceRef None)
       | None => ret tt
       end).

Definition startBLEStreaming : M unit :=
  s ← get;
  match Store.bleDeviceRef s with
  | None => addLog LogType.error (JS.lit "No BLE device connected")
  | Some d =>
      tryCatch
        (c ← serverIsConnected d;
         if negb c then
           throw (Error (JS.lit
             "GATT server is not connected. Please reconnect the device."))
         else
           modify (Store.set_bleHandlerRef true);;
           addLog LogType.info (JS.lit "Starting notifications...");;
           call StartNotifications;;
           emit AddValueListener;;
           addLog LogType.info (CHECK_MARK ++ JS.lit " Notifications started");;
           sleep 100;;
           call (WriteValue [Byte.xfe; Byte.x00; Byte.x53; Byte.x00; Byte.x00]);;
           modify (Store.set_streamingRef true);;
           modify (Store.set_isRunning true);;
           addLog LogType.info (ANTENNA ++ JS.lit " BLE streaming started"))
        (fun err =>
           addLog LogType.error
             (JS.lit "BLE streaming failed: " ++ JsError.message err);;
           modify (Store.set_streamingRef false);;
           modify (Store.set_isRunning false))
  end.

(** The notification listener.  [new Uint8Array(data.buffer)] views the
    whole underlying buffer; [bytes.slice(2, 56)] is clamped to it. *)
Definition handleBLEData (data : DataView.t) : M unit :=
  if (56 <=? DataView.byteLength data)%nat then
    let bytes := DataView.buffer data in
    match bytes !! 0%nat with
    | Some Byte.x00 =>
        let seq := JS.band (ToInt32_elem (bytes !! 1%nat)) 0x0F in
        let payload := take (56 - 2) (drop 2 bytes) in
        let samples := decodeBytesToSamples payload in
        when (Render.csvEnabled r)
          (modify (fun s =>
             Store.set_csvDataRef (Store.csvDataRef s ++ samples) s));;
        modify (fun s =>
          Store.set_liveData (appendSamples samples seq (Store.liveData s)) s)
    | _ => ret tt
    end
  else ret tt.

Definition stopBLEStreaming : M unit :=
  s ← get;
  match Store.bleDeviceRef s with
  | None => ret tt
  | Some _ =>
      tryCatch
        (modify (Store.set_streamingRef false);;
         call (WriteValue [Byte.xfe; Byte.x00; Byte.x42; Byte.x00; Byte.x00]);;
         (s1 ← get;
          when (Store.bleHandlerRef s1)
            (emit RemoveValueListener;;
             modify (Store.set_bleHandlerRef false)));;
         call StopNotifications;;
         modify (Store.set_isRunning false);;
         addLog LogType.info (STOP_SIGN ++ JS.lit " BLE streaming stopped");;
         saveCSVIfEnabled)
        (fun err =>
           addLog LogType.error
             (JS.lit "BLE stop error: " ++ JsError.message err))
  end.

Definition setBLEGain (newGain : Z) : M unit :=
  s ← get;
  match Store.bleDeviceRef s with
  | None => ret tt
  | Some _ =>
      tryCatch
        (call (WriteValue
                 [Byte.xfe; Byte.x00; Byte.x47;
                  ToUint8 (JS.band newGain 0xFF); Byte.x00]);;
         addLog LogType.info
           (LEVEL_SLIDER ++ JS.lit " BLE gain set to "
              ++ JS.ofInteger newGain))
        (fun err =>
           addLog LogType.error
             (JS.lit "BLE gain error: " ++ JsError.message err))
  end.

(** *** Unified controls *)

Definition handleConnect : M unit :=
  match Render.mode r with
  | serial => connectSerial
  | bluetooth => connectBLE
  end.

(** [connStatus] is the value captured by the closure: both tests read
    the render's value, whatever [setConnStatus] was given meanwhile. *)
Definition handleStart : M unit :=
  addLog LogType.command
    (JS.toUpperCase (modeName (Render.mode r)) ++ JS.lit " START");;
  modify (Store.set_liveData []);;
  modify (Store.set_xStart 0);;
  modify (Store.set_zoomRange 2000);;
  modify (Store.set_yShift 0);;
  modify (Store.set_yZoom 4200);;
  modify (Store.set_csvDataRef []);;
  when (negb (ConnStatus.eqb (Render.connStatus r) ConnStatus.connected))
    (handleConnect;;
     sleep 500);;
  if ConnStatus.eqb (Render.connStatus r) ConnStatus.connected then
    match Render.mode r with
    | serial => startSerialStreaming
    | bluetooth => startBLEStreaming
    end
  else
    addLog LogType.error
      (JS.lit "Device not connected. Connection may have failed.").

Definition handleStop : M unit :=
  addLog LogType.command
    (JS.toUpperCase (modeName (Render.mode r)) ++ JS.lit " STOP");;
  match Render.mode r with
  | serial => stopSerialStreaming
  | bluetooth => stopBLEStreaming
  end.

Definition handleSendGain : M unit :=
  let gainValue := Render.gainValue r in
  let gain := JS.Number gainValue in
  if JS.isEmpty (JS.trim gainValue)
     || JS.isNaN gain
     || negb (JS.isInteger gain)
     || JS.ltZ gain 0
     || JS.gtZ gain 15
  then
    addLog LogType.error (JS.lit "Gain must be an integer between 0 and 15")
  else
    let gain := JS.truncate gain in
    tryCatch
      (addLog LogType.command
         (JS.toUpperCase (modeName (Render.mode r)) ++ JS.lit " SET_GAIN "
            ++ JS.ofInteger gain);;
       match Render.mode r with
       | serial => setSerialGain gain
       | bluetooth => setBLEGain gain
       end;;
       addLog LogType.response
         (CHECK_MARK ++ JS.lit " Gain set to " ++ JS.ofInteger gain))
      (fun e =>
         addLog LogType.error
           (JS.lit "SET_GAIN failed: " ++ JsError.message e)).

End Component.

(** ** Auxiliary definitions for the proofs *)

(** A string cut into pieces of two code units, the last one possibly of
    one: the arguments [hexLoop] gives to [parseInt]. *)
Fixpoint chunks2 (s : JS.jsstring) : list JS.jsstring :=
  match s with
  | [] => []
  | [a] => [[a]]
  | a :: b :: s' => [a; b] :: chunks2 s'
  end.

(** The first code unit of [s], if there is one, fails [p]. *)
Definition headFails (p : N -> bool) (s : JS.jsstring) : Prop :=
  match s with
  | c :: _ => p c = false
  | [] => True
  end.

(** ** Vocabulary of the statements *)

(** The Number [x] is the integer [n]. *)
Definition denotesInteger (x : JS.number) (n : Z) : Prop :=
  match x with
  | JS.Finite neg m e =>
      (if neg then - m else m) * 2 ^ Z.max e 0 = n * 2 ^ Z.max (- e) 0
  | _ => False
  end.

(** The text of the gain field parses to the integer [n] of [0, 15]: it
    is not blank and, read as a Number, it is [n]. *)
Definition ParsesToGain (gainValue : JS.jsstring) (n : Z) : Prop :=
  JS.trim gainValue <> []
  /\ 0 <= n <= 15
  /\ denotesInteger (JS.Number gainValue) n.

(** In [calls], oldest first, a call that satisfies [p] comes before any
    call that satisfies [q]. *)
Fixpoint precededBy (p q : IOCall -> bool) (calls : list IOCall) : bool :=
  match calls with
  | [] => true
  | c :: calls' =>
      if p c then true else if q c then false else precededBy p q calls'
  end.

Definition isReaderCancel (c : IOCall) : bool :=
  match c with ReaderCancel => true | _ => false end.

Definition isTimeout (ms : Z) (c : IOCall) : bool :=
  match c with SetTimeout ms' => ms' =? ms | _ => false end.

Definition isSerialWrite (c : IOCall) : bool :=
  match c with WriterWrite _ => true | _ => false end.

Definition isBleWrite (c : IOCall) : bool :=
  match c with WriteValue _ => true | _ => false end.

Definition isRemoveValueListener (c : IOCall) : bool :=
  match c with RemoveValueListener => true | _ => false end.

Definition isStopNotifications (c : IOCall) : bool :=
  match c with StopNotifications => true | _ => false end.

(** The calls by which an adapter starts streaming: taking the writer or
    the reader of the port, writing to the device, subscribing to
    notifications. *)
Definition isStreamingStart (c : IOCall) : bool :=
  match c with
  | GetWriter | WriterWrite _ | GetReader
  | StartNotifications | AddValueListener | WriteValue _ => true
  | _ => false
  end.

(** All the writes among [calls] carry the given serial text or the given
    Bluetooth bytes. *)
Definition writesOnly (text : JS.jsstring) (bytes : Uint8Array)
    (calls : list IOCall) : bool :=
  forallb
    (fun c =>
       match c with
       | WriterWrite t => JS.eqb t text
       | WriteValue b => bool_decide (map Byte.to_N b = map Byte.to_N bytes)
       | _ => true
       end)
    calls.

Definition SERIAL_STOP : JS.jsstring := JS.lit "B0" ++ CR_LF.

Definition BLE_STOP : Uint8Array :=
  [Byte.xfe; Byte.x00; Byte.x42; Byte.x00; Byte.x00].

(** A computation that starts no streaming: what it adds to the trace
    holds none of the streaming-start calls, it leaves the run state, the
    live buffer and the CSV buffer as they are, and it does not raise the
    streaming flag. *)
Definition startsNoStreaming {A : Type} (m : M A) : Prop :=
  forall s : Store.t,
    exists new : list IOCall,
      Store.trace (snd (m s)) = Store.trace s ++ new
      /\ forallb (fun c => negb (isStreamingStart c)) new = true
      /\ Store.isRunning (snd (m s)) = Store.isRunning s
      /\ Store.liveData (snd (m s)) = Store.liveData s
      /\ Store.csvDataRef (snd (m s)) = Store.csvDataRef s
      /\ (Store.streamingRef (snd (m s)) = true
          -> Store.streamingRef s = true).

(** A computation that always completes normally. *)
Definition neverThrows {A : Type} (m : M A) : Prop :=
  forall s : Store.t, exists a : A, fst (m s) = Ok a.

(** ** Sample situations *)

(** A world in which every call succeeds. *)
Definition calmWorld : World.t :=
  World.mk true true (fun _ _ => None) (fun _ => true)
    (Some (JS.lit "PS02-0001")) (fun _ => JS.lit "2025-01-02T03:04:05.678Z").

(** The component as mounted: nothing connected, nothing running. *)
Definition initialStore : Store.t :=
  Store.mk false [] ConnStatus.disconnected [] 2000 0 0 4200
    false false None false false [] [].

Definition initialRender (mode : ConnectionMode) : Render.t :=
  Render.mk mode (JS.lit "15") ConnStatus.disconnected false false [] false.

(** Streaming over Bluetooth: a device is held, its server connected, the
    notification listener registered. *)
Definition bleStreamingStore : Store.t :=
  Store.mk true [] ConnStatus.connected [] 2000 0 0 4200
    false false (Some (BleDevice.mk true)) true true [] [].

(** Streaming over the serial port, the read loop holding its reader. *)
Definition serialStreamingStore : Store.t :=
  Store.mk true [] ConnStatus.connected [] 2000 0 0 4200
    true true None true false [] [].

Definition connectedRender (mode : ConnectionMode) : Render.t :=
  Render.mk mode (JS.lit "15") ConnStatus.connected true false [] false.

(** ** Switching mode *)

(** [next === mode] *)
Definition ConnectionMode_eqb (a b : ConnectionMode) : bool :=
  match a, b with
  | serial, serial | bluetooth, bluetooth => true
  | _, _ => false
  end.

Section Switching.

Variable w : World.t.
Variable r : Render.t.

(** [mode] and [isRunning] are the values captured by the closure.  The
    state variable [mode] is not part of the store: the result is the
    value given to [setMode], [None] when the handler returns before
    calling it. *)
Definition handleSwitchMode (next : ConnectionMode)
    : M (option ConnectionMode) :=
  if ConnectionMode_eqb next (Render.mode r) then ret None
  else
    when (Render.isRunning r)
      (handleStop w r;;
       sleep 500);;
    (s ← get;
     match Render.mode r with
     | serial =>
         when (Store.serialPortRef s)
           (tryCatch
              (modify (Store.set_streamingRef false);;
               (s1 ← get;
                when (Store.serialReaderRef s1)
                  (call w ReaderCancel;;
                   modify (Store.set_serialReaderRef false)));;
               call w PortClose;;
               modify (Store.set_serialPortRef false);;
               addLog LogType.info (JS.lit "Serial port disconnected"))
              (fun _ => ret tt))
     | bluetooth =>
         match Store.bleDeviceRef s with
         | Some d =>
             tryCatch
               ((s1 ← get;
                 when (Store.bleHandlerRef s1)
                   (emit RemoveValueListener;;
                    modify (Store.set_bleHandlerRef false)));;
                call w StopNotifications;;
                disconnectHeldServer w d;;
                modify (Store.set_bleDeviceRef None);;
                addLog LogType.info (JS.lit "BLE device disconnected"))
               (fun _ => ret tt)
         | None => ret tt
         end
     end);;
    modify (Store.set_connStatus ConnStatus.disconnected);;
    modify (Store.set_liveData []);;
    modify (Store.set_xStart 0);;
    modify (Store.set_yShift 0);;
    addLog LogType.info
      (JS.lit "Mode switched to " ++ JS.toUpperCase (modeName next));;
    ret (Some next).

(** The earlier, USB variant of the page: what [readUSBData] does with
    the result of [await transferIn(1, 64)], given whether its status is
    ['ok'] and the text the [TextDecoder] makes of its data, if it has
    any.  The whole text of the packet is matched, without cutting lines
    or trimming. *)
Definition readUSBData_result (statusOk : bool) (data : option JS.jsstring)
    : M unit :=
  match data with
  | Some text =>
      if statusOk then
        match matchFrameLine text with
        | Some (m1, m2) =>
            let seq := JS.band (JS.ToInt32 (JS.parseInt16 m1)) 0xFF in
            let hexData := m2 in
            let samples := decodeHexToSamples hexData in
            when (Render.csvEnabled r)
              (modify (fun s =>
                 Store.set_csvDataRef (Store.csvDataRef s ++ samples) s));;
            modify (fun s =>
              Store.set_liveData
                (appendSamples samples seq (Store.liveData s)) s)
        | None => ret tt
        end
      else ret tt
  | None => ret tt
  end.

End Switching.

(** ** More vocabulary *)

(** The complete lines of a text, cut at each newline, and what is left
    after the last one; [current] is the part of the line read so far. *)
Fixpoint splitLines (current : JS.jsstring) (s : JS.jsstring)
    : list JS.jsstring * JS.jsstring :=
  match s with
  | [] => ([], current)
  | c :: s' =>
      if (c =? 10)%N then
        let '(lines, rest) := splitLines [] s' in (current :: lines, rest)
      else splitLines (current ++ [c]) s'
  end.

(** The state after the given lines went through [processLine], in
    order. *)
Definition processLines (r : Render.t) (lines : list JS.jsstring)
    (s : Store.t) : Store.t :=
  fold_left (fun st line => snd (processLine r line st)) lines s.

(** Every run of the computation takes the store to one related to it by
    [R]. *)
Definition steps {A : Type} (R : Store.t -> Store.t -> Prop) (m : M A)
    : Prop :=
  forall s : Store.t, R s (snd (m s)).

(** The trace grew by calls that all satisfy [P]. *)
Definition addsCalls (P : IOCall -> bool) (s s' : Store.t) : Prop :=
  exists new : list IOCall,
    Store.trace s' = Store.trace s ++ new /\ forallb P new = true.

(** The log grew at its end; no entry was removed or changed. *)
Definition growsLog (s s' : Store.t) : Prop :=
  exists entries : list LogEntry.t, Store.logs s' = Store.logs s ++ entries.

(** The live buffer and the CSV accumulator are as they were. *)
Definition keepsBuffers (s s' : Store.t) : Prop :=
  Store.liveData s' = Store.liveData s
  /\ Store.csvDataRef s' = Store.csvDataRef s.

(** The live buffer, the CSV accumulator and the chart view are as they
    were. *)
Definition keepsView (s s' : Store.t) : Prop :=
  Store.liveData s' = Store.liveData s
  /\ Store.csvDataRef s' = Store.csvDataRef s
  /\ Store.zoomRange s' = Store.zoomRange s
  /\ Store.xStart s' = Store.xStart s
  /\ Store.yShift s' = Store.yShift s
  /\ Store.yZoom s' = Store.yZoom s.

(** Nothing but the log and the trace of calls differs. *)
Definition onlyLogAndTrace (s s' : Store.t) : Prop :=
  s' = Store.set_trace (Store.trace s') (Store.set_logs (Store.logs s') s).

(** Nothing but the live buffer and the CSV accumulator differs. *)
Definition onlyBuffers (s s' : Store.t) : Prop :=
  s' = Store.set_liveData (Store.liveData s')
         (Store.set_csvDataRef (Store.csvDataRef s') s).

(** Whenever the computation completes normally, the store it leaves
    satisfies [Q]. *)
Definition returnsWith {A : Type} (Q : Store.t -> Prop) (m : M A) : Prop :=
  forall (s : Store.t) (a : A) (s' : Store.t), m s = (Ok a, s') -> Q s'.

(** The zoom of the chart is as it was. *)
Definition keepsZoom (s s' : Store.t) : Prop :=
  Store.zoomRange s' = Store.zoomRange s /\ Store.yZoom s' = Store.yZoom s.

Definition isBluetoothCall (c : IOCall) : bool :=
  match c with
  | RequestDevice _ _ | AddDisconnectListener | GattConnect | GattDisconnect
  | GetPrimaryService _ | GetCharacteristic _ | StartNotifications
  | StopNotifications | AddValueListener | RemoveValueListener
  | WriteValue _ => true
  | _ => false
  end.

Definition isSerialPortCall (c : IOCall) : bool :=
  match c with
  | RequestPort | PortOpen _ _ _ | PortClose | GetReader | ReaderCancel
  | ReaderReleaseLock | GetWriter | WriterWrite _ | WriterReleaseLock => true
  | _ => false
  end.

Definition isFileCall (c : IOCall) : bool :=
  match c with
  | GetFileHandle _ | CreateWritable | FileWrite _ | FileClose => true
  | _ => false
  end.


Definition SERIAL_START : JS.jsstring := JS.lit "S0" ++ CR_LF.

Definition BLE_START : Uint8Array :=
  [Byte.xfe; Byte.x00; Byte.x53; Byte.x00; Byte.x00].

(** * Properties *)

(** ** Integer operators and bytes *)

Lemma wrap32_small (z : Z) : - 2 ^ 31 <= z < 2 ^ 31 -> JS.wrap32 z = z.
Proof.
  intros H. unfold JS.wrap32.
  rewrite Z.mod_small; lia.
Qed.

Lemma byteZ_range (b : byte) : 0 <= byteZ b < 256.
Proof.
  unfold byteZ. pose proof (Byte.to_N_bounded b). lia.
Qed.

Lemma byteZ_ToUint8 (z : Z) : byteZ (ToUint8 z) = z mod 256.
Proof.
  unfold ToUint8, byteZ.
  assert (Hr : 0 <= z mod 256 < 256) by (apply Z.mod_pos_bound; lia).
  destruct (Byte.of_N (Z.to_N (z mod 256))) as [b|] eqn:E.
  - apply Byte.to_of_N in E. rewrite E. lia.
  - apply Byte.of_N_None_iff in E. lia.
Qed.

Lemma ToUint8_byteZ (b : byte) : ToUint8 (byteZ b) = b.
Proof.
  unfold ToUint8, byteZ.
  pose proof (Byte.to_N_bounded b) as Hb.
  rewrite Z.mod_small by lia.
  rewrite N2Z.id, Byte.of_to_N. reflexivity.
Qed.

Lemma ToInt32_elem_range (e : option byte) : 0 <= ToInt32_elem e < 256.
Proof.
  destruct e as [b|]; simpl; [apply byteZ_range | lia].
Qed.

Lemma lor_below_pow2 (n a b : Z) :
  0 <= n -> 0 <= a < 2 ^ n -> 0 <= b < 2 ^ n -> 0 <= Z.lor a b < 2 ^ n.
Proof.
  intros Hn Ha Hb.
  assert (H0 : 0 <= Z.lor a b) by (apply Z.lor_nonneg; lia).
  split; [exact H0|].
  destruct (Z.eq_dec (Z.lor a b) 0) as [E|E].
  - rewrite E. apply Z.pow_pos_nonneg; lia.
  - assert (Hpos : 0 < n).
    { destruct (Z.eq_dec n 0) as [->|]; [|lia].
      change (2 ^ 0) with 1 in *.
      assert (a = 0) as -> by lia. assert (b = 0) as -> by lia.
      contradiction E; reflexivity. }
    apply Z.log2_lt_pow2; [lia|].
    rewrite Z.log2_lor by lia.
    apply Z.max_lub_lt.
    + destruct (Z.eq_dec a 0) as [->|]; [exact Hpos|].
      apply Z.log2_lt_pow2; lia.
    + destruct (Z.eq_dec b 0) as [->|]; [exact Hpos|].
      apply Z.log2_lt_pow2; lia.
Qed.

Lemma land_below_pow2 (n a b : Z) :
  0 <= a -> 0 <= b < 2 ^ n -> 0 <= Z.land a b < 2 ^ n.
Proof.
  intros Ha Hb.
  assert (H0 : 0 <= Z.land a b) by (apply Z.land_nonneg; lia).
  split; [exact H0|].
  destruct (Z.eq_dec (Z.land a b) 0) as [E|E]; [lia|].
  destruct (Z.eq_dec b 0) as [->|Hb0]; [rewrite Z.land_0_r in E; lia|].
  assert (Hn : 0 <= n).
  { destruct (Z.lt_ge_cases n 0) as [Hneg|]; [|lia].
    rewrite Z.pow_neg_r in Hb by lia. lia. }
  apply Z.log2_lt_pow2; [lia|].
  pose proof (Z.log2_land a b Ha ltac:(lia)).
  assert (Z.log2 b < n) by (apply Z.log2_lt_pow2; lia).
  lia.
Qed.

(** On bytes the int32 wrap-around of the decoder's expression never
    triggers: it is the plain bit-level formula, and it fits 12 bits. *)
Lemma sample_expr_plain (k a b : Z) :
  0 <= k <= 8 -> 0 <= a < 256 -> 0 <= b < 256 ->
  JS.bor (JS.band (JS.shl b k) 0x0F00) a
    = Z.lor (Z.land (Z.shiftl b k) 0x0F00) a
  /\ 0 <= Z.lor (Z.land (Z.shiftl b k) 0x0F00) a < 4096.
Proof.
  intros Hk Ha Hb.
  assert (Hs : 0 <= Z.shiftl b k < 2 ^ 16).
  { rewrite Z.shiftl_mul_pow2 by lia.
    assert (0 < 2 ^ k <= 2 ^ 8) by (split; [apply Z.pow_pos_nonneg; lia | apply Z.pow_le_mono_r; lia]).
    change (2 ^ 8) with 256 in *. change (2 ^ 16) with 65536. nia. }
  assert (Hl : 0 <= Z.land (Z.shiftl b k) 0x0F00 < 2 ^ 12).
  { apply land_below_pow2; [lia | change (2 ^ 12) with 4096; lia]. }
  change (2 ^ 12) with 4096 in Hl.
  assert (Ho : 0 <= Z.lor (Z.land (Z.shiftl b k) 0x0F00) a < 2 ^ 12).
  { apply lor_below_pow2; [lia | change (2 ^ 12) with 4096; lia..]. }
  change (2 ^ 12) with 4096 in Ho. change (2 ^ 16) with 65536 in Hs.
  split; [|exact Ho].
  unfold JS.bor, JS.band, JS.shl.
  rewrite (wrap32_small b) by lia.
  rewrite (Z.mod_small k 32) by lia.
  rewrite !(wrap32_small (Z.shiftl b k)) by lia.
  rewrite (wrap32_small 0x0F00) by lia.
  rewrite !(wrap32_small (Z.land (Z.shiftl b k) 0x0F00)) by lia.
  rewrite (wrap32_small a) by lia.
  apply wrap32_small. lia.
Qed.

(** ** The decoder loop *)

(** The eighteen turns of the loop, written out. *)
Lemma decodeBytesToSamples_turns (bytes : Uint8Array) :
  decodeBytesToSamples bytes
  = flat_map (decodeTriplet bytes) (map (fun k => 3 * k)%nat (List.seq 0 18)).
Proof. reflexivity. Qed.

(** More fuel changes nothing: with 18 units the loop has reached its
    exit test [i < 54]. *)
Lemma decodeLoop_exits (extra : nat) (bytes : Uint8Array) :
  decodeLoop (18 + extra) 0 bytes [] = decodeBytesToSamples bytes.
Proof. destruct extra; reflexivity. Qed.

Lemma decodeBytesToSamples_length (bytes : Uint8Array) :
  length (decodeBytesToSamples bytes) = 36%nat.
Proof. reflexivity. Qed.

Lemma decodeBytesToSamples_lookup (bytes : Uint8Array) (k : nat) :
  (k < 18)%nat ->
  decodeBytesToSamples bytes !! (2 * k)%nat = decodeTriplet bytes (3 * k) !! 0%nat
  /\ decodeBytesToSamples bytes !! (2 * k + 1)%nat
     = decodeTriplet bytes (3 * k) !! 1%nat.
Proof.
  intros Hk.
  do 18 (destruct k as [|k]; [split; reflexivity|]).
  lia.
Qed.

Lemma decodeTriplet_range (bytes : Uint8Array) (i : nat) :
  Forall (fun v => -2048 <= v <= 2047) (decodeTriplet bytes i).
Proof.
  unfold decodeTriplet.
  pose proof (ToInt32_elem_range (bytes !! i)) as H0.
  pose proof (ToInt32_elem_range (bytes !! (i + 1)%nat)) as H1.
  pose proof (ToInt32_elem_range (bytes !! (i + 2)%nat)) as H2.
  destruct (sample_expr_plain 4 _ _ ltac:(lia) H0 H2) as [E1 R1].
  destruct (sample_expr_plain 8 _ _ ltac:(lia) H1 H2) as [E2 R2].
  rewrite E1, E2.
  repeat constructor; lia.
Qed.

Lemma decodeBytesToSamples_range (bytes : Uint8Array) :
  Forall (fun v => -2048 <= v <= 2047) (decodeBytesToSamples bytes).
Proof.
  rewrite decodeBytesToSamples_turns.
  apply Forall_flat_map, List.Forall_forall.
  intros i _. apply decodeTriplet_range.
Qed.

(** The decoder only looks at the first 54 bytes. *)
Lemma decodeTriplet_take (bytes : Uint8Array) (i : nat) :
  (i + 2 < 54)%nat -> decodeTriplet (take 54 bytes) i = decodeTriplet bytes i.
Proof.
  intros Hi. unfold decodeTriplet.
  rewrite !lookup_take_lt by lia. reflexivity.
Qed.

Lemma flat_map_ext_Forall {A B : Type} (f g : A -> list B) (l : list A) :
  Forall (fun a => f a = g a) l -> flat_map f l = flat_map g l.
Proof.
  induction 1 as [|a l Ha _ IH]; simpl; [reflexivity|].
  rewrite Ha, IH. reflexivity.
Qed.

Lemma decodeBytesToSamples_take (bytes : Uint8Array) :
  decodeBytesToSamples (take 54 bytes) = decodeBytesToSamples bytes.
Proof.
  rewrite !decodeBytesToSamples_turns.
  apply flat_map_ext_Forall, List.Forall_forall.
  intros i Hi.
  apply in_map_iff in Hi as (k & <- & Hk). apply in_seq in Hk.
  apply decodeTriplet_take. lia.
Qed.

(** Bytes that are missing count as zero. *)
Lemma ToInt32_elem_padded (bytes : Uint8Array) (n i : nat) :
  ToInt32_elem ((bytes ++ replicate n Byte.x00) !! i)
  = ToInt32_elem (bytes !! i).
Proof.
  destruct (decide (i < length bytes)%nat) as [Hi|Hi].
  - rewrite lookup_app_l by lia. reflexivity.
  - rewrite lookup_app_r by lia.
    rewrite (lookup_ge_None_2 bytes i) by lia.
    destruct (replicate n Byte.x00 !! (i - length bytes)%nat) as [b|] eqn:E;
      [|reflexivity].
    apply lookup_replicate in E as [-> _]. reflexivity.
Qed.

Lemma decodeBytesToSamples_padded (bytes : Uint8Array) (n : nat) :
  decodeBytesToSamples (bytes ++ replicate n Byte.x00)
  = decodeBytesToSamples bytes.
Proof.
  rewrite !decodeBytesToSamples_turns.
  apply flat_map_ext_Forall, List.Forall_forall.
  intros i _. unfold decodeTriplet.
  rewrite !ToInt32_elem_padded. reflexivity.
Qed.

(** C1: a 54-byte frame decodes to exactly 36 samples, each in
    [-2048, 2047]; the samples at positions [2k] and [2k+1] come from the
    k-th byte triplet [(b0, b1, b2)] as
    [(((b2 << 4) & 0x0F00) | b0) - 2048] and
    [(((b2 << 8) & 0x0F00) | b1) - 2048], in byte order; the triplet
    [0x34, 0x12, 0x01] gives [-1996] then [-1774]. *)
Theorem decodeBytesToSamples_frame (bytes : Uint8Array) :
  length bytes = 54%nat ->
  length (decodeBytesToSamples bytes) = 36%nat
  /\ Forall (fun v => -2048 <= v <= 2047) (decodeBytesToSamples bytes)
  /\ (forall k : nat, (k < 18)%nat ->
        exists b0 b1 b2 : byte,
          bytes !! (3 * k)%nat = Some b0
          /\ bytes !! (3 * k + 1)%nat = Some b1
          /\ bytes !! (3 * k + 2)%nat = Some b2
          /\ decodeBytesToSamples bytes !! (2 * k)%nat
             = Some (Z.lor (Z.land (Z.shiftl (byteZ b2) 4) 0x0F00) (byteZ b0)
                     - 2048)
          /\ decodeBytesToSamples bytes !! (2 * k + 1)%nat
             = Some (Z.lor (Z.land (Z.shiftl (byteZ b2) 8) 0x0F00) (byteZ b1)
                     - 2048))
  /\ (forall k : nat, (k < 18)%nat ->
        bytes !! (3 * k)%nat = Some Byte.x34 ->
        bytes !! (3 * k + 1)%nat = Some Byte.x12 ->
        bytes !! (3 * k + 2)%nat = Some Byte.x01 ->
        decodeBytesToSamples bytes !! (2 * k)%nat = Some (-1996)
        /\ decodeBytesToSamples bytes !! (2 * k + 1)%nat = Some (-1774)).
Proof.
  intros Hlen.
  assert (Hformula : forall k : nat, (k < 18)%nat ->
    exists b0 b1 b2 : byte,
      bytes !! (3 * k)%nat = Some b0
      /\ bytes !! (3 * k + 1)%nat = Some b1
      /\ bytes !! (3 * k + 2)%nat = Some b2
      /\ decodeBytesToSamples bytes !! (2 * k)%nat
         = Some (Z.lor (Z.land (Z.shiftl (byteZ b2) 4) 0x0F00) (byteZ b0)
                 - 2048)
      /\ decodeBytesToSamples bytes !! (2 * k + 1)%nat
         = Some (Z.lor (Z.land (Z.shiftl (byteZ b2) 8) 0x0F00) (byteZ b1)
                 - 2048)).
  { intros k Hk.
    destruct (lookup_lt_is_Some_2 bytes (3 * k)%nat ltac:(lia)) as [b0 E0].
    destruct (lookup_lt_is_Some_2 bytes (3 * k + 1)%nat ltac:(lia)) as [b1 E1].
    destruct (lookup_lt_is_Some_2 bytes (3 * k + 2)%nat ltac:(lia)) as [b2 E2].
    exists b0, b1, b2. repeat split; try assumption.
    - rewrite (proj1 (decodeBytesToSamples_lookup bytes k Hk)).
      unfold decodeTriplet. rewrite E0, E2. simpl ToInt32_elem.
      rewrite (proj1 (sample_expr_plain 4 _ _ ltac:(lia)
                        (byteZ_range b0) (byteZ_range b2))).
      reflexivity.
    - rewrite (proj2 (decodeBytesToSamples_lookup bytes k Hk)).
      unfold decodeTriplet. rewrite E1, E2. simpl ToInt32_elem.
      rewrite (proj1 (sample_expr_plain 8 _ _ ltac:(lia)
                        (byteZ_range b1) (byteZ_range b2))).
      reflexivity. }
  split; [apply decodeBytesToSamples_length|].
  split; [apply decodeBytesToSamples_range|].
  split; [exact Hformula|].
  intros k Hk E0 E1 E2.
  destruct (Hformula k Hk) as (b0 & b1 & b2 & F0 & F1 & F2 & V1 & V2).
  rewrite E0 in F0. rewrite E1 in F1. rewrite E2 in F2.
  injection F0 as <-. injection F1 as <-. injection F2 as <-.
  rewrite V1, V2. split; reflexivity.
Qed.

(** A frame made of eighteen copies of the triplet of the fixture. *)
Lemma decodeBytesToSamples_frame_witness :
  length (concat (replicate 18 [Byte.x34; Byte.x12; Byte.x01])) = 54%nat
  /\ decodeBytesToSamples (concat (replicate 18 [Byte.x34; Byte.x12; Byte.x01]))
     !! 0%nat = Some (-1996).
Proof.
  split; [reflexivity|].
  destruct (decodeBytesToSamples_frame
              (concat (replicate 18 [Byte.x34; Byte.x12; Byte.x01]))
              eq_refl) as (_ & _ & _ & Hfixture).
  apply (Hfixture 0%nat); [lia | reflexivity..].
Defined.

(** C10: on an array longer than 54 bytes the decoder returns the 36
    samples it returns on the first 54 bytes; what follows them is
    ignored. *)
Theorem decodeBytesToSamples_ignores_trailing (bytes : Uint8Array) :
  (54 < length bytes)%nat ->
  decodeBytesToSamples bytes = decodeBytesToSamples (take 54 bytes)
  /\ length (decodeBytesToSamples bytes) = 36%nat.
Proof.
  intros _. split.
  - symmetry. apply decodeBytesToSamples_take.
  - apply decodeBytesToSamples_length.
Qed.

Lemma decodeBytesToSamples_ignores_trailing_witness :
  (54 < length (replicate 60 Byte.xff))%nat
  /\ decodeBytesToSamples (replicate 60 Byte.xff)
     = decodeBytesToSamples (take 54 (replicate 60 Byte.xff)).
Proof.
  split; [simpl; lia|].
  apply (decodeBytesToSamples_ignores_trailing (replicate 60 Byte.xff)).
  simpl; lia.
Defined.


(** ** The hex-text decoder *)

Lemma chunks2_step (s : JS.jsstring) :
  s <> [] -> chunks2 s = take 2 s :: chunks2 (drop 2 s).
Proof.
  destruct s as [|a [|b s']]; [congruence | reflexivity..].
Qed.

(** With enough fuel [hexLoop] parses every piece of two characters from
    index [i] on; [length hexString] units are enough from index 0. *)
Lemma hexLoop_pairs (fuel i : nat) (hexString : JS.jsstring)
    (bytes : list JS.number) :
  (length hexString <= i + 2 * fuel)%nat ->
  hexLoop fuel i hexString bytes
  = bytes ++ map JS.parseInt16 (chunks2 (drop i hexString)).
Proof.
  revert i bytes.
  induction fuel as [|fuel IH]; intros i bytes Hlen; simpl hexLoop.
  - rewrite drop_ge by lia. simpl. rewrite app_nil_r.
    destruct (i <? length hexString)%nat; reflexivity.
  - destruct (Nat.ltb_spec i (length hexString)) as [Hi|Hi].
    + rewrite IH by lia.
      rewrite (chunks2_step (drop i hexString)).
      * rewrite drop_drop. simpl map. rewrite <- app_assoc.
        reflexivity.
      * intros E. apply (f_equal length) in E.
        rewrite length_drop in E. simpl in E. lia.
    + rewrite drop_ge by lia. simpl. rewrite app_nil_r. reflexivity.
Qed.

Lemma decodeHexToSamples_chunks (hexString : JS.jsstring) :
  decodeHexToSamples hexString
  = decodeBytesToSamples
      (Uint8Array_from (map JS.parseInt16 (chunks2 hexString))).
Proof.
  unfold decodeHexToSamples.
  rewrite hexLoop_pairs by lia.
  reflexivity.
Qed.

Lemma decodeHexToSamples_length (hexString : JS.jsstring) :
  length (decodeHexToSamples hexString) = 36%nat.
Proof. apply decodeBytesToSamples_length. Qed.

(** Two hex characters, in either case, parse back to their byte. *)
Lemma parseInt16_hex_pair (upper : bool) (b : byte) :
  ToUint8 (JS.truncate (JS.parseInt16
    [hexChar upper (byteZ b / 16); hexChar upper (byteZ b mod 16)])) = b.
Proof.
  destruct upper, b; vm_compute; reflexivity.
Qed.

Lemma chunks2_bytesToHex (upper : bool) (bytes : Uint8Array) :
  chunks2 (bytesToHex upper bytes)
  = map (fun b => [hexChar upper (byteZ b / 16); hexChar upper (byteZ b mod 16)])
      bytes.
Proof.
  induction bytes as [|b bytes IH]; [reflexivity|].
  simpl. f_equal. exact IH.
Qed.

Lemma decodeHexToSamples_bytesToHex (upper : bool) (bytes : Uint8Array) :
  decodeHexToSamples (bytesToHex upper bytes) = decodeBytesToSamples bytes.
Proof.
  rewrite decodeHexToSamples_chunks, chunks2_bytesToHex.
  f_equal. unfold Uint8Array_from. rewrite !map_map.
  induction bytes as [|b bytes IH]; [reflexivity|].
  simpl. rewrite parseInt16_hex_pair. f_equal. exact IH.
Qed.

Lemma bytesToHex_length (upper : bool) (bytes : Uint8Array) :
  length (bytesToHex upper bytes) = (2 * length bytes)%nat.
Proof.
  induction bytes as [|b bytes IH]; [reflexivity|].
  simpl in *. lia.
Qed.

(** ** Round trip through the reference encoder *)

Lemma high_bits_zero (u n : Z) :
  0 <= u < 2 ^ 12 -> 12 <= n -> Z.testbit u n = false.
Proof.
  intros Hu Hn. destruct (Z.eq_dec u 0) as [->|]; [apply Z.testbit_0_l|].
  apply Z.bits_above_log2; [lia|].
  assert (Z.log2 u < 12) by (apply Z.log2_lt_pow2; lia). lia.
Qed.

Ltac finish_bits u1 u2 :=
  rewrite ?(high_bits_zero u1), ?(high_bits_zero u2) by lia;
  try reflexivity;
  repeat match goal with
         | |- context [Z.testbit ?a ?b] => destruct (Z.testbit a b)
         end;
  reflexivity.

(** The first sample is its low byte under its high nibble, the latter
    taken from the upper half of the shared byte. *)
Lemma packed_first (u1 u2 : Z) :
  0 <= u1 < 2 ^ 12 -> 0 <= u2 < 2 ^ 12 ->
  Z.lor
    (Z.land
       (Z.shiftl
          (Z.lor (Z.shiftl (Z.shiftr u1 8) 4) (Z.shiftr u2 8) mod 256) 4)
       0x0F00)
    (Z.land u1 255 mod 256) = u1.
Proof.
  intros H1 H2.
  change 256 with (2 ^ 8). rewrite <- !Z.land_ones by lia.
  change 0x0F00 with (Z.shiftl (Z.ones 4) 8). change 255 with (Z.ones 8).
  Z.bitblast; finish_bits u1 u2.
Qed.

(** The second sample takes its high nibble from the lower half. *)
Lemma packed_second (u1 u2 : Z) :
  0 <= u1 < 2 ^ 12 -> 0 <= u2 < 2 ^ 12 ->
  Z.lor
    (Z.land
       (Z.shiftl
          (Z.lor (Z.shiftl (Z.shiftr u1 8) 4) (Z.shiftr u2 8) mod 256) 8)
       0x0F00)
    (Z.land u2 255 mod 256) = u2.
Proof.
  intros H1 H2.
  change 256 with (2 ^ 8). rewrite <- !Z.land_ones by lia.
  change 0x0F00 with (Z.shiftl (Z.ones 4) 8). change 255 with (Z.ones 8).
  Z.bitblast; finish_bits u1 u2.
Qed.

Lemma decodeTriplet_encoded_head (s1 s2 : Z) (rest : list Z) :
  -2048 <= s1 <= 2047 -> -2048 <= s2 <= 2047 ->
  decodeTriplet (encodeSamplesToBytes (s1 :: s2 :: rest)) 0 = [s1; s2].
Proof.
  intros H1 H2.
  cbn [encodeSamplesToBytes]. unfold decodeTriplet.
  cbn [lookup list_lookup Nat.add ToInt32_elem].
  rewrite !byteZ_ToUint8.
  set (u1 := s1 + 2048). set (u2 := s2 + 2048).
  pose proof (Z.mod_pos_bound (Z.land u1 255) 256 eq_refl) as R0.
  pose proof (Z.mod_pos_bound (Z.land u2 255) 256 eq_refl) as R1.
  pose proof (Z.mod_pos_bound
                (Z.lor (Z.shiftl (Z.shiftr u1 8) 4) (Z.shiftr u2 8)) 256
                eq_refl) as R2.
  rewrite (proj1 (sample_expr_plain 4 _ _ ltac:(lia) R0 R2)).
  rewrite (proj1 (sample_expr_plain 8 _ _ ltac:(lia) R1 R2)).
  rewrite packed_first by (change (2 ^ 12) with 4096; lia).
  rewrite packed_second by (change (2 ^ 12) with 4096; lia).
  subst u1 u2. f_equal; [lia | f_equal; lia].
Qed.

Lemma decodeTriplet_skip (b0 b1 b2 : byte) (bytes : Uint8Array) (i : nat) :
  decodeTriplet (b0 :: b1 :: b2 :: bytes) (3 + i) = decodeTriplet bytes i.
Proof. reflexivity. Qed.

Lemma decodeTriplet_encoded (k : nat) (samples : list Z) :
  Forall (fun s => -2048 <= s <= 2047) samples ->
  (2 * k + 2 <= length samples)%nat ->
  decodeTriplet (encodeSamplesToBytes samples) (3 * k)
  = take 2 (drop (2 * k) samples).
Proof.
  revert samples.
  induction k as [|k IH]; intros samples Hr Hlen.
  - destruct samples as [|s1 [|s2 rest]]; simpl in Hlen; try lia.
    apply Forall_cons in Hr as [H1 Hr]. apply Forall_cons in Hr as [H2 _].
    apply decodeTriplet_encoded_head; assumption.
  - destruct samples as [|s1 [|s2 rest]]; simpl in Hlen; try lia.
    apply Forall_cons in Hr as [_ Hr]. apply Forall_cons in Hr as [_ Hr].
    replace (3 * S k)%nat with (3 + 3 * k)%nat by lia.
    replace (2 * S k)%nat with (S (S (2 * k))) by lia.
    cbn [encodeSamplesToBytes]. rewrite decodeTriplet_skip.
    rewrite IH by (assumption || lia).
    reflexivity.
Qed.

Lemma decodeBytesToSamples_turns_k (bytes : Uint8Array) :
  decodeBytesToSamples bytes
  = flat_map (fun k => decodeTriplet bytes (3 * k)) (List.seq 0 18).
Proof. reflexivity. Qed.

Lemma encodeSamplesToBytes_length (samples : list Z) (n : nat) :
  length samples = (2 * n)%nat ->
  length (encodeSamplesToBytes samples) = (3 * n)%nat.
Proof.
  revert samples.
  induction n as [|n IH]; intros samples Hlen.
  - destruct samples; [reflexivity | discriminate].
  - destruct samples as [|s1 [|s2 rest]]; simpl in Hlen; try lia.
    cbn [encodeSamplesToBytes length]. rewrite (IH rest) by lia. lia.
Qed.

Lemma decodeBytesToSamples_encoded (samples : list Z) :
  length samples = 36%nat ->
  Forall (fun s => -2048 <= s <= 2047) samples ->
  decodeBytesToSamples (encodeSamplesToBytes samples) = samples.
Proof.
  intros Hlen Hr.
  rewrite decodeBytesToSamples_turns_k.
  rewrite (flat_map_ext_Forall _ (fun k => take 2 (drop (2 * k) samples))).
  - do 36 (destruct samples as [|? samples]; [simpl in Hlen; lia|]).
    destruct samples; [reflexivity | simpl in Hlen; lia].
  - apply List.Forall_forall. intros k Hk. apply in_seq in Hk.
    apply decodeTriplet_encoded; [assumption | lia].
Qed.

(** C9: 36 samples in [-2048, 2047], packed by the reference encoder
    into a 54-byte frame or into its 108-character hex text (in either
    case of the letters), decode back to the same 36 samples. *)
Theorem decode_encode_roundtrip (samples : list Z) :
  length samples = 36%nat ->
  Forall (fun s => -2048 <= s <= 2047) samples ->
  length (encodeSamplesToBytes samples) = 54%nat
  /\ decodeBytesToSamples (encodeSamplesToBytes samples) = samples
  /\ forall upper : bool,
       length (bytesToHex upper (encodeSamplesToBytes samples)) = 108%nat
       /\ decodeHexToSamples (bytesToHex upper (encodeSamplesToBytes samples))
          = samples.
Proof.
  intros Hlen Hr.
  assert (H54 : length (encodeSamplesToBytes samples) = 54%nat)
    by (apply (encodeSamplesToBytes_length samples 18); lia).
  split; [exact H54|].
  split; [apply decodeBytesToSamples_encoded; assumption|].
  intros upper. split.
  - rewrite bytesToHex_length, H54. reflexivity.
  - rewrite decodeHexToSamples_bytesToHex.
    apply decodeBytesToSamples_encoded; assumption.
Qed.

(** The round trip on a ramp that spans the whole sample range. *)
Lemma decode_encode_roundtrip_witness :
  decodeHexToSamples
    (bytesToHex true
       (encodeSamplesToBytes
          (map (fun k => 117 * Z.of_nat k - 2048) (List.seq 0 36))))
  = map (fun k => 117 * Z.of_nat k - 2048) (List.seq 0 36).
Proof.
  apply (decode_encode_roundtrip
           (map (fun k => 117 * Z.of_nat k - 2048) (List.seq 0 36))).
  - reflexivity.
  - repeat constructor; simpl; lia.
Defined.

(** ** The live buffer *)

Lemma fold_push (samples : list Z) (seq : Z) (prev : list LivePoint.t) :
  fold_left
    (fun next s =>
       next ++ [ {| LivePoint.x := 0; LivePoint.raw := s;
                    LivePoint.filtered := s; LivePoint.seq := Some seq |} ])
    samples prev
  = prev ++ map (fun s => LivePoint.mk 0 s s (Some seq)) samples.
Proof.
  revert prev.
  induction samples as [|s samples IH]; intros prev; simpl.
  - rewrite app_nil_r. reflexivity.
  - rewrite IH, <- app_assoc. reflexivity.
Qed.

(** The update in closed form: the points pushed behind the old ones, all
    but the last [MAX_PLOT] dropped, [x] renumbered. *)
Lemma appendSamples_closed (samples : list Z) (seq : Z)
    (prev : list LivePoint.t) :
  appendSamples samples seq prev
  = imap (fun i p => LivePoint.mk (Z.of_nat i) (LivePoint.raw p)
                       (LivePoint.filtered p) (LivePoint.seq p))
      (drop (length prev + length samples - MAX_PLOT)
         (prev ++ map (fun s => LivePoint.mk 0 s s (Some seq)) samples)).
Proof.
  unfold appendSamples. rewrite fold_push.
  set (pushed := prev ++ map _ samples).
  assert (Hlen : length pushed = (length prev + length samples)%nat).
  { subst pushed. rewrite length_app, length_map. reflexivity. }
  rewrite Hlen.
  destruct (Nat.ltb_spec MAX_PLOT (length prev + length samples)) as [H|H].
  - reflexivity.
  - replace (length prev + length samples - MAX_PLOT)%nat with 0%nat by lia.
    reflexivity.
Qed.

Lemma appendSamples_length (samples : list Z) (seq : Z)
    (prev : list LivePoint.t) :
  length (appendSamples samples seq prev)
  = Nat.min MAX_PLOT (length prev + length samples).
Proof.
  rewrite appendSamples_closed, length_imap, length_drop, length_app,
    length_map.
  lia.
Qed.

Lemma appendSamples_lookup (samples : list Z) (seq : Z)
    (prev : list LivePoint.t) (i : nat) :
  appendSamples samples seq prev !! i
  = (fun p => LivePoint.mk (Z.of_nat i) (LivePoint.raw p)
                (LivePoint.filtered p) (LivePoint.seq p))
    <$> (prev ++ map (fun s => LivePoint.mk 0 s s (Some seq)) samples)
        !! (length prev + length samples - MAX_PLOT + i)%nat.
Proof.
  rewrite appendSamples_closed, list_lookup_imap, lookup_drop.
  reflexivity.
Qed.

(** ** Runs of characters *)

Section Runs.

Variable p : N -> bool.

Lemma takeWhile_dropWhile (s : JS.jsstring) :
  JS.takeWhile p s ++ JS.dropWhile p s = s.
Proof.
  induction s as [|c s IH]; simpl; [reflexivity|].
  destruct (p c); simpl; [rewrite IH|]; reflexivity.
Qed.

Lemma takeWhile_all (s : JS.jsstring) :
  forallb p (JS.takeWhile p s) = true.
Proof.
  induction s as [|c s IH]; simpl; [reflexivity|].
  destruct (p c) eqn:E; simpl; [rewrite E, IH|]; reflexivity.
Qed.

Lemma dropWhile_headFails (s : JS.jsstring) :
  headFails p (JS.dropWhile p s).
Proof.
  induction s as [|c s IH]; simpl; [exact I|].
  destruct (p c) eqn:E; [exact IH | exact E].
Qed.

Lemma takeWhile_headFails (s : JS.jsstring) :
  headFails p s -> JS.takeWhile p s = [].
Proof.
  destruct s as [|c s]; simpl; [reflexivity|].
  intros ->. reflexivity.
Qed.

Lemma dropWhile_headFails_id (s : JS.jsstring) :
  headFails p s -> JS.dropWhile p s = s.
Proof.
  destruct s as [|c s]; simpl; [reflexivity|].
  intros ->. reflexivity.
Qed.

Lemma takeWhile_app_all (a s : JS.jsstring) :
  forallb p a = true -> JS.takeWhile p (a ++ s) = a ++ JS.takeWhile p s.
Proof.
  induction a as [|c a IH]; simpl; [reflexivity|].
  intros H. apply andb_true_iff in H as [-> H].
  rewrite IH by assumption. reflexivity.
Qed.

Lemma dropWhile_app_all (a s : JS.jsstring) :
  forallb p a = true -> JS.dropWhile p (a ++ s) = JS.dropWhile p s.
Proof.
  induction a as [|c a IH]; simpl; [reflexivity|].
  intros H. apply andb_true_iff in H as [-> H].
  apply IH. assumption.
Qed.

Lemma dropWhile_all (a : JS.jsstring) :
  forallb p a = true -> JS.dropWhile p a = [].
Proof.
  intros H. rewrite <- (app_nil_r a), dropWhile_app_all by assumption.
  reflexivity.
Qed.

Lemma dropWhile_nil_all (a : JS.jsstring) :
  JS.dropWhile p a = [] -> forallb p a = true.
Proof.
  intros H. rewrite <- (takeWhile_dropWhile a), H, app_nil_r.
  apply takeWhile_all.
Qed.

Lemma forallb_rev (a : JS.jsstring) : forallb p (rev a) = forallb p a.
Proof.
  induction a as [|c a IH]; simpl; [reflexivity|].
  rewrite forallb_app, IH. simpl. rewrite andb_true_r. apply andb_comm.
Qed.

End Runs.

(** A string is its trimmed part between two runs of white space. *)
Lemma trim_decompose (s : JS.jsstring) :
  exists a b : JS.jsstring,
    s = a ++ JS.trim s ++ b
    /\ forallb JS.isWhiteSpace a = true /\ forallb JS.isWhiteSpace b = true.
Proof.
  exists (JS.takeWhile JS.isWhiteSpace s),
         (rev (JS.takeWhile JS.isWhiteSpace (rev (JS.trimStart s)))).
  split; [|split].
  - unfold JS.trim, JS.trimEnd.
    rewrite <- rev_app_distr, takeWhile_dropWhile, rev_involutive.
    unfold JS.trimStart. rewrite takeWhile_dropWhile. reflexivity.
  - apply takeWhile_all.
  - rewrite forallb_rev. apply takeWhile_all.
Qed.

(** Trimming strips exactly the white space around a core that neither
    starts nor ends with white space. *)
Lemma trim_core (a b core : JS.jsstring) (c d : N) :
  forallb JS.isWhiteSpace a = true -> forallb JS.isWhiteSpace b = true ->
  JS.isWhiteSpace c = false -> JS.isWhiteSpace d = false ->
  JS.trim (a ++ (c :: core ++ [d]) ++ b) = c :: core ++ [d].
Proof.
  intros Ha Hb Hc Hd.
  unfold JS.trim, JS.trimStart, JS.trimEnd.
  rewrite dropWhile_app_all by assumption.
  rewrite (dropWhile_headFails_id _ ((c :: core ++ [d]) ++ b)) by exact Hc.
  rewrite rev_app_distr.
  rewrite dropWhile_app_all by (rewrite forallb_rev; assumption).
  change (c :: core ++ [d]) with ((c :: core) ++ [d]).
  rewrite rev_unit.
  rewrite dropWhile_headFails_id by exact Hd.
  rewrite <- rev_unit, rev_involutive. reflexivity.
Qed.

(** ** The frame pattern *)

Lemma hex_not_space (c : N) :
  JS.isHexDigit c = true -> JS.isWhiteSpace c = false.
Proof.
  unfold JS.isHexDigit, JS.isWhiteSpace. intros H.
  apply not_true_iff_false. intros W.
  repeat rewrite ?orb_true_iff, ?andb_true_iff, ?N.leb_le, ?N.eqb_eq in H.
  repeat rewrite ?orb_true_iff, ?andb_true_iff, ?N.leb_le, ?N.eqb_eq in W.
  lia.
Qed.

Lemma space_not_hex (c : N) :
  JS.isWhiteSpace c = true -> JS.isHexDigit c = false.
Proof.
  intros W. destruct (JS.isHexDigit c) eqn:H; [|reflexivity].
  apply hex_not_space in H. congruence.
Qed.

(** What follows a run of white space and then a character that is not a
    hexadecimal digit does not start with a hexadecimal digit. *)
Lemma headFails_hex_after_space (ws rest : JS.jsstring) (c : N) :
  forallb JS.isWhiteSpace ws = true -> JS.isHexDigit c = false ->
  headFails JS.isHexDigit (ws ++ c :: rest).
Proof.
  intros Hw Hc. destruct ws as [|x ws]; simpl; [exact Hc|].
  simpl in Hw. apply andb_true_iff in Hw as [Hx _].
  apply space_not_hex. exact Hx.
Qed.

Lemma headFails_space_of_hex (s rest : JS.jsstring) :
  s <> [] -> forallb JS.isHexDigit s = true ->
  headFails JS.isWhiteSpace (s ++ rest).
Proof.
  intros Hne Hs. destruct s as [|x s]; [congruence|].
  simpl in *. apply andb_true_iff in Hs as [Hx _].
  apply hex_not_space. exact Hx.
Qed.

(** The matcher returns two groups exactly when the line has the shape of
    the pattern, and then the groups are the sequence and the payload. *)
Lemma matchFrameLine_pattern (line seq data : JS.jsstring) :
  matchFrameLine line = Some (seq, data) <-> FrameLinePattern line seq data.
Proof.
  split.
  - unfold matchFrameLine. intros H.
    set (s1 := JS.dropWhile JS.isWhiteSpace line) in *.
    set (s2 := JS.dropWhile JS.isHexDigit s1) in *.
    destruct (JS.isEmpty (JS.takeWhile JS.isHexDigit s1)) eqn:Eseq;
      [discriminate|].
    destruct (JS.dropWhile JS.isWhiteSpace s2) as [|colon s3] eqn:E3;
      [discriminate|].
    assert (colon = 58%N) as ->.
    { destruct colon as [|q]; [discriminate|].
      repeat (destruct q as [q|q|]; try discriminate). reflexivity. }
    set (s4 := JS.dropWhile JS.isWhiteSpace s3) in *.
    set (s5 := JS.dropWhile JS.isHexDigit s4) in *.
    destruct (Nat.eqb_spec (length (JS.takeWhile JS.isHexDigit s4)) 108)
      as [Hlen|]; [|discriminate].
    destruct (JS.isEmpty (JS.dropWhile JS.isWhiteSpace s5)) eqn:E5;
      [|discriminate].
    simpl in H. injection H as <- <-.
    exists (JS.takeWhile JS.isWhiteSpace line),
           (JS.takeWhile JS.isWhiteSpace s2),
           (JS.takeWhile JS.isWhiteSpace s3),
           s5.
    split; [|split; [|split; [|split; [|split]]]].
    + rewrite <- (takeWhile_dropWhile JS.isWhiteSpace line) at 1.
      fold s1. f_equal.
      rewrite <- (takeWhile_dropWhile JS.isHexDigit s1) at 1.
      fold s2. f_equal.
      rewrite <- (takeWhile_dropWhile JS.isWhiteSpace s2) at 1.
      rewrite E3. f_equal. simpl. f_equal.
      rewrite <- (takeWhile_dropWhile JS.isWhiteSpace s3) at 1.
      fold s4. f_equal.
      rewrite <- (takeWhile_dropWhile JS.isHexDigit s4) at 1.
      reflexivity.
    + rewrite !forallb_app, !takeWhile_all. simpl.
      apply dropWhile_nil_all.
      destruct (JS.dropWhile JS.isWhiteSpace s5); [reflexivity|discriminate].
    + intros E. rewrite E in Eseq. discriminate.
    + apply takeWhile_all.
    + exact Hlen.
    + apply takeWhile_all.
  - intros (w1 & w2 & w3 & w4 & -> & Hw & Hne & Hseq & Hlen & Hdata).
    rewrite !forallb_app, !andb_true_iff in Hw.
    destruct Hw as (Hw1 & Hw2 & Hw3 & Hw4).
    assert (Hdne : data <> []) by (intros ->; discriminate).
    unfold matchFrameLine.
    rewrite dropWhile_app_all by assumption.
    rewrite (dropWhile_headFails_id JS.isWhiteSpace)
      by (apply headFails_space_of_hex; assumption).
    rewrite takeWhile_app_all, dropWhile_app_all by assumption.
    rewrite (takeWhile_headFails JS.isHexDigit)
      by (apply headFails_hex_after_space; [assumption|reflexivity]).
    rewrite (dropWhile_headFails_id JS.isHexDigit)
      by (apply headFails_hex_after_space; [assumption|reflexivity]).
    rewrite app_nil_r.
    destruct seq as [|s0 seq']; [congruence|]. cbn [JS.isEmpty].
    rewrite dropWhile_app_all by assumption.
    cbn [app JS.dropWhile JS.isWhiteSpace]. simpl.
    rewrite dropWhile_app_all by assumption.
    rewrite (dropWhile_headFails_id JS.isWhiteSpace)
      by (apply headFails_space_of_hex; assumption).
    rewrite takeWhile_app_all, dropWhile_app_all by assumption.
    assert (Hw4h : headFails JS.isHexDigit w4).
    { destruct w4 as [|x w4]; simpl; [exact I|].
      simpl in Hw4. apply andb_true_iff in Hw4 as [Hx _].
      apply space_not_hex. exact Hx. }
    rewrite (takeWhile_headFails JS.isHexDigit w4) by assumption.
    rewrite (dropWhile_headFails_id JS.isHexDigit w4) by assumption.
    rewrite app_nil_r, Hlen.
    rewrite (dropWhile_all JS.isWhiteSpace w4) by assumption.
    reflexivity.
Qed.

(** Trimming a line first, as the read loop does, changes nothing: the
    pattern allows white space at both ends. *)
Lemma FrameLinePattern_trim (rawLine seq data : JS.jsstring) :
  FrameLinePattern (JS.trim rawLine) seq data
  <-> FrameLinePattern rawLine seq data.
Proof.
  split.
  - intros (w1 & w2 & w3 & w4 & E & Hw & Hrest).
    destruct (trim_decompose rawLine) as (a & b & Eraw & Ha & Hb).
    exists (a ++ w1), w2, w3, (w4 ++ b).
    split; [|split; [|exact Hrest]].
    + rewrite Eraw at 1. rewrite E. rewrite <- !app_assoc. reflexivity.
    + rewrite !forallb_app, !andb_true_iff in *.
      destruct Hw as (? & ? & ? & ?). repeat split; assumption.
  - intros (w1 & w2 & w3 & w4 & -> & Hw & Hne & Hseq & Hlen & Hdata).
    rewrite !forallb_app, !andb_true_iff in Hw.
    destruct Hw as (Hw1 & Hw2 & Hw3 & Hw4).
    destruct seq as [|c seq']; [congruence|].
    destruct (exists_last (l := data) ltac:(intros ->; discriminate))
      as (data' & d & Edata).
    assert (Hc : JS.isWhiteSpace c = false).
    { apply hex_not_space. simpl in Hseq.
      apply andb_true_iff in Hseq as [Hc _]. exact Hc. }
    assert (Hd : JS.isWhiteSpace d = false).
    { apply hex_not_space. rewrite Edata, forallb_app in Hdata.
      apply andb_true_iff in Hdata as [_ Hd]. simpl in Hd.
      apply andb_true_iff in Hd as [Hd _]. exact Hd. }
    replace (w1 ++ (c :: seq') ++ w2 ++ [58%N] ++ w3 ++ data ++ w4)
      with (w1 ++ (c :: (seq' ++ w2 ++ [58%N] ++ w3 ++ data') ++ [d]) ++ w4)
      by (rewrite Edata; repeat (cbn [app]; rewrite <- ?app_assoc);
          reflexivity).
    rewrite trim_core by assumption.
    exists [], w2, w3, [].
    split; [|split; [|repeat split; assumption]].
    + rewrite Edata, app_nil_r.
      repeat (cbn [app]; rewrite <- ?app_assoc). reflexivity.
    + rewrite !forallb_app, Hw2, Hw3. reflexivity.
Qed.

(** ** One line of the serial stream *)

Lemma processLine_matchFrameLine (r : Render.t) (rawLine : JS.jsstring)
    (s : Store.t) :
  processLine r rawLine s
  = match matchFrameLine (JS.trim rawLine) with
    | Some (seq, data) =>
        (Ok tt,
         Store.set_liveData
           (appendSamples (decodeHexToSamples data)
              (JS.band (JS.ToInt32 (JS.parseInt16 seq)) 0xFF)
              (Store.liveData s))
           (if Render.csvEnabled r
            then Store.set_csvDataRef
                   (Store.csvDataRef s ++ decodeHexToSamples data) s
            else s))
    | None => (Ok tt, s)
    end.
Proof.
  unfold processLine.
  destruct (JS.trim rawLine) as [|c line] eqn:E; [reflexivity|].
  cbn [JS.isEmpty].
  destruct (matchFrameLine (c :: line)) as [[seq data]|]; [|reflexivity].
  destruct (Render.csvEnabled r); reflexivity.
Qed.

(** C7: a complete line of the serial stream has its samples decoded and
    appended (to the live buffer and, when CSV is enabled, to the CSV
    buffer) exactly when it has the shape sequence number in hex, colon,
    108 hex characters, with optional white space around; any other line
    leaves the whole state, its log included, as it was. *)
Theorem processLine_frame_effect (r : Render.t) (rawLine : JS.jsstring)
    (s : Store.t) :
  (exists seq data : JS.jsstring,
      FrameLinePattern rawLine seq data
      /\ length (decodeHexToSamples data) = 36%nat
      /\ processLine r rawLine s
         = (Ok tt,
            Store.set_liveData
              (appendSamples (decodeHexToSamples data)
                 (JS.band (JS.ToInt32 (JS.parseInt16 seq)) 0xFF)
                 (Store.liveData s))
              (if Render.csvEnabled r
               then Store.set_csvDataRef
                      (Store.csvDataRef s ++ decodeHexToSamples data) s
               else s)))
  \/ ((~ exists seq data : JS.jsstring, FrameLinePattern rawLine seq data)
      /\ processLine r rawLine s = (Ok tt, s)).
Proof.
  rewrite processLine_matchFrameLine.
  destruct (matchFrameLine (JS.trim rawLine)) as [[seq data]|] eqn:E.
  - left. exists seq, data.
    apply (proj1 (matchFrameLine_pattern _ _ _)) in E.
    apply (proj1 (FrameLinePattern_trim _ _ _)) in E.
    split; [exact E|]. split; [apply decodeHexToSamples_length|reflexivity].
  - right. split; [|reflexivity].
    intros (seq & data & H).
    apply (proj2 (FrameLinePattern_trim _ _ _)) in H.
    apply (proj2 (matchFrameLine_pattern _ _ _)) in H. congruence.
Qed.

(** ** The two places that append to the live buffer *)

Lemma handleBLEData_cases (r : Render.t) (data : DataView.t) (s : Store.t) :
  handleBLEData r data s = (Ok tt, s)
  \/ ((56 <= DataView.byteLength data)%nat
      /\ handleBLEData r data s
         = (Ok tt,
            Store.set_liveData
              (appendSamples
                 (decodeBytesToSamples (take 54 (drop 2 (DataView.buffer data))))
                 (JS.band (ToInt32_elem (DataView.buffer data !! 1%nat)) 0x0F)
                 (Store.liveData s))
              (if Render.csvEnabled r
               then Store.set_csvDataRef
                      (Store.csvDataRef s
                         ++ decodeBytesToSamples
                              (take 54 (drop 2 (DataView.buffer data)))) s
               else s))).
Proof.
  unfold handleBLEData.
  destruct (Nat.leb_spec 56 (DataView.byteLength data)) as [H|H];
    [|left; reflexivity].
  destruct (DataView.buffer data !! 0%nat) as [b|]; [|left; reflexivity].
  destruct b; try (left; reflexivity).
  right. split; [exact H|].
  destruct (Render.csvEnabled r); reflexivity.
Qed.

(** C3: after a batch of decoded samples is appended, from the serial
    loop or from the Bluetooth listener, the live buffer holds at most
    2000 points, these are the most recent ones in arrival order (the
    oldest are dropped from the front), and the point at position [i]
    has [x = i]. *)
Theorem live_buffer_window :
  (forall (samples : list Z) (seq : Z) (prev : list LivePoint.t),
      let pushed :=
        prev ++ map (fun s => LivePoint.mk 0 s s (Some seq)) samples in
      let next := appendSamples samples seq prev in
      (length next <= 2000)%nat
      /\ length next = Nat.min 2000 (length pushed)
      /\ (forall (i : nat) (p : LivePoint.t),
            next !! i = Some p -> LivePoint.x p = Z.of_nat i)
      /\ map (fun p => (LivePoint.raw p, LivePoint.filtered p, LivePoint.seq p))
           next
         = drop (length pushed - 2000)
             (map (fun p =>
                     (LivePoint.raw p, LivePoint.filtered p, LivePoint.seq p))
                pushed))
  /\ (forall (r : Render.t) (rawLine : JS.jsstring) (s : Store.t),
        Store.liveData (snd (processLine r rawLine s)) = Store.liveData s
        \/ exists (samples : list Z) (seq : Z),
             Store.liveData (snd (processLine r rawLine s))
             = appendSamples samples seq (Store.liveData s))
  /\ (forall (r : Render.t) (data : DataView.t) (s : Store.t),
        Store.liveData (snd (handleBLEData r data s)) = Store.liveData s
        \/ exists (samples : list Z) (seq : Z),
             Store.liveData (snd (handleBLEData r data s))
             = appendSamples samples seq (Store.liveData s)).
Proof.
  split; [|split].
  - intros samples seq prev pushed next.
    assert (Hp : length pushed = (length prev + length samples)%nat).
    { subst pushed. rewrite length_app, length_map. reflexivity. }
    assert (Hn : length next = Nat.min 2000 (length pushed)).
    { subst next. rewrite appendSamples_length, Hp. reflexivity. }
    split; [lia|]. split; [exact Hn|]. split.
    + intros i p Hi. subst next.
      rewrite appendSamples_lookup in Hi.
      destruct (_ !! _) as [q|]; [|discriminate].
      injection Hi as <-. reflexivity.
    + apply list_eq. intros i.
      change (map ?f ?l) with (f <$> l).
      rewrite lookup_drop, !list_lookup_fmap.
      subst next. rewrite appendSamples_lookup.
      fold pushed. rewrite Hp. unfold MAX_PLOT.
      destruct (pushed !! _) as [q|]; reflexivity.
  - intros r rawLine s. rewrite processLine_matchFrameLine.
    destruct (matchFrameLine (JS.trim rawLine)) as [[seq data]|];
      [|left; reflexivity].
    right. eexists _, _. cbn [snd Store.set_liveData Store.liveData].
    destruct (Render.csvEnabled r); reflexivity.
  - intros r data s.
    destruct (handleBLEData_cases r data s) as [->|[_ ->]];
      [left; reflexivity|].
    right. eexists _, _. cbn [snd Store.set_liveData Store.liveData].
    destruct (Render.csvEnabled r); reflexivity.
Qed.

(** ** Decoders and wrong lengths *)

(** C2 as stated fails: a three-byte input, or its six hex characters,
    is not rejected; it is decoded, the missing bytes read as zero. *)
Lemma decoders_accept_wrong_length :
  length [Byte.x34; Byte.x12; Byte.x01] <> 54%nat
  /\ decodeBytesToSamples [Byte.x34; Byte.x12; Byte.x01]
     = -1996 :: -1774 :: replicate 34 (-2048)
  /\ length (JS.lit "341201") <> 108%nat
  /\ decodeHexToSamples (JS.lit "341201")
     = -1996 :: -1774 :: replicate 34 (-2048).
Proof.
  split; [simpl; lia|]. split; [vm_compute; reflexivity|].
  split; [simpl; lia|]. vm_compute; reflexivity.
Qed.

(** C2, amended: the decoders never reject and never throw.  On an input
    of any length they return exactly 36 samples, bytes missing from a
    short input read as 0 and bytes beyond the 54th ignored.  The length
    is checked by the callers: the serial loop decodes a payload only when
    it is exactly 108 hex characters, the Bluetooth listener only decodes
    packets of at least 56 bytes and hands over at most 54 of them. *)
Theorem decoders_never_reject :
  (forall bytes : Uint8Array,
      length (decodeBytesToSamples bytes) = 36%nat
      /\ decodeBytesToSamples bytes
         = decodeBytesToSamples (take 54 (bytes ++ replicate 54 Byte.x00)))
  /\ (forall hexString : JS.jsstring,
        length (decodeHexToSamples hexString) = 36%nat)
  /\ (forall (r : Render.t) (rawLine : JS.jsstring) (s : Store.t),
        processLine r rawLine s = (Ok tt, s)
        \/ exists (seq data : JS.jsstring) (seqno : Z),
             length data = 108%nat
             /\ forallb JS.isHexDigit data = true
             /\ Store.liveData (snd (processLine r rawLine s))
                = appendSamples (decodeHexToSamples data) seqno
                    (Store.liveData s))
  /\ (forall (r : Render.t) (data : DataView.t) (s : Store.t),
        handleBLEData r data s = (Ok tt, s)
        \/ exists (payload : Uint8Array) (seqno : Z),
             (56 <= DataView.byteLength data)%nat
             /\ (length payload <= 54)%nat
             /\ Store.liveData (snd (handleBLEData r data s))
                = appendSamples (decodeBytesToSamples payload) seqno
                    (Store.liveData s)).
Proof.
  split; [|split; [|split]].
  - intros bytes. split; [apply decodeBytesToSamples_length|].
    rewrite decodeBytesToSamples_take, decodeBytesToSamples_padded.
    reflexivity.
  - apply decodeHexToSamples_length.
  - intros r rawLine s. rewrite processLine_matchFrameLine.
    destruct (matchFrameLine (JS.trim rawLine)) as [[seq data]|] eqn:E;
      [|left; reflexivity].
    right. exists seq, data, (JS.band (JS.ToInt32 (JS.parseInt16 seq)) 0xFF).
    apply (proj1 (matchFrameLine_pattern _ _ _)) in E.
    destruct E as (_ & _ & _ & _ & _ & _ & _ & _ & Hlen & Hhex).
    split; [exact Hlen|]. split; [exact Hhex|].
    cbn [snd Store.set_liveData Store.liveData].
    destruct (Render.csvEnabled r); reflexivity.
  - intros r data s.
    destruct (handleBLEData_cases r data s) as [->|[H56 ->]];
      [left; reflexivity|].
    right. exists (take 54 (drop 2 (DataView.buffer data))),
                  (JS.band (ToInt32_elem (DataView.buffer data !! 1%nat)) 0x0F).
    split; [exact H56|]. split; [rewrite length_take; lia|].
    cbn [snd Store.set_liveData Store.liveData].
    destruct (Render.csvEnabled r); reflexivity.
Qed.

(** ** CSV accumulator *)

Ltac run_step :=
  cbn -[csvContent csvFilename JS.lit JS.ofInteger JS.toString16
        JS.toUpperCase JS.includes JS.eqb app length].

Ltac run_world :=
  repeat match goal with
         | |- context [World.outcome ?w ?c ?n] =>
             destruct (World.outcome w c n) eqn:?; run_step
         | |- context [(length (Store.csvDataRef ?s) =? 0)%nat] =>
             destruct (Store.csvDataRef s); cbn [length Nat.eqb]; run_step
         | |- context [if Store.bleHandlerRef ?s then _ else _] =>
             destruct (Store.bleHandlerRef s); run_step
         | |- context [if Store.serialReaderRef ?s then _ else _] =>
             destruct (Store.serialReaderRef s); run_step
         end.

(** C8: [saveCSVIfEnabled] makes no call on the file system when CSV is
    disabled, no folder was chosen or nothing was accumulated; and
    whatever happens, early exit, successful write or failed write, it
    returns normally with the CSV buffer empty. *)
Theorem saveCSVIfEnabled_flush (w : World.t) (r : Render.t) (s : Store.t) :
  fst (saveCSVIfEnabled w r s) = Ok tt
  /\ Store.csvDataRef (snd (saveCSVIfEnabled w r s)) = []
  /\ (((Render.csvEnabled r = false \/ Render.folderHandle r = false
        \/ Store.csvDataRef s = [])
       /\ snd (saveCSVIfEnabled w r s) = Store.set_csvDataRef [] s)
      \/ (Render.csvEnabled r = true /\ Render.folderHandle r = true
          /\ Store.csvDataRef s <> []
          /\ exists rest : list IOCall,
               Store.trace (snd (saveCSVIfEnabled w r s))
               = Store.trace s
                   ++ GetFileHandle
                        (csvFilename
                           (World.toISOString w (length (Store.trace s))))
                   :: rest)).
Proof.
  unfold saveCSVIfEnabled, bind, get, modify, tryCatch, call, now, addLog, ret.
  destruct (Render.csvEnabled r) eqn:Een; run_step;
    [|repeat split; left; split; [left|]; reflexivity].
  destruct (Render.folderHandle r) eqn:Efh; run_step;
    [|repeat split; left; split; [right; left|]; reflexivity].
  destruct (Store.csvDataRef s) as [|v data] eqn:Ecsv; run_step;
    [repeat split; left; split; [right; right|]; reflexivity|].
  change (length (v :: data) =? 0)%nat with false. run_step.
  split; [run_world; reflexivity|].
  split; [run_world; reflexivity|].
  right. repeat (split; [congruence|]).
  run_world; rewrite <- ?app_assoc; eexists; reflexivity.
Qed.

(** ** Gain validation *)

Lemma isInteger_divides (neg : bool) (m e : Z) :
  JS.isInteger (JS.Finite neg m e) = true
  <-> (2 ^ Z.max (- e) 0 | m).
Proof.
  simpl. destruct (Z.leb_spec 0 e) as [He|He].
  - rewrite Z.max_r by lia. split; [intros _; apply Z.divide_1_l | reflexivity].
  - rewrite Z.max_l by lia.
    assert (Hd : 0 < 2 ^ (- e)) by (apply Z.pow_pos_nonneg; lia).
    rewrite Z.eqb_eq. apply Z.mod_divide. lia.
Qed.

(** The four numeric tests of [handleSendGain] let a Number through
    exactly when it is one of the integers 0 to 15. *)
Lemma gain_guard_denotes (x : JS.number) :
  JS.isNaN x || negb (JS.isInteger x) || JS.ltZ x 0 || JS.gtZ x 15 = false
  <-> exists n : Z, 0 <= n <= 15 /\ denotesInteger x n.
Proof.
  destruct x as [|neg|neg m e].
  - simpl. split; [discriminate | intros (n & _ & [])].
  - simpl. split; [discriminate | intros (n & _ & [])].
  - rewrite !orb_false_iff, negb_false_iff, isInteger_divides.
    cbn [JS.isNaN JS.ltZ JS.gtZ denotesInteger].
    set (sg := if neg then - m else m).
    destruct (Z.leb_spec 0 e) as [He|He].
    + rewrite (Z.max_r (- e) 0), (Z.max_l e 0) by lia.
      change (2 ^ 0) with 1.
      rewrite Z.ltb_ge, Z.ltb_ge.
      split.
      * intros (((_ & _) & H0) & H15). exists (sg * 2 ^ e). lia.
      * intros (n & Hn & E). repeat split; try lia. apply Z.divide_1_l.
    + rewrite (Z.max_l (- e) 0), (Z.max_r e 0) by lia.
      change (2 ^ 0) with 1.
      assert (Hd : 0 < 2 ^ (- e)) by (apply Z.pow_pos_nonneg; lia).
      set (d := 2 ^ (- e)) in *.
      rewrite Z.ltb_ge, Z.ltb_ge.
      split.
      * intros (((_ & [q Hq]) & H0) & H15).
        exists (if neg then - q else q).
        subst sg. destruct neg; split; nia.
      * intros (n & Hn & E). repeat split; try nia.
        exists (if neg then - n else n). subst sg. destruct neg; lia.
Qed.

Lemma denotesInteger_truncate (x : JS.number) (n : Z) :
  denotesInteger x n -> JS.truncate x = n.
Proof.
  destruct x as [|neg|neg m e]; simpl; try contradiction.
  destruct (Z.leb_spec 0 e) as [He|He].
  - rewrite (Z.max_r (- e) 0), (Z.max_l e 0) by lia.
    change (2 ^ 0) with 1. destruct neg; lia.
  - rewrite (Z.max_l (- e) 0), (Z.max_r e 0) by lia.
    change (2 ^ 0) with 1.
    assert (Hd : 0 < 2 ^ (- e)) by (apply Z.pow_pos_nonneg; lia).
    set (d := 2 ^ (- e)) in *.
    intros E. destruct neg.
    + assert (m = (- n) * d) as -> by lia.
      rewrite Z.div_mul by lia. lia.
    + assert (m = n * d) as -> by lia.
      rewrite Z.div_mul by lia. reflexivity.
Qed.

(** The whole guard of [handleSendGain], as a test on the text. *)
Lemma gain_guard_parses (gainValue : JS.jsstring) :
  JS.isEmpty (JS.trim gainValue)
  || JS.isNaN (JS.Number gainValue)
  || negb (JS.isInteger (JS.Number gainValue))
  || JS.ltZ (JS.Number gainValue) 0
  || JS.gtZ (JS.Number gainValue) 15 = false
  <-> exists n : Z, ParsesToGain gainValue n.
Proof.
  unfold ParsesToGain.
  rewrite <- !orb_assoc, orb_false_iff, !orb_assoc, gain_guard_denotes.
  split.
  - intros (Hne & n & Hn & Hd). exists n.
    split; [|split; assumption].
    intros E. rewrite E in Hne. discriminate.
  - intros (n & Hne & Hn & Hd). split; [|exists n; split; assumption].
    destruct (JS.trim gainValue); [congruence | reflexivity].
Qed.

(** C4: [handleSendGain] hands the gain to the adapter of the current
    mode exactly when the text of the field parses to an integer of
    [0, 15]; any other text (empty, not a number, not an integer, out of
    range, such as -1, 16, 3.5, the empty string, abc) only adds the error
    entry to the log, no call being made on a transport and nothing else
    changed; 0 and 15 are accepted. *)
Theorem handleSendGain_validation (w : World.t) (r : Render.t) (s : Store.t) :
  ((exists n : Z,
       ParsesToGain (Render.gainValue r) n
       /\ handleSendGain w r s
          = tryCatch
              (bind
                 (addLog LogType.command
                    (JS.toUpperCase (modeName (Render.mode r))
                       ++ JS.lit " SET_GAIN " ++ JS.ofInteger n))
                 (fun _ =>
                    bind
                      match Render.mode r with
                      | serial => setSerialGain w n
                      | bluetooth => setBLEGain w n
                      end
                      (fun _ =>
                         addLog LogType.response
                           (CHECK_MARK ++ JS.lit " Gain set to "
                              ++ JS.ofInteger n))))
              (fun e =>
                 addLog LogType.error
                   (JS.lit "SET_GAIN failed: " ++ JsError.message e))
              s
       /\ match Render.mode r with
          | serial =>
              if Store.serialPortRef s then
                exists rest : list IOCall,
                  Store.trace (snd (handleSendGain w r s))
                  = Store.trace s ++ GetWriter :: rest
                  /\ (rest = []
                      \/ exists rest' : list IOCall,
                           rest
                           = WriterWrite
                               (JS.lit "G" ++ JS.toUpperCase (JS.toString16 n)
                                  ++ CR_LF) :: rest')
              else
                Store.trace (snd (handleSendGain w r s)) = Store.trace s
          | bluetooth =>
              match Store.bleDeviceRef s with
              | Some _ =>
                  Store.trace (snd (handleSendGain w r s))
                  = Store.trace s
                      ++ [WriteValue
                            [Byte.xfe; Byte.x00; Byte.x47;
                             ToUint8 (JS.band n 0xFF); Byte.x00]]
              | None =>
                  Store.trace (snd (handleSendGain w r s)) = Store.trace s
              end
          end)
   \/ ((~ exists n : Z, ParsesToGain (Render.gainValue r) n)
       /\ handleSendGain w r s
          = (Ok tt,
             Store.set_logs
               (Store.logs s
                  ++ [LogEntry.mk LogType.error
                        (JS.lit "Gain must be an integer between 0 and 15")])
               s)))
  /\ Forall (fun text => ~ exists n : Z, ParsesToGain (JS.lit text) n)
       ["-1"; "16"; "3.5"; ""; "abc"]%string
  /\ ParsesToGain (JS.lit "0") 0
  /\ ParsesToGain (JS.lit "15") 15.
Proof.
  split; [|split; [|split]].
  - unfold handleSendGain.
    destruct (JS.isEmpty (JS.trim (Render.gainValue r))
              || JS.isNaN (JS.Number (Render.gainValue r))
              || negb (JS.isInteger (JS.Number (Render.gainValue r)))
              || JS.ltZ (JS.Number (Render.gainValue r)) 0
              || JS.gtZ (JS.Number (Render.gainValue r)) 15) eqn:G.
    + right. split; [|reflexivity].
      intros H. apply gain_guard_parses in H. congruence.
    + left. destruct (proj1 (gain_guard_parses _) G) as [n Hn].
      exists n. split; [exact Hn|].
      rewrite (denotesInteger_truncate _ n) by apply Hn.
      split; [reflexivity|].
      unfold setSerialGain, setBLEGain.
      unfold tryCatch, bind, addLog, modify, get, call, ret.
      destruct (Render.mode r); run_step.
      * destruct (Store.serialPortRef s); run_step; [|reflexivity].
        run_world; rewrite <- ?app_assoc; eexists; (split; [reflexivity|]);
          first [left; reflexivity | right; eexists; reflexivity].
      * destruct (Store.bleDeviceRef s); run_step; [|reflexivity].
        run_world; reflexivity.
  - repeat constructor; intros H; apply gain_guard_parses in H;
      vm_compute in H; discriminate.
  - split; [vm_compute; discriminate|]. split; [lia|].
    vm_compute. reflexivity.
  - split; [vm_compute; discriminate|]. split; [lia|].
    vm_compute. reflexivity.
Qed.

(** ** Order of the calls when streaming stops *)

Ltac run_monad :=
  unfold when, sleep, addLog, emit;
  unfold tryCatch, bind, modify, get, call, now, ret.

Ltac close_trace :=
  eexists; split; [rewrite <- ?app_assoc; reflexivity|];
  repeat split; reflexivity.

(** C5 as stated fails for Bluetooth: with a device streaming and every
    call succeeding, the stop command is written first, and the listener
    is unregistered only after it. *)
Lemma stopBLEStreaming_writes_first :
  Store.trace
    (snd (stopBLEStreaming calmWorld (connectedRender bluetooth)
            bleStreamingStore))
  = [WriteValue BLE_STOP; RemoveValueListener; StopNotifications]
  /\ precededBy isRemoveValueListener isBleWrite
       (Store.trace
          (snd (stopBLEStreaming calmWorld (connectedRender bluetooth)
                  bleStreamingStore))) = false
  /\ precededBy isBleWrite isRemoveValueListener
       (Store.trace
          (snd (stopBLEStreaming calmWorld (connectedRender bluetooth)
                  bleStreamingStore))) = true.
Proof. repeat split; reflexivity. Qed.

(** With a port streaming and every call succeeding, the serial stop runs
    in full: cancel, drain delay, then the command. *)
Lemma stopSerialStreaming_calm :
  Store.trace
    (snd (stopSerialStreaming calmWorld (connectedRender serial)
            serialStreamingStore))
  = [ReaderCancel; SetTimeout 100; GetWriter; WriterWrite SERIAL_STOP;
     WriterReleaseLock].
Proof. reflexivity. Qed.

(** C5, amended: stopping serial streaming cancels the active reader, if
    there is one, then waits the 100 ms drain delay, and only then writes
    the stop command [B0\r\n]; stopping Bluetooth streaming writes the
    stop command [FE 00 42 00 00] first and only afterwards unregisters
    the notification listener and stops notifications.  [new] is what
    the call adds to the trace, whatever fails on the way. *)
Theorem stop_streaming_order (w : World.t) (r : Render.t) (s : Store.t) :
  (exists new : list IOCall,
      Store.trace (snd (stopSerialStreaming w r s)) = Store.trace s ++ new
      /\ writesOnly SERIAL_STOP BLE_STOP new = true
      /\ precededBy (isTimeout 100) isSerialWrite new = true
      /\ negb (Store.serialReaderRef s)
         || precededBy isReaderCancel (isTimeout 100) new = true
      /\ negb (Store.serialReaderRef s)
         || precededBy isReaderCancel isSerialWrite new = true)
  /\ (exists new : list IOCall,
        Store.trace (snd (stopBLEStreaming w r s)) = Store.trace s ++ new
        /\ writesOnly SERIAL_STOP BLE_STOP new = true
        /\ precededBy isBleWrite isRemoveValueListener new = true
        /\ precededBy isBleWrite isStopNotifications new = true).
Proof.
  split.
  - unfold stopSerialStreaming, saveCSVIfEnabled. run_monad.
    destruct (Store.serialPortRef s); run_step;
      [|exists []; rewrite app_nil_r; destruct (Store.serialReaderRef s);
        repeat split; reflexivity].
    destruct (Render.csvEnabled r), (Render.folderHandle r);
      run_step; run_world; close_trace.
  - unfold stopBLEStreaming, saveCSVIfEnabled. run_monad.
    destruct (Store.bleDeviceRef s); run_step;
      [|exists []; rewrite app_nil_r; repeat split; reflexivity].
    destruct (Render.csvEnabled r), (Render.folderHandle r);
      run_step; run_world; close_trace.
Qed.

(** ** Connecting starts no streaming *)

Section Quiet.

Variable w : World.t.

Lemma quiet_ret {A : Type} (a : A) : startsNoStreaming (ret a).
Proof.
  intros s. exists []. rewrite app_nil_r. repeat split; auto.
Qed.

Lemma quiet_throw {A : Type} (e : JsError.t) :
  startsNoStreaming (throw (A := A) e).
Proof.
  intros s. exists []. rewrite app_nil_r. repeat split; auto.
Qed.

Lemma quiet_get : startsNoStreaming get.
Proof.
  intros s. exists []. rewrite app_nil_r. repeat split; auto.
Qed.

Lemma quiet_read {A : Type} (f : Store.t -> A) :
  startsNoStreaming (fun s => (Ok (f s), s)).
Proof.
  intros s. exists []. rewrite app_nil_r. repeat split; auto.
Qed.

Lemma quiet_modify (f : Store.t -> Store.t) :
  (forall s : Store.t,
      Store.trace (f s) = Store.trace s
      /\ Store.isRunning (f s) = Store.isRunning s
      /\ Store.liveData (f s) = Store.liveData s
      /\ Store.csvDataRef (f s) = Store.csvDataRef s
      /\ (Store.streamingRef (f s) = true -> Store.streamingRef s = true)) ->
  startsNoStreaming (modify f).
Proof.
  intros Hf s. destruct (Hf s) as (Ht & Hr & Hl & Hc & Hs).
  exists []. rewrite app_nil_r. cbn [modify snd]. repeat split; assumption.
Qed.

Lemma quiet_addLog (type : LogType.t) (message : JS.jsstring) :
  startsNoStreaming (addLog type message).
Proof.
  apply quiet_modify. intros s. repeat split; auto.
Qed.

Lemma quiet_emit (c : IOCall) :
  isStreamingStart c = false -> startsNoStreaming (emit c).
Proof.
  intros Hc s. exists [c]. cbn. rewrite Hc. repeat split; auto.
Qed.

Lemma quiet_call (c : IOCall) :
  isStreamingStart c = false -> startsNoStreaming (call w c).
Proof.
  intros Hc s. exists [c]. unfold call.
  destruct (World.outcome w c (length (Store.trace s)));
    cbn; rewrite Hc; repeat split; auto.
Qed.

Lemma quiet_bind {A B : Type} (m : M A) (k : A -> M B) :
  startsNoStreaming m -> (forall a : A, startsNoStreaming (k a)) ->
  startsNoStreaming (bind m k).
Proof.
  intros Hm Hk s. unfold bind.
  destruct (Hm s) as (new1 & Ht1 & Hq1 & Hr1 & Hl1 & Hc1 & Hs1).
  destruct (m s) as [[a|e] s1]; cbn [snd] in *.
  - destruct (Hk a s1) as (new2 & Ht2 & Hq2 & Hr2 & Hl2 & Hc2 & Hs2).
    exists (new1 ++ new2).
    rewrite Ht2, Ht1, forallb_app, Hq1, Hq2, <- app_assoc.
    repeat split; try congruence. auto.
  - exists new1. repeat split; assumption.
Qed.

Lemma quiet_tryCatch {A : Type} (body : M A) (handler : JsError.t -> M A) :
  startsNoStreaming body ->
  (forall e : JsError.t, startsNoStreaming (handler e)) ->
  startsNoStreaming (tryCatch body handler).
Proof.
  intros Hm Hk s. unfold tryCatch.
  destruct (Hm s) as (new1 & Ht1 & Hq1 & Hr1 & Hl1 & Hc1 & Hs1).
  destruct (body s) as [[a|e] s1]; cbn [snd] in *.
  - exists new1. repeat split; assumption.
  - destruct (Hk e s1) as (new2 & Ht2 & Hq2 & Hr2 & Hl2 & Hc2 & Hs2).
    exists (new1 ++ new2).
    rewrite Ht2, Ht1, forallb_app, Hq1, Hq2, <- app_assoc.
    repeat split; try congruence. auto.
Qed.

Ltac quiet_step :=
  cbv beta;
  first
    [ apply quiet_ret | apply quiet_throw | apply quiet_get
    | apply quiet_addLog
    | apply quiet_emit; reflexivity
    | apply quiet_call; reflexivity
    | apply quiet_modify; intros ?;
      repeat split; first [reflexivity | discriminate]
    | apply quiet_read
    | apply quiet_tryCatch; [|intros ?]
    | apply quiet_bind; [|intros ?]
    | match goal with
      | |- startsNoStreaming (when _ _) => unfold when
      | |- startsNoStreaming (sleep _) => unfold sleep
      | |- startsNoStreaming (disconnectHeldServer _ _) =>
          unfold disconnectHeldServer
      | |- startsNoStreaming (if ?b then _ else _) => destruct b
      | |- startsNoStreaming (match ?x with _ => _ end) => destruct x
      end ].

Lemma quiet_gattConnectLoop (fuel : nat) (connectAttempts : Z) :
  startsNoStreaming (gattConnectLoop w fuel connectAttempts).
Proof.
  revert connectAttempts.
  induction fuel as [|fuel IH]; intros connectAttempts;
    cbn [gattConnectLoop].
  - repeat quiet_step.
  - destruct (connectAttempts <? 3); [|apply quiet_ret].
    apply quiet_bind; [repeat quiet_step|].
    intros [server attempts]. cbn [fst snd].
    destruct server; [apply quiet_ret | apply IH].
Qed.

Lemma quiet_connectSerial : startsNoStreaming (connectSerial w).
Proof.
  unfold connectSerial. repeat quiet_step.
Qed.

Lemma quiet_connectBLE : startsNoStreaming (connectBLE w).
Proof.
  unfold connectBLE.
  repeat first [apply quiet_gattConnectLoop | quiet_step].
Qed.

(** *** Connecting never throws *)

Lemma total_ret {A : Type} (a : A) : neverThrows (ret a).
Proof. intros s. exists a. reflexivity. Qed.

Lemma total_get : neverThrows get.
Proof. intros s. exists s. reflexivity. Qed.

Lemma total_modify (f : Store.t -> Store.t) : neverThrows (modify f).
Proof. intros s. exists tt. reflexivity. Qed.

Lemma total_bind {A B : Type} (m : M A) (k : A -> M B) :
  neverThrows m -> (forall a : A, neverThrows (k a)) ->
  neverThrows (bind m k).
Proof.
  intros Hm Hk s. unfold bind.
  destruct (Hm s) as [a Ha]. destruct (m s) as [[a'|e] s1];
    cbn [fst] in Ha; [|discriminate].
  apply Hk.
Qed.

Lemma total_tryCatch {A : Type} (body : M A) (handler : JsError.t -> M A) :
  (forall e : JsError.t, neverThrows (handler e)) ->
  neverThrows (tryCatch body handler).
Proof.
  intros Hk s. unfold tryCatch.
  destruct (body s) as [[a|e] s1]; [exists a; reflexivity | apply Hk].
Qed.

Ltac total_step :=
  cbv beta;
  first
    [ apply total_ret | apply total_get | apply total_modify
    | apply total_tryCatch; intros ?
    | apply total_bind; [|intros ?]
    | match goal with
      | |- neverThrows (when _ _) => unfold when
      | |- neverThrows (addLog _ _) => unfold addLog
      | |- neverThrows (if ?b then _ else _) => destruct b
      | |- neverThrows (match ?x with _ => _ end) => destruct x
      end ].

Lemma total_connectSerial : neverThrows (connectSerial w).
Proof.
  unfold connectSerial. apply total_tryCatch. intros err.
  repeat total_step.
Qed.

Lemma total_connectBLE : neverThrows (connectBLE w).
Proof.
  unfold connectBLE. apply total_tryCatch. intros err.
  repeat total_step.
Qed.

End Quiet.

Lemma quiet_handleConnect (w : World.t) (r : Render.t) :
  startsNoStreaming (handleConnect w r).
Proof.
  unfold handleConnect.
  destruct (Render.mode r); [apply quiet_connectSerial | apply quiet_connectBLE].
Qed.

Lemma total_handleConnect (w : World.t) (r : Render.t) :
  neverThrows (handleConnect w r).
Proof.
  unfold handleConnect.
  destruct (Render.mode r); [apply total_connectSerial | apply total_connectBLE].
Qed.

Lemma ConnStatus_eqb_eq (a b : ConnStatus.t) :
  ConnStatus.eqb a b = true <-> a = b.
Proof.
  destruct a, b; simpl; split; congruence.
Qed.

(** ** Start with a stale connection status *)

(** C6 is not what [handleStart] does.  When the render's [connStatus] is
    not [connected], [handleStart] resets the buffers, connects and waits
    500 ms, and then tests that same captured [connStatus] again: whether
    or not the connection was established, it logs "Device not connected"
    and makes no streaming-start call. *)
Theorem handleStart_stale_connStatus (w : World.t) (r : Render.t)
    (s : Store.t) :
  Render.connStatus r <> ConnStatus.connected ->
  exists (new : list IOCall) (entries : list LogEntry.t),
    fst (handleStart w r s) = Ok tt
    /\ Store.trace (snd (handleStart w r s))
       = Store.trace s ++ new ++ [SetTimeout 500]
    /\ forallb (fun c => negb (isStreamingStart c)) new = true
    /\ Store.logs (snd (handleStart w r s))
       = entries
           ++ [LogEntry.mk LogType.error
                 (JS.lit "Device not connected. Connection may have failed.")]
    /\ Store.isRunning (snd (handleStart w r s)) = Store.isRunning s
    /\ (Store.streamingRef (snd (handleStart w r s)) = true
        -> Store.streamingRef s = true)
    /\ Store.liveData (snd (handleStart w r s)) = []
    /\ Store.csvDataRef (snd (handleStart w r s)) = [].
Proof.
  intros Hstale.
  assert (E : ConnStatus.eqb (Render.connStatus r) ConnStatus.connected = false).
  { apply not_true_iff_false. rewrite ConnStatus_eqb_eq. exact Hstale. }
  unfold handleStart. rewrite E. cbn [negb when].
  run_monad. run_step.
  match goal with
  | |- context [handleConnect w r ?s1] =>
      destruct (quiet_handleConnect w r s1)
        as (new & Ht & Hq & Hr & Hl & Hc & Hs);
      destruct (total_handleConnect w r s1) as [a Ha];
      destruct (handleConnect w r s1) as [[[]|e] s2]
  end; cbn [fst] in Ha; [|discriminate].
  run_step. cbn [snd Store.trace Store.set_trace Store.isRunning
                 Store.liveData Store.csvDataRef Store.streamingRef
                 Store.set_csvDataRef Store.set_yZoom Store.set_yShift
                 Store.set_zoomRange Store.set_xStart Store.set_liveData
                 Store.set_logs] in Ht, Hr, Hl, Hc, Hs.
  exists new, (Store.logs s2).
  rewrite Ht, <- app_assoc.
  repeat split; assumption || reflexivity.
Qed.

(** The defect at work: nothing connected, serial mode, the user picks a
    port and it opens.  The connection is established, and yet the error
    is logged and no start command is written. *)
Lemma handleStart_stale_connStatus_witness :
  Render.connStatus (initialRender serial) <> ConnStatus.connected
  /\ Store.connStatus
       (snd (handleStart calmWorld (initialRender serial) initialStore))
     = ConnStatus.connected
  /\ Store.trace
       (snd (handleStart calmWorld (initialRender serial) initialStore))
     = [RequestPort; PortOpen 115200 8 1; SetTimeout 500]
  /\ exists (new : list IOCall) (entries : list LogEntry.t),
       Store.logs
         (snd (handleStart calmWorld (initialRender serial) initialStore))
       = entries
           ++ [LogEntry.mk LogType.error
                 (JS.lit "Device not connected. Connection may have failed.")]
       /\ forallb (fun c => negb (isStreamingStart c)) new = true.
Proof.
  split; [discriminate|]. split; [reflexivity|]. split; [reflexivity|].
  destruct (handleStart_stale_connStatus calmWorld (initialRender serial)
              initialStore ltac:(discriminate))
    as (new & entries & _ & _ & Hq & Hlog & _).
  exists new, entries. split; assumption.
Defined.

(** ** The read loop as a whole *)

Lemma processLine_ok (r : Render.t) (rawLine : JS.jsstring) (s : Store.t) :
  fst (processLine r rawLine s) = Ok tt.
Proof.
  rewrite processLine_matchFrameLine.
  destruct (matchFrameLine (JS.trim rawLine)) as [[seq data]|]; reflexivity.
Qed.

Lemma indexOf_lt (s : JS.jsstring) (c : N) (i : nat) :
  JS.indexOf s c = Some i -> (i < length s)%nat.
Proof.
  revert i. induction s as [|d s IH]; intros i; simpl; [discriminate|].
  destruct (d =? c)%N.
  - intros [= <-]. lia.
  - destruct (JS.indexOf s c) as [j|]; [|discriminate].
    intros [= <-]. specialize (IH j eq_refl). lia.
Qed.

(** Fuel equal to the length of the buffer lets the inner loop run until
    no newline is left: every complete line has been cut out and given to
    [processLine], and what is returned is the unfinished last line. *)
Lemma drainLines_exits (r : Render.t) (fuel : nat) (buffer : JS.jsstring)
    (s : Store.t) :
  (length buffer <= fuel)%nat ->
  exists (rest : JS.jsstring) (s' : Store.t),
    drainLines r fuel buffer s = (Ok rest, s')
    /\ JS.indexOf rest 10%N = None.
Proof.
  revert buffer s.
  induction fuel as [|fuel IH]; intros buffer s Hlen.
  - destruct buffer; [|simpl in Hlen; lia].
    exists [], s. split; reflexivity.
  - cbn [drainLines].
    destruct (JS.indexOf buffer 10%N) as [i|] eqn:E.
    + pose proof (indexOf_lt _ _ _ E) as Hi.
      unfold bind.
      pose proof (processLine_ok r (take i buffer) s) as Hok.
      destruct (processLine r (take i buffer) s) as [[[]|e] s1];
        cbn [fst] in Hok; [|discriminate].
      apply IH. rewrite length_drop. lia.
    + exists buffer, s. split; [reflexivity | exact E].
Qed.

(** A frame that arrives cut in two chunks, its line ended by CR LF, is
    decoded once the second chunk completes the line. *)
Lemma readSerialData_split_frame :
  let ramp := map (fun k => 117 * Z.of_nat k - 2048) (List.seq 0 36) in
  let line :=
    JS.lit "0A:" ++ bytesToHex true (encodeSamplesToBytes ramp) ++ CR_LF in
  let s' :=
    snd (readSerialData calmWorld (connectedRender serial)
           [ReadValue (take 40 line); ReadValue (drop 40 line)]
           serialStreamingStore) in
  map LivePoint.raw (Store.liveData s') = ramp
  /\ map LivePoint.seq (Store.liveData s') = replicate 36 (Some 10)
  /\ map LivePoint.x (Store.liveData s') = map Z.of_nat (List.seq 0 36).
Proof. vm_compute. repeat split; reflexivity. Qed.

(** More inputs of the gain field: a blank text is rejected although its
    Number is 0; hexadecimal, exponent and fraction notations of an
    integer of the range are accepted, as is a negative zero. *)
Lemma gain_notations :
  (~ exists n : Z, ParsesToGain (JS.lit "  ") n)
  /\ (~ exists n : Z, ParsesToGain (JS.lit "15.5") n)
  /\ (~ exists n : Z, ParsesToGain (JS.lit "1e2") n)
  /\ (~ exists n : Z, ParsesToGain (JS.lit "Infinity") n)
  /\ ParsesToGain (JS.lit " 7 ") 7
  /\ ParsesToGain (JS.lit "0x0F") 15
  /\ ParsesToGain (JS.lit "1e1") 10
  /\ ParsesToGain (JS.lit "15.0") 15
  /\ ParsesToGain (JS.lit "-0") 0.
Proof.
  repeat match goal with
         | |- _ /\ _ => split
         | |- ~ _ =>
             intros H; apply gain_guard_parses in H; vm_compute in H;
             discriminate
         | |- ParsesToGain _ _ =>
             split; [vm_compute; discriminate|]; split; [lia|];
             vm_compute; reflexivity
         end.
Qed.

(** * Further properties of the component *)

(** ** The live buffer over many batches *)

Lemma appendSamples_content (samples : list Z) (seq : Z)
    (prev : list LivePoint.t) :
  map (fun p => (LivePoint.raw p, LivePoint.filtered p, LivePoint.seq p))
    (appendSamples samples seq prev)
  = drop (length prev + length samples - MAX_PLOT)
      (map (fun p => (LivePoint.raw p, LivePoint.filtered p, LivePoint.seq p))
         (prev ++ map (fun s => LivePoint.mk 0 s s (Some seq)) samples)).
Proof.
  apply list_eq. intros i.
  change (map ?f ?l) with (f <$> l).
  rewrite lookup_drop, !list_lookup_fmap, appendSamples_lookup.
  destruct (_ !! _) as [q|]; reflexivity.
Qed.

(** Keeping the last [n] elements at every step keeps the last [n] of
    everything. *)
Lemma drop_last_app {A : Type} (n : nat) (l k : list A) :
  drop (length (drop (length l - n) l ++ k) - n) (drop (length l - n) l ++ k)
  = drop (length (l ++ k) - n) (l ++ k).
Proof.
  apply list_eq. intros i.
  rewrite !lookup_drop, !length_app, length_drop.
  set (a := (length l - n)%nat).
  destruct (Nat.lt_ge_cases (length l - a + length k - n + i) (length l - a))
    as [H|H].
  - rewrite lookup_app_l by (rewrite length_drop; lia).
    rewrite lookup_drop, lookup_app_l by lia.
    f_equal. lia.
  - rewrite lookup_app_r by (rewrite length_drop; lia).
    rewrite lookup_app_r by lia.
    rewrite length_drop. f_equal. lia.
Qed.

(** After any number of batches the buffer holds the last 2000 of all
    the points ever pushed, in arrival order, numbered from 0: trimming
    at every batch loses nothing that trimming once at the end would
    keep. *)
Theorem appendSamples_many (b : list Z * Z) (batches : list (list Z * Z))
    (prev : list LivePoint.t) :
  let final :=
    fold_left (fun buf b => appendSamples (fst b) (snd b) buf)
      (b :: batches) prev in
  let pushed :=
    prev
      ++ flat_map
           (fun b => map (fun s => LivePoint.mk 0 s s (Some (snd b))) (fst b))
           (b :: batches) in
  map (fun p => (LivePoint.raw p, LivePoint.filtered p, LivePoint.seq p)) final
  = drop (length pushed - 2000)
      (map (fun p => (LivePoint.raw p, LivePoint.filtered p, LivePoint.seq p))
         pushed)
  /\ (length final <= 2000)%nat
  /\ forall (i : nat) (p : LivePoint.t),
       final !! i = Some p -> LivePoint.x p = Z.of_nat i.
Proof.
  cbv zeta. split; [|split].
  - revert b prev.
    induction batches as [|b' batches IH]; intros b prev.
    + cbn [fold_left flat_map]. rewrite app_nil_r, appendSamples_content.
      rewrite length_app, length_map. reflexivity.
    + change (fold_left ?f (b :: b' :: batches) prev)
        with (fold_left f (b' :: batches) (appendSamples (fst b) (snd b) prev)).
      rewrite IH. clear IH.
      set (content := fun p : LivePoint.t =>
             (LivePoint.raw p, LivePoint.filtered p, LivePoint.seq p)).
      set (pts := fun b : list Z * Z =>
             map (fun s => LivePoint.mk 0 s s (Some (snd b))) (fst b)).
      set (tail := flat_map pts (b' :: batches)).
      set (A1 := appendSamples (fst b) (snd b) prev).
      change (flat_map pts (b :: b' :: batches)) with (pts b ++ tail).
      set (P := map content (prev ++ pts b)).
      assert (EX : map content (A1 ++ tail)
                   = drop (length P - 2000) P ++ map content tail).
      { rewrite map_app. f_equal. subst A1 content P.
        rewrite appendSamples_content. unfold MAX_PLOT.
        rewrite length_map, length_app. subst pts. cbv beta.
        rewrite length_map. reflexivity. }
      assert (EY : map content (prev ++ pts b ++ tail)
                   = P ++ map content tail).
      { subst P. rewrite app_assoc, map_app. reflexivity. }
      rewrite <- (length_map content (A1 ++ tail)),
        <- (length_map content (prev ++ pts b ++ tail)), EX, EY.
      apply drop_last_app.
  - revert b prev.
    induction batches as [|b' batches IH]; intros b prev.
    + cbn [fold_left]. rewrite appendSamples_length. unfold MAX_PLOT. lia.
    + apply (IH b' (appendSamples (fst b) (snd b) prev)).
  - revert b prev.
    induction batches as [|b' batches IH]; intros b prev i p.
    + cbn [fold_left]. rewrite appendSamples_lookup.
      destruct (_ !! _) as [q|]; [|discriminate].
      intros [= <-]. reflexivity.
    + apply (IH b' (appendSamples (fst b) (snd b) prev)).
Qed.

(** ** Nothing of a frame is lost in decoding *)

Lemma bits_above (n u i : Z) :
  0 <= n -> 0 <= u < 2 ^ n -> n <= i -> Z.testbit u i = false.
Proof.
  intros Hn Hu Hi. destruct (Z.eq_dec u 0) as [->|]; [apply Z.testbit_0_l|].
  apply Z.bits_above_log2; [lia|].
  assert (Z.log2 u < n) by (apply Z.log2_lt_pow2; lia). lia.
Qed.

Ltac finish_byte_bits a b c :=
  rewrite ?(bits_above 8 a), ?(bits_above 8 b), ?(bits_above 8 c) by lia;
  try reflexivity;
  repeat match goal with
         | |- context [Z.testbit ?u ?i] => destruct (Z.testbit u i)
         end;
  reflexivity.

Lemma unpack_low (k a c : Z) :
  0 <= a < 2 ^ 8 -> 0 <= c < 2 ^ 8 -> k = 4 \/ k = 8 ->
  Z.land (Z.lor (Z.land (Z.shiftl c k) 0x0F00) a) 255 = a.
Proof.
  intros Ha Hc Hk.
  change 0x0F00 with (Z.shiftl (Z.ones 4) 8). change 255 with (Z.ones 8).
  destruct Hk as [-> | ->]; Z.bitblast; finish_byte_bits a a c.
Qed.

Lemma shiftr8_lor_byte (x a : Z) :
  0 <= a < 2 ^ 8 -> Z.shiftr (Z.lor x a) 8 = Z.shiftr x 8.
Proof.
  intros Ha. apply Z.bits_inj'. intros i Hi.
  rewrite !Z.shiftr_spec, Z.lor_spec by lia.
  rewrite (bits_above 8 a) by lia. apply orb_false_r.
Qed.

Lemma unpack_shared (a b : Z) (c : byte) :
  0 <= a < 2 ^ 8 -> 0 <= b < 2 ^ 8 ->
  Z.lor
    (Z.shiftl
       (Z.shiftr (Z.lor (Z.land (Z.shiftl (byteZ c) 4) 0x0F00) a) 8) 4)
    (Z.shiftr (Z.lor (Z.land (Z.shiftl (byteZ c) 8) 0x0F00) b) 8)
  = byteZ c.
Proof.
  intros Ha Hb. rewrite !shiftr8_lor_byte by assumption.
  destruct c; reflexivity.
Qed.

Lemma encode_decoded_triplet (b0 b1 b2 : byte) (bytes : Uint8Array)
    (rest : list Z) :
  encodeSamplesToBytes (decodeTriplet (b0 :: b1 :: b2 :: bytes) 0 ++ rest)
  = b0 :: b1 :: b2 :: encodeSamplesToBytes rest.
Proof.
  unfold decodeTriplet. cbn [lookup list_lookup Nat.add ToInt32_elem app].
  pose proof (byteZ_range b0) as R0. pose proof (byteZ_range b1) as R1.
  pose proof (byteZ_range b2) as R2.
  rewrite (proj1 (sample_expr_plain 4 _ _ ltac:(lia) R0 R2)).
  rewrite (proj1 (sample_expr_plain 8 _ _ ltac:(lia) R1 R2)).
  cbn [encodeSamplesToBytes]. rewrite !Z.sub_add.
  change 256 with (2 ^ 8) in R0, R1, R2.
  rewrite (unpack_low 4) by (assumption || (left; reflexivity)).
  rewrite (unpack_low 8) by (assumption || (right; reflexivity)).
  rewrite unpack_shared by assumption.
  rewrite !ToUint8_byteZ. reflexivity.
Qed.

Lemma encode_decoded (n : nat) (bytes : Uint8Array) :
  length bytes = (3 * n)%nat ->
  encodeSamplesToBytes
    (flat_map (fun k => decodeTriplet bytes (3 * k)) (List.seq 0 n))
  = bytes.
Proof.
  revert bytes.
  induction n as [|n IH]; intros bytes Hlen.
  - destruct bytes; [reflexivity | discriminate].
  - destruct bytes as [|b0 [|b1 [|b2 bytes]]]; simpl in Hlen; try lia.
    cbn [List.seq flat_map]. rewrite <- seq_shift.
    change (3 * 0)%nat with 0%nat.
    rewrite encode_decoded_triplet. do 3 f_equal.
    etransitivity; [|apply (IH bytes); lia]. f_equal.
    rewrite flat_map_concat_map, map_map, <- flat_map_concat_map.
    apply flat_map_ext. intros k.
    replace (3 * S k)%nat with (3 + 3 * k)%nat by lia.
    apply decodeTriplet_skip.
Qed.

(** The decoder loses nothing: packing the 36 samples of a 54-byte frame
    again gives the frame back, so two different frames never decode to
    the same samples. *)
Theorem decodeBytesToSamples_injective (bytes : Uint8Array) :
  length bytes = 54%nat ->
  encodeSamplesToBytes (decodeBytesToSamples bytes) = bytes
  /\ forall bytes' : Uint8Array,
       length bytes' = 54%nat ->
       decodeBytesToSamples bytes' = decodeBytesToSamples bytes ->
       bytes' = bytes.
Proof.
  intros Hlen.
  assert (Hinv : forall b : Uint8Array, length b = 54%nat ->
                   encodeSamplesToBytes (decodeBytesToSamples b) = b).
  { intros b Hb. rewrite decodeBytesToSamples_turns_k.
    apply (encode_decoded 18). exact Hb. }
  split; [apply Hinv; exact Hlen|].
  intros bytes' Hlen' E.
  rewrite <- (Hinv bytes' Hlen'), E. apply Hinv. exact Hlen.
Qed.

Lemma decodeBytesToSamples_injective_witness :
  encodeSamplesToBytes
    (decodeBytesToSamples (concat (replicate 18 [Byte.x34; Byte.x12; Byte.xa1])))
  = concat (replicate 18 [Byte.x34; Byte.x12; Byte.xa1]).
Proof.
  exact (proj1 (decodeBytesToSamples_injective
                  (concat (replicate 18 [Byte.x34; Byte.x12; Byte.xa1]))
                  eq_refl)).
Defined.

(** ** Letter case of the hex payload *)

Lemma isHexDigit_cases (c : N) :
  JS.isHexDigit c = true ->
  In c [48; 49; 50; 51; 52; 53; 54; 55; 56; 57; 65; 66; 67; 68; 69; 70;
        97; 98; 99; 100; 101; 102]%N.
Proof.
  unfold JS.isHexDigit. intros H.
  repeat rewrite ?orb_true_iff, ?andb_true_iff, ?N.leb_le in H.
  simpl. lia.
Qed.

Lemma parseInt16_upper_one (a : N) :
  JS.isHexDigit a = true ->
  JS.parseInt16 (JS.toUpperCase [a]) = JS.parseInt16 [a].
Proof.
  intros Ha. apply isHexDigit_cases in Ha. simpl in Ha.
  repeat (destruct Ha as [<-|Ha]; [vm_compute; reflexivity|]).
  contradiction.
Qed.

Lemma parseInt16_upper_two (a b : N) :
  JS.isHexDigit a = true -> JS.isHexDigit b = true ->
  JS.parseInt16 (JS.toUpperCase [a; b]) = JS.parseInt16 [a; b].
Proof.
  intros Ha Hb.
  apply isHexDigit_cases in Ha. apply isHexDigit_cases in Hb.
  simpl in Ha. 
  repeat (destruct Ha as [<-|Ha];
          [simpl in Hb;
           repeat (destruct Hb as [<-|Hb]; [vm_compute; reflexivity|]);
           contradiction|]).
  contradiction.
Qed.

Lemma chunks2_upper (s : JS.jsstring) :
  forallb JS.isHexDigit s = true ->
  map JS.parseInt16 (chunks2 (JS.toUpperCase s))
  = map JS.parseInt16 (chunks2 s).
Proof.
  revert s. fix IH 1. intros [|a [|b s]] H.
  - reflexivity.
  - simpl in H. apply andb_true_iff in H as [Ha _].
    change (JS.parseInt16 (JS.toUpperCase [a]) :: [] = JS.parseInt16 [a] :: []).
    rewrite parseInt16_upper_one by assumption. reflexivity.
  - simpl in H. apply andb_true_iff in H as [Ha H].
    apply andb_true_iff in H as [Hb H].
    change (JS.parseInt16 (JS.toUpperCase [a; b])
              :: map JS.parseInt16 (chunks2 (JS.toUpperCase s))
            = JS.parseInt16 [a; b] :: map JS.parseInt16 (chunks2 s)).
    rewrite parseInt16_upper_two by assumption.
    f_equal. apply IH. exact H.
Qed.

(** A payload of hex digits decodes to the same samples whether its
    letters are in lower or in upper case. *)
Theorem decodeHexToSamples_upper (hexString : JS.jsstring) :
  forallb JS.isHexDigit hexString = true ->
  decodeHexToSamples (JS.toUpperCase hexString)
  = decodeHexToSamples hexString.
Proof.
  intros H. rewrite !decodeHexToSamples_chunks.
  unfold Uint8Array_from. rewrite chunks2_upper by assumption.
  reflexivity.
Qed.

Lemma decodeHexToSamples_upper_witness :
  decodeHexToSamples (JS.toUpperCase (JS.lit "3a12f1"))
  = decodeHexToSamples (JS.lit "3a12f1").
Proof.
  apply (decodeHexToSamples_upper (JS.lit "3a12f1")). reflexivity.
Defined.

(** ** Lines and chunks of the serial stream *)

Lemma splitLines_no_newline (current s : JS.jsstring) :
  ~ In 10%N s -> splitLines current s = ([], current ++ s).
Proof.
  revert current. induction s as [|c s IH]; intros current Hs; simpl.
  - rewrite app_nil_r. reflexivity.
  - destruct (N.eqb_spec c 10) as [->|Hc]; [exfalso; apply Hs; left; reflexivity|].
    rewrite IH by (intros H; apply Hs; right; exact H).
    rewrite <- app_assoc. reflexivity.
Qed.

Lemma splitLines_line (current line s : JS.jsstring) :
  ~ In 10%N line ->
  splitLines current (line ++ 10%N :: s)
  = (let '(lines, rest) := splitLines [] s in
     ((current ++ line) :: lines, rest)).
Proof.
  revert current. induction line as [|c line IH]; intros current Hl; simpl.
  - rewrite app_nil_r. reflexivity.
  - destruct (N.eqb_spec c 10) as [->|Hc]; [exfalso; apply Hl; left; reflexivity|].
    rewrite IH by (intros H; apply Hl; right; exact H).
    rewrite <- app_assoc. reflexivity.
Qed.

Lemma indexOf_None_no_newline (s : JS.jsstring) (c : N) :
  JS.indexOf s c = None -> ~ In c s.
Proof.
  induction s as [|d s IH]; simpl; [tauto|].
  destruct (N.eqb_spec d c) as [->|Hd]; [discriminate|].
  destruct (JS.indexOf s c); [discriminate|].
  intros _ [E|H]; [congruence | exact (IH eq_refl H)].
Qed.

Lemma indexOf_Some_split (s : JS.jsstring) (c : N) (i : nat) :
  JS.indexOf s c = Some i ->
  s = take i s ++ c :: drop (S i) s /\ ~ In c (take i s).
Proof.
  revert i. induction s as [|d s IH]; intros i; simpl; [discriminate|].
  destruct (N.eqb_spec d c) as [->|Hd].
  - intros [= <-]. simpl. rewrite drop_0. split; [reflexivity | tauto].
  - destruct (JS.indexOf s c) as [j|]; [|discriminate].
    intros [= <-]. destruct (IH j eq_refl) as [E Hn].
    simpl. split; [f_equal; exact E|].
    intros [H|H]; [congruence | exact (Hn H)].
Qed.

Lemma processLines_app (r : Render.t) (l1 l2 : list JS.jsstring)
    (s : Store.t) :
  processLines r (l1 ++ l2) s = processLines r l2 (processLines r l1 s).
Proof. apply fold_left_app. Qed.

(** With fuel for the whole buffer, the inner loop gives every complete
    line to [processLine], in order, and returns the unfinished rest. *)
Lemma drainLines_splitLines (r : Render.t) (fuel : nat)
    (buffer : JS.jsstring) (s : Store.t) :
  (length buffer <= fuel)%nat ->
  drainLines r fuel buffer s
  = (Ok (snd (splitLines [] buffer)),
     processLines r (fst (splitLines [] buffer)) s).
Proof.
  revert buffer s.
  induction fuel as [|fuel IH]; intros buffer s Hlen.
  - destruct buffer; [reflexivity | simpl in Hlen; lia].
  - cbn [drainLines].
    destruct (JS.indexOf buffer 10%N) as [i|] eqn:E.
    + pose proof (indexOf_lt _ _ _ E) as Hi.
      destruct (indexOf_Some_split _ _ _ E) as [Esplit Hn].
      unfold bind.
      pose proof (processLine_ok r (take i buffer) s) as Hok.
      destruct (processLine r (take i buffer) s) as [[[]|e] s1] eqn:Ep;
        cbn [fst] in Hok; [|discriminate].
      replace (i + 1)%nat with (S i) by lia.
      rewrite IH by (rewrite length_drop; lia).
      rewrite Esplit at 3 4.
      rewrite (splitLines_line [] (take i buffer)) by exact Hn.
      destruct (splitLines [] (drop (S i) buffer)) as [lines rest].
      cbn [fst snd app]. unfold processLines. cbn [fold_left].
      rewrite Ep. reflexivity.
    + rewrite (splitLines_no_newline [] buffer)
        by (apply indexOf_None_no_newline; exact E).
      reflexivity.
Qed.

Lemma splitLines_app (current a b : JS.jsstring) :
  splitLines current (a ++ b)
  = (let '(l1, r1) := splitLines current a in
     let '(l2, r2) := splitLines r1 b in
     (l1 ++ l2, r2)).
Proof.
  revert current. induction a as [|c a IH]; intros current; simpl.
  - destruct (splitLines current b); reflexivity.
  - destruct (c =? 10)%N.
    + rewrite IH. destruct (splitLines [] a) as [l1 r1].
      destruct (splitLines r1 b) as [l2 r2]. reflexivity.
    + apply IH.
Qed.

Lemma splitLines_rest (current s : JS.jsstring) :
  ~ In 10%N current -> ~ In 10%N (snd (splitLines current s)).
Proof.
  revert current. induction s as [|c s IH]; intros current Hc; simpl.
  - exact Hc.
  - destruct (N.eqb_spec c 10) as [->|Hne].
    + specialize (IH [] ltac:(simpl; tauto)).
      destruct (splitLines [] s). exact IH.
    + apply IH. rewrite in_app_iff. simpl. intros [H|[H|[]]]; [tauto | congruence].
Qed.

(** The complete lines of the stream go through [processLine] in arrival
    order: when the buffer followed by the new chunk is the lines, each
    ended by a newline, followed by an unfinished rest, the chunk leaves
    the state [processLine] gives line by line, and the rest in the
    buffer. *)
Theorem processChunk_lines (r : Render.t) (text buffer : JS.jsstring)
    (lines : list JS.jsstring) (rest : JS.jsstring) (s : Store.t) :
  buffer ++ text = concat (map (fun l => l ++ [10%N]) lines) ++ rest ->
  Forall (fun l => ~ In 10%N l) lines ->
  ~ In 10%N rest ->
  processChunk r text buffer s = (Ok rest, processLines r lines s).
Proof.
  intros E Hlines Hrest. unfold processChunk.
  rewrite drainLines_splitLines by lia. rewrite E.
  assert (H : splitLines [] (concat (map (fun l => l ++ [10%N]) lines) ++ rest)
              = (lines, rest)).
  { clear E. induction Hlines as [|l lines Hl _ IH]; simpl.
    - apply splitLines_no_newline. exact Hrest.
    - rewrite <- !app_assoc. simpl.
      rewrite splitLines_line by exact Hl. rewrite IH. reflexivity. }
  rewrite H. reflexivity.
Qed.

Lemma processChunk_lines_witness :
  processChunk (connectedRender serial) (JS.lit "b" ++ [10%N] ++ JS.lit "c")
    (JS.lit "a") initialStore
  = (Ok (JS.lit "c"),
     processLines (connectedRender serial) [JS.lit "ab"] initialStore).
Proof.
  apply (processChunk_lines (connectedRender serial)
           (JS.lit "b" ++ [10%N] ++ JS.lit "c") (JS.lit "a")
           [JS.lit "ab"] (JS.lit "c") initialStore).
  - reflexivity.
  - repeat constructor. simpl. lia.
  - simpl. lia.
Defined.

(** Where the stream is cut into chunks does not matter: two chunks one
    after the other leave the state and the buffer that their
    concatenation, received as one chunk, leaves. *)
Theorem processChunk_boundary (r : Render.t) (t1 t2 buffer : JS.jsstring)
    (s : Store.t) :
  bind (processChunk r t1 buffer) (fun rest => processChunk r t2 rest) s
  = processChunk r (t1 ++ t2) buffer s.
Proof.
  unfold bind, processChunk.
  rewrite !drainLines_splitLines by lia. cbv beta iota zeta.
  rewrite (app_assoc buffer t1 t2), (splitLines_app [] (buffer ++ t1) t2).
  pose proof (splitLines_rest [] (buffer ++ t1) ltac:(simpl; tauto)) as Hr.
  destruct (splitLines [] (buffer ++ t1)) as [l1 r1]. cbn [fst snd] in *.
  rewrite (splitLines_app [] r1 t2), (splitLines_no_newline [] r1) by exact Hr.
  cbn [app].
  destruct (splitLines r1 t2) as [l2 r2]. cbn [fst snd app].
  rewrite processLines_app. reflexivity.
Qed.

(** ** Sequence tags *)

Lemma wrap32_mod (x : Z) : JS.wrap32 x mod 256 = x mod 256.
Proof.
  unfold JS.wrap32.
  change (2 ^ 32) with 4294967296. change (2 ^ 31) with 2147483648.
  rewrite (Z.mod_eq (x + 2147483648) 4294967296) by lia.
  set (q := (x + 2147483648) / 4294967296).
  replace (x + 2147483648 - 4294967296 * q - 2147483648)
    with (x + (- (16777216 * q)) * 256) by lia.
  apply Z_mod_plus_full.
Qed.

(** [x & mask] for a mask of low bits is [x] modulo a power of two. *)
Lemma band_low_bits (x : Z) (n : Z) :
  0 <= n <= 8 -> JS.band x (Z.ones n) = x mod 2 ^ n.
Proof.
  intros Hn. unfold JS.band.
  assert (Hp : 0 < 2 ^ n <= 256).
  { split; [apply Z.pow_pos_nonneg; lia|].
    change 256 with (2 ^ 8). apply Z.pow_le_mono_r; lia. }
  assert (Ho : Z.ones n = 2 ^ n - 1) by (rewrite Z.ones_equiv; lia).
  rewrite (wrap32_small (Z.ones n)) by lia.
  rewrite Z.land_ones by lia.
  pose proof (Z.mod_pos_bound (JS.wrap32 x) (2 ^ n) ltac:(lia)).
  rewrite wrap32_small by lia.
  assert (Hd : (2 ^ n | 256)).
  { exists (2 ^ (8 - n)). rewrite <- Z.pow_add_r by lia.
    replace (8 - n + n) with 8 by lia. reflexivity. }
  destruct Hd as [q Hq].
  assert (Hq0 : 0 < q) by nia.
  rewrite <- (Z.mod_mod_divide (JS.wrap32 x) 256 (2 ^ n)) by (exists q; lia).
  rewrite wrap32_mod.
  apply Z.mod_mod_divide. exists q. lia.
Qed.

(** Every batch is appended under a sequence tag of its transport's
    range: [0, 255] from the serial loop, [0, 15], the low nibble of the
    second byte of the packet, from the Bluetooth listener. *)
Theorem sequence_tags_range (r : Render.t) (s : Store.t) :
  (forall rawLine : JS.jsstring,
      processLine r rawLine s = (Ok tt, s)
      \/ exists (samples : list Z) (seqno : Z),
           0 <= seqno <= 255
           /\ Store.liveData (snd (processLine r rawLine s))
              = appendSamples samples seqno (Store.liveData s))
  /\ (forall data : DataView.t,
        handleBLEData r data s = (Ok tt, s)
        \/ exists (samples : list Z) (seqno : Z),
             0 <= seqno <= 15
             /\ seqno
                = ToInt32_elem (DataView.buffer data !! 1%nat) mod 16
             /\ Store.liveData (snd (handleBLEData r data s))
                = appendSamples samples seqno (Store.liveData s)).
Proof.
  split.
  - intros rawLine. rewrite processLine_matchFrameLine.
    destruct (matchFrameLine (JS.trim rawLine)) as [[seq data]|];
      [|left; reflexivity].
    right. eexists _, _. split; [|cbn [snd]; destruct (Render.csvEnabled r);
                                   reflexivity].
    rewrite (band_low_bits _ 8 ltac:(lia) : JS.band _ 0xFF = _).
    pose proof (Z.mod_pos_bound (JS.ToInt32 (JS.parseInt16 seq)) (2 ^ 8)
                  ltac:(lia)).
    change (2 ^ 8) with 256 in *. lia.
  - intros data.
    destruct (handleBLEData_cases r data s) as [->|[_ ->]];
      [left; reflexivity|].
    right. eexists _, _.
    rewrite (band_low_bits _ 4 ltac:(lia) : JS.band _ 0x0F = _).
    change (2 ^ 4) with 16.
    split; [|split; [reflexivity|cbn [snd]; destruct (Render.csvEnabled r);
                                   reflexivity]].
    pose proof (Z.mod_pos_bound
                  (ToInt32_elem (DataView.buffer data !! 1%nat)) 16
                  ltac:(lia)).
    lia.
Qed.

(** *** The tag of a serial frame is the low byte of its sequence field *)

Lemma floorLog2_integer (n : Z) : 0 < n -> JS.floorLog2 n 1 = Z.log2 n.
Proof.
  intros Hn. unfold JS.floorLog2.
  change (Z.log2 1) with 0. rewrite Z.sub_0_r.
  pose proof (Z.log2_nonneg n) as H0.
  destruct (Z.leb_spec 0 (Z.log2 n)) as [_|]; [|lia].
  pose proof (Z.log2_spec n Hn) as [Hlo _].
  destruct (Z.leb_spec (1 * 2 ^ Z.log2 n) n) as [_|]; [reflexivity | lia].
Qed.

(** An integer below [2^53] is a Number exactly. *)
Lemma roundToDouble_integer (neg : bool) (n : Z) :
  0 <= n < 2 ^ 53 ->
  JS.truncate (JS.roundToDouble neg n 1) = if neg then - n else n.
Proof.
  intros Hn. unfold JS.roundToDouble.
  destruct (Z.eqb_spec n 0) as [->|Hn0].
  { simpl. destruct neg; reflexivity. }
  rewrite floorLog2_integer by lia.
  pose proof (Z.log2_spec n ltac:(lia)) as [Hlo Hhi].
  pose proof (Z.log2_nonneg n) as H0.
  assert (He : Z.log2 n < 53) by (apply Z.log2_lt_pow2; lia).
  set (e := Z.log2 n) in *.
  rewrite Z.max_l by lia.
  assert (Hsucc : 2 ^ Z.succ e = 2 * 2 ^ e) by (apply Z.pow_succ_r; lia).
  destruct (Z.leb_spec 0 (e - 52)) as [Hsh|Hsh].
  - assert (e = 52) as E52 by lia. rewrite E52 in *.
    change (52 - 52) with 0. change (2 ^ 0) with 1. change (1 * 1) with 1.
    rewrite Z.div_1_r, Z.mod_1_r. change (2 * 0 <? 1) with true. cbv iota.
    destruct (Z.eqb_spec n (2 ^ 53)) as [|_]; [lia|].
    change (1024 <=? 0 + 52) with false. cbv iota.
    destruct (Z.eqb_spec n 0) as [|_]; [lia|].
    cbn [JS.truncate]. change (0 <=? 0) with true. cbv iota.
    change (2 ^ 0) with 1. rewrite Z.mul_1_r. reflexivity.
  - rewrite Z.div_1_r, Z.mod_1_r. change (2 * 0 <? 1) with true. cbv iota.
    assert (Hp : 0 < 2 ^ (- (e - 52))) by (apply Z.pow_pos_nonneg; lia).
    assert (Hm : n * 2 ^ (- (e - 52)) < 2 ^ 53).
    { replace (2 ^ 53) with (2 ^ Z.succ e * 2 ^ (- (e - 52))).
      - apply Z.mul_lt_mono_pos_r; lia.
      - rewrite <- Z.pow_add_r by lia. f_equal. lia. }
    destruct (Z.eqb_spec (n * 2 ^ (- (e - 52))) (2 ^ 53)) as [|_]; [lia|].
    destruct (Z.leb_spec 1024 (e - 52 + 52)) as [|_]; [lia|].
    destruct (Z.eqb_spec (n * 2 ^ (- (e - 52))) 0) as [|_]; [nia|].
    cbn [JS.truncate].
    destruct (Z.leb_spec 0 (e - 52)) as [|_]; [lia|].
    rewrite Z.div_mul by lia. reflexivity.
Qed.

Lemma digitValue_range (c : N) : 0 <= JS.digitValue c <= 15.
Proof.
  unfold JS.digitValue.
  repeat match goal with
         | |- context [(?a <=? ?b)%N] => destruct (N.leb_spec a b)
         end; cbn [andb]; lia.
Qed.

Lemma digitsValue_below (ds : JS.jsstring) :
  0 <= JS.digitsValue 16 ds < 16 ^ Z.of_nat (length ds).
Proof.
  unfold JS.digitsValue.
  assert (H : forall acc : Z, 0 <= acc ->
            0 <= fold_left (fun acc c => 16 * acc + JS.digitValue c) ds acc
              < (acc + 1) * 16 ^ Z.of_nat (length ds)).
  { induction ds as [|c ds IH]; intros acc Hacc.
    - simpl. lia.
    - cbn [fold_left length]. rewrite Nat2Z.inj_succ, Z.pow_succ_r by lia.
      pose proof (digitValue_range c) as Hc.
      specialize (IH (16 * acc + JS.digitValue c) ltac:(lia)).
      assert (0 < 16 ^ Z.of_nat (length ds)) by (apply Z.pow_pos_nonneg; lia).
      nia. }
  specialize (H 0 ltac:(lia)). lia.
Qed.

(** On a run of hex digits [parseInt] meets no white space, sign or
    prefix: the result is the value of the digits, rounded. *)
Lemma parseInt16_hex (seq : JS.jsstring) :
  seq <> [] -> forallb JS.isHexDigit seq = true ->
  JS.parseInt16 seq = JS.roundToDouble false (JS.digitsValue 16 seq) 1.
Proof.
  intros Hne Hhex. unfold JS.parseInt16, JS.trimStart.
  rewrite (dropWhile_headFails_id JS.isWhiteSpace seq)
    by (rewrite <- (app_nil_r seq); apply headFails_space_of_hex; assumption).
  destruct seq as [|c0 rest]; [congruence|].
  pose proof Hhex as Hall.
  simpl in Hhex. apply andb_true_iff in Hhex as [H0 Hrest].
  assert (Hsign : JS.splitSign (c0 :: rest) = (false, c0 :: rest)).
  { apply isHexDigit_cases in H0. simpl in H0.
    repeat (destruct H0 as [<-|H0]; [reflexivity|]). contradiction. }
  rewrite Hsign.
  assert (Hstrip :
    match c0 :: rest with
    | 48%N :: c :: r0 => if ((c =? 120) || (c =? 88))%N then r0 else c0 :: rest
    | _ => c0 :: rest
    end = c0 :: rest).
  { destruct rest as [|c1 rest'].
    - apply isHexDigit_cases in H0. simpl in H0.
      repeat (destruct H0 as [<-|H0]; [reflexivity|]). contradiction.
    - simpl in Hrest. apply andb_true_iff in Hrest as [H1 _].
      assert (Hx : ((c1 =? 120) || (c1 =? 88))%N = false).
      { apply isHexDigit_cases in H1. simpl in H1.
        repeat (destruct H1 as [<-|H1]; [reflexivity|]). contradiction. }
      apply isHexDigit_cases in H0. simpl in H0.
      repeat (destruct H0 as [<-|H0]; [try rewrite Hx; reflexivity|]).
      contradiction. }
  rewrite Hstrip.
  assert (Htw : JS.takeWhile JS.isHexDigit (c0 :: rest) = c0 :: rest).
  { rewrite <- (app_nil_r (c0 :: rest)).
    rewrite takeWhile_app_all by exact Hall. reflexivity. }
  rewrite Htw. reflexivity.
Qed.

(** For a sequence field of at most 13 hex digits, every point of the
    frame is tagged with the value of the field modulo 256. *)
Theorem processLine_sequence_tag (r : Render.t)
    (rawLine seq data : JS.jsstring) (s : Store.t) :
  FrameLinePattern rawLine seq data ->
  (length seq <= 13)%nat ->
  Store.liveData (snd (processLine r rawLine s))
  = appendSamples (decodeHexToSamples data) (JS.digitsValue 16 seq mod 256)
      (Store.liveData s).
Proof.
  intros Hpat Hlen.
  pose proof Hpat as (_ & _ & _ & _ & _ & _ & Hne & Hhex & _ & _).
  apply (proj2 (FrameLinePattern_trim _ _ _)) in Hpat.
  apply (proj2 (matchFrameLine_pattern _ _ _)) in Hpat.
  rewrite processLine_matchFrameLine, Hpat. cbn [snd].
  rewrite (band_low_bits _ 8 ltac:(lia) : JS.band _ 0xFF = _).
  change (2 ^ 8) with 256.
  unfold JS.ToInt32. rewrite wrap32_mod, parseInt16_hex by assumption.
  pose proof (digitsValue_below seq) as Hv.
  assert (H53 : 16 ^ Z.of_nat (length seq) <= 2 ^ 53).
  { change 16 with (2 ^ 4). rewrite <- Z.pow_mul_r by lia.
    apply Z.pow_le_mono_r; lia. }
  rewrite roundToDouble_integer by lia.
  destruct (Render.csvEnabled r); reflexivity.
Qed.

Lemma processLine_sequence_tag_witness :
  let line := JS.lit "1FE: " ++ bytesToHex false (replicate 54 Byte.x7f) in
  map LivePoint.seq
    (Store.liveData (snd (processLine (connectedRender serial) line initialStore)))
  = replicate 36 (Some 254).
Proof.
  cbv zeta.
  rewrite (processLine_sequence_tag (connectedRender serial)
             (JS.lit "1FE: " ++ bytesToHex false (replicate 54 Byte.x7f))
             (JS.lit "1FE") (bytesToHex false (replicate 54 Byte.x7f))
             initialStore).
  - vm_compute. reflexivity.
  - exists [], [], [32%N], []. repeat split; try reflexivity. discriminate.
  - simpl. lia.
Defined.

(** ** What the handlers keep: a small logic of steps *)

Section Steps.

Variable R : Store.t -> Store.t -> Prop.
Hypothesis R_refl : forall s : Store.t, R s s.
Hypothesis R_trans :
  forall s1 s2 s3 : Store.t, R s1 s2 -> R s2 s3 -> R s1 s3.
Variable w : World.t.

Lemma steps_ret {A : Type} (a : A) : steps R (ret a).
Proof. intros s. apply R_refl. Qed.

Lemma steps_throw {A : Type} (e : JsError.t) : steps R (throw (A := A) e).
Proof. intros s. apply R_refl. Qed.

Lemma steps_read {A : Type} (f : Store.t -> A) :
  steps R (fun s => (Ok (f s), s)).
Proof. intros s. apply R_refl. Qed.

Lemma steps_modify (f : Store.t -> Store.t) :
  (forall s : Store.t, R s (f s)) -> steps R (modify f).
Proof. intros H s. apply H. Qed.

Lemma steps_call (c : IOCall) :
  (forall s : Store.t, R s (Store.set_trace (Store.trace s ++ [c]) s)) ->
  steps R (call w c).
Proof.
  intros H s. unfold call.
  destruct (World.outcome w c (length (Store.trace s))); apply H.
Qed.

Lemma steps_bind {A B : Type} (m : M A) (k : A -> M B) :
  steps R m -> (forall a : A, steps R (k a)) -> steps R (bind m k).
Proof.
  intros Hm Hk s. unfold bind. specialize (Hm s).
  destruct (m s) as [[a|e] s1]; cbn [snd] in *; [|exact Hm].
  eapply R_trans; [exact Hm | apply Hk].
Qed.

Lemma steps_tryCatch {A : Type} (body : M A) (handler : JsError.t -> M A) :
  steps R body -> (forall e : JsError.t, steps R (handler e)) ->
  steps R (tryCatch body handler).
Proof.
  intros Hm Hk s. unfold tryCatch. specialize (Hm s).
  destruct (body s) as [[a|e] s1]; cbn [snd] in *; [exact Hm|].
  eapply R_trans; [exact Hm | apply Hk].
Qed.

Lemma steps_gattConnectLoop (fuel : nat) (connectAttempts : Z) :
  (forall (c : IOCall) (s : Store.t),
      c = GattConnect \/ c = SetTimeout 1000 ->
      R s (Store.set_trace (Store.trace s ++ [c]) s)) ->
  (forall (e : LogEntry.t) (s : Store.t),
      R s (Store.set_logs (Store.logs s ++ [e]) s)) ->
  steps R (gattConnectLoop w fuel connectAttempts).
Proof.
  intros Hcall Hlog. revert connectAttempts.
  induction fuel as [|fuel IH]; intros connectAttempts;
    cbn [gattConnectLoop].
  - destruct (connectAttempts <? 3); apply steps_ret.
  - destruct (connectAttempts <? 3); [|apply steps_ret].
    apply steps_bind.
    + apply steps_tryCatch.
      * apply steps_bind;
          [apply steps_call; intros s; apply Hcall; left; reflexivity|].
        intros _. apply steps_bind;
          [apply steps_modify; intros s; apply Hlog | intros _; apply steps_ret].
      * intros _. destruct (connectAttempts + 1 <? 3); [|apply steps_throw].
        apply steps_bind;
          [apply steps_modify; intros s; apply Hlog|].
        intros _. apply steps_bind; [|intros _; apply steps_ret].
        apply steps_modify. intros s. apply Hcall. right. reflexivity.
    + intros [server attempts]. cbn [fst snd].
      destruct server; [apply steps_ret | apply IH].
Qed.

End Steps.

(** One step of the symbolic walk through a handler: the structure of
    the computation is taken apart, [side] proves the relation for a
    single modification of the store or a single call. *)
Ltac steps_walk Rrefl Rtrans side :=
  cbv beta zeta;
  lazymatch goal with
  | H : Render.mode ?r = _ |- context [Render.mode ?r] => rewrite H
  | |- steps _ (ret _) => apply (steps_ret _ Rrefl)
  | |- steps _ (throw _) => apply (steps_throw _ Rrefl)
  | |- steps _ (fun s => (Ok (@?f s), s)) => apply (steps_read _ Rrefl)
  | |- steps _ (modify _) => apply steps_modify; intros ?; side
  | |- steps _ (call _ _) => apply steps_call; intros ?; side
  | |- steps _ (gattConnectLoop _ _ _) =>
      apply (steps_gattConnectLoop _ Rrefl Rtrans);
      [intros ? ? [-> | ->]; side | intros ? ?; side]
  | |- steps _ (tryCatch _ _) => apply (steps_tryCatch _ Rtrans); [|intros ?]
  | |- steps _ (bind _ _) => apply (steps_bind _ Rtrans); [|intros ?]
  | |- steps _ (if ?b then _ else _) => destruct b
  | |- steps _ (match ?x with _ => _ end) => destruct x
  | |- steps _ get => unfold get
  | |- steps _ (when _ _) => unfold when
  | |- steps _ (sleep _) => unfold sleep
  | |- steps _ (emit _) => unfold emit
  | |- steps _ (addLog _ _) => unfold addLog
  | |- steps _ (now _) => unfold now
  | |- steps _ (serverConnected _) => unfold serverConnected
  | |- steps _ (serverIsConnected _ _) => unfold serverIsConnected
  | |- steps _ (disconnectHeldServer _ _) => unfold disconnectHeldServer
  | |- steps _ (saveCSVIfEnabled _ _) => unfold saveCSVIfEnabled
  | |- steps _ (connectSerial _) => unfold connectSerial
  | |- steps _ (connectBLE _) => unfold connectBLE
  | |- steps _ (readSerialData _ _ []) =>
      unfold readSerialData; cbn [readLoop]
  | |- steps _ (startSerialStreaming _ _) => unfold startSerialStreaming
  | |- steps _ (startBLEStreaming _) => unfold startBLEStreaming
  | |- steps _ (stopSerialStreaming _ _) => unfold stopSerialStreaming
  | |- steps _ (stopBLEStreaming _ _) => unfold stopBLEStreaming
  | |- steps _ (setSerialGain _ _) => unfold setSerialGain
  | |- steps _ (setBLEGain _ _) => unfold setBLEGain
  | |- steps _ (handleConnect _ _) => unfold handleConnect
  | |- steps _ (handleStart _ _) => unfold handleStart
  | |- steps _ (handleStop _ _) => unfold handleStop
  | |- steps _ (handleSendGain _ _) => unfold handleSendGain
  | |- steps _ (handleSwitchMode _ _ _) => unfold handleSwitchMode
  end.

(** *** Calls of one kind only *)

Lemma addsCalls_refl (P : IOCall -> bool) (s : Store.t) : addsCalls P s s.
Proof. exists []. rewrite app_nil_r. split; reflexivity. Qed.

Lemma addsCalls_trans (P : IOCall -> bool) (s1 s2 s3 : Store.t) :
  addsCalls P s1 s2 -> addsCalls P s2 s3 -> addsCalls P s1 s3.
Proof.
  intros (n1 & E1 & H1) (n2 & E2 & H2). exists (n1 ++ n2).
  rewrite E2, E1, <- app_assoc, forallb_app, H1, H2. split; reflexivity.
Qed.

Ltac addsCalls_side :=
  first
    [ exists []; split; [cbn; rewrite app_nil_r; reflexivity | reflexivity]
    | eexists [_]; split; reflexivity ].

Ltac addsCalls_walk P :=
  repeat steps_walk (addsCalls_refl P) (addsCalls_trans P) addsCalls_side.

(** In each mode the five controls call the transport of that mode only:
    no Bluetooth call is made in serial mode, no call on the serial port
    in Bluetooth mode. *)
Theorem transport_isolation (w : World.t) (r : Render.t)
    (next : ConnectionMode) :
  let other :=
    match Render.mode r with
    | serial => fun c => negb (isBluetoothCall c)
    | bluetooth => fun c => negb (isSerialPortCall c)
    end in
  steps (addsCalls other) (handleConnect w r)
  /\ steps (addsCalls other) (handleStart w r)
  /\ steps (addsCalls other) (handleStop w r)
  /\ steps (addsCalls other) (handleSendGain w r)
  /\ steps (addsCalls other) (handleSwitchMode w r next).
Proof.
  cbv zeta. destruct (Render.mode r) eqn:Emode.
  - repeat split; addsCalls_walk (fun c => negb (isBluetoothCall c)).
  - repeat split; addsCalls_walk (fun c => negb (isSerialPortCall c)).
Qed.

(** *** The log only grows *)

Lemma growsLog_refl (s : Store.t) : growsLog s s.
Proof. exists []. rewrite app_nil_r. reflexivity. Qed.

Lemma growsLog_trans (s1 s2 s3 : Store.t) :
  growsLog s1 s2 -> growsLog s2 s3 -> growsLog s1 s3.
Proof.
  intros [e1 E1] [e2 E2]. exists (e1 ++ e2).
  rewrite E2, E1, <- app_assoc. reflexivity.
Qed.

Ltac growsLog_side :=
  first
    [ exists []; cbn; rewrite app_nil_r; reflexivity
    | eexists [_]; reflexivity ].

Ltac growsLog_walk :=
  repeat steps_walk growsLog_refl growsLog_trans growsLog_side.

(** The log is append-only: whatever the five controls do, and whatever
    fails while they do it, the entries that were in the log stay, in
    order, at its start. *)
Theorem controls_log_append_only (w : World.t) (r : Render.t)
    (next : ConnectionMode) :
  steps growsLog (handleConnect w r)
  /\ steps growsLog (handleStart w r)
  /\ steps growsLog (handleStop w r)
  /\ steps growsLog (handleSendGain w r)
  /\ steps growsLog (handleSwitchMode w r next).
Proof. repeat split; growsLog_walk. Qed.

(** *** Sending a gain changes no state *)

Lemma onlyLogAndTrace_refl (s : Store.t) : onlyLogAndTrace s s.
Proof. destruct s. reflexivity. Qed.

Lemma onlyLogAndTrace_trans (s1 s2 s3 : Store.t) :
  onlyLogAndTrace s1 s2 -> onlyLogAndTrace s2 s3 -> onlyLogAndTrace s1 s3.
Proof.
  unfold onlyLogAndTrace. intros E1 E2. rewrite E2 at 1. rewrite E1 at 1.
  destruct s1. reflexivity.
Qed.

Ltac onlyLogAndTrace_side :=
  idtac;
  match goal with
  | s : Store.t |- _ => destruct s; reflexivity
  end.

(** The gain control changes nothing but the log and the trace of calls:
    whether the text is refused, the command is written or the write
    fails, the connection status, the run state, the buffers, the view
    and every held reference are as they were. *)
Theorem handleSendGain_keeps_state (w : World.t) (r : Render.t) :
  steps onlyLogAndTrace (handleSendGain w r).
Proof.
  repeat steps_walk onlyLogAndTrace_refl onlyLogAndTrace_trans
    onlyLogAndTrace_side.
Qed.

(** ** Start resets the buffers and the view *)

Lemma bind_modify {A : Type} (f : Store.t -> Store.t) (k : unit -> M A)
    (s : Store.t) :
  bind (modify f) k s = k tt (f s).
Proof. reflexivity. Qed.

Lemma keepsView_refl (s : Store.t) : keepsView s s.
Proof. repeat split. Qed.

Lemma keepsView_trans (s1 s2 s3 : Store.t) :
  keepsView s1 s2 -> keepsView s2 s3 -> keepsView s1 s3.
Proof.
  unfold keepsView. intros H1 H2.
  repeat split; etransitivity; try apply H2; apply H1.
Qed.

Ltac keepsView_side := repeat split; reflexivity.

Ltac keepsView_walk :=
  repeat steps_walk keepsView_refl keepsView_trans keepsView_side.

Ltac never_walk :=
  cbv beta zeta;
  lazymatch goal with
  | |- neverThrows (ret _) => apply total_ret
  | |- neverThrows get => apply total_get
  | |- neverThrows (modify _) => apply total_modify
  | |- neverThrows (handleConnect _ _) => apply total_handleConnect
  | |- neverThrows (tryCatch _ _) => apply total_tryCatch; intros ?
  | |- neverThrows (bind _ _) => apply total_bind; [|intros ?]
  | |- neverThrows (if ?b then _ else _) => destruct b
  | |- neverThrows (match ?x with _ => _ end) => destruct x
  | |- neverThrows (when _ _) => unfold when
  | |- neverThrows (sleep _) => unfold sleep
  | |- neverThrows (emit _) => unfold emit
  | |- neverThrows (addLog _ _) => unfold addLog
  | |- neverThrows (startSerialStreaming _ _) => unfold startSerialStreaming
  | |- neverThrows (startBLEStreaming _) => unfold startBLEStreaming
  | |- neverThrows (stopSerialStreaming _ _) => unfold stopSerialStreaming
  | |- neverThrows (stopBLEStreaming _ _) => unfold stopBLEStreaming
  | |- neverThrows (handleStart _ _) => unfold handleStart
  | |- neverThrows (handleStop _ _) => unfold handleStop
  | |- neverThrows (handleSendGain _ _) => unfold handleSendGain
  | |- neverThrows (handleSwitchMode _ _ _) => unfold handleSwitchMode
  end.

(** Start always returns normally, and when it does the live buffer and
    the CSV accumulator are empty and the chart shows its default view,
    whether the device was connected, streaming started or anything
    failed on the way. *)
Theorem handleStart_resets (w : World.t) (r : Render.t) (s : Store.t) :
  let s' := snd (handleStart w r s) in
  fst (handleStart w r s) = Ok tt
  /\ Store.liveData s' = []
  /\ Store.csvDataRef s' = []
  /\ Store.zoomRange s' = 2000
  /\ Store.xStart s' = 0
  /\ Store.yShift s' = 0
  /\ Store.yZoom s' = 4200.
Proof.
  cbv zeta. unfold handleStart, addLog. rewrite !bind_modify.
  match goal with
  | |- context [bind ?m ?k ?s0] =>
      assert (Hv : steps keepsView (bind m k)) by keepsView_walk;
      assert (Ht : neverThrows (bind m k)) by (repeat never_walk);
      specialize (Hv s0); destruct (Ht s0) as [[] Ha];
      destruct Hv as (H1 & H2 & H3 & H4 & H5 & H6);
      rewrite Ha, H1, H2, H3, H4, H5, H6
  end.
  repeat split.
Qed.

(** ** Connecting to the GATT server *)


(** ** What starting leaves behind *)

Ltac settle :=
  repeat split; try reflexivity; try discriminate;
  try (rewrite <- ?app_assoc; reflexivity).

(** [readSerialData] up to the point where its loop is suspended in the
    first read, called with the port held and streaming on: it returns
    normally; either the reader was taken and is held, or taking it
    failed and the streaming flag and the run state are cleared. *)
Lemma readSerialData_suspended (w : World.t) (r : Render.t) (s : Store.t) :
  Store.serialPortRef s = true ->
  Store.streamingRef s = true ->
  let s' := snd (readSerialData w r [] s) in
  fst (readSerialData w r [] s) = Ok tt
  /\ ((Store.isRunning s' = Store.isRunning s
       /\ Store.streamingRef s' = true
       /\ Store.trace s' = Store.trace s ++ [GetReader]
       /\ Store.serialReaderRef s' = true)
      \/ (Store.isRunning s' = false /\ Store.streamingRef s' = false)).
Proof.
  intros Hport Hstream. cbv zeta.
  unfold readSerialData. cbn [readLoop]. run_monad.
  rewrite Hport, Hstream. run_step.
  destruct (World.outcome w GetReader (length (Store.trace s))); run_step;
    rewrite Hstream; run_step;
    [|split; [reflexivity | left; repeat split; try reflexivity; exact Hstream]].
  destruct (Store.serialReaderRef s); run_step;
    [|split; [reflexivity | right; split; reflexivity]].
  destruct (World.outcome w ReaderReleaseLock _);
    (split; [reflexivity | right; split; reflexivity]).
Qed.

Ltac run_step' :=
  cbn -[csvContent csvFilename JS.lit JS.ofInteger JS.toString16
        JS.toUpperCase JS.includes JS.eqb app length readSerialData].

(** Starting the serial stream always returns normally.  Without a port
    it touches neither the device nor the run state.  With a port the
    run state and the streaming flag agree afterwards, and they are
    raised only when the start command [S0\r\n] was written, the writer
    released and the reader of the read loop taken, in this order and
    with no other call. *)
Theorem startSerialStreaming_outcome (w : World.t) (r : Render.t)
    (s : Store.t) :
  let s' := snd (startSerialStreaming w r s) in
  fst (startSerialStreaming w r s) = Ok tt
  /\ if Store.serialPortRef s then
       Store.isRunning s' = Store.streamingRef s'
       /\ (Store.isRunning s' = true ->
           Store.trace s'
           = Store.trace s
               ++ [GetWriter; WriterWrite SERIAL_START; WriterReleaseLock;
                   GetReader]
           /\ Store.serialReaderRef s' = true)
     else
       Store.trace s' = Store.trace s
       /\ Store.isRunning s' = Store.isRunning s
       /\ Store.streamingRef s' = Store.streamingRef s.
Proof.
  cbv zeta. unfold startSerialStreaming.
  run_monad. run_step'.
  destruct (Store.serialPortRef s) eqn:Eport; run_step'; [|settle].
  destruct (World.outcome w GetWriter _); run_step'; [settle|].
  destruct (World.outcome w (WriterWrite _) _); run_step'; [settle|].
  destruct (World.outcome w WriterReleaseLock _); run_step'; [settle|].
  match goal with
  | |- context [readSerialData w r [] ?s3] =>
      destruct (readSerialData_suspended w r s3 Eport eq_refl)
        as (H1 & [(H2 & H3 & H4 & H5) | (H2 & H3)]);
      destruct (readSerialData w r [] s3) as [[[]|e] s4];
      cbn [fst snd] in *; try discriminate
  end.
  - cbn [Store.isRunning Store.set_logs Store.set_isRunning Store.trace
         Store.set_streamingRef Store.set_trace] in H2, H4.
    rewrite H2, H3, H4, H5, <- !app_assoc. settle.
  - rewrite H2, H3. settle.
Qed.

(** Starting the Bluetooth stream always returns normally.  Without a
    device it touches nothing but the log.  With a device the run state
    and the streaming flag agree afterwards, and they are raised only
    when notifications were started, the listener added and, 100 ms
    later, the start command [FE 00 53 00 00] written, in this order and
    with no other call.  A start that fails cleans nothing up: it never
    removes the listener nor stops notifications, and as soon as it made
    a call the handler reference stays set. *)
Theorem startBLEStreaming_outcome (w : World.t) (s : Store.t) :
  let s' := snd (startBLEStreaming w s) in
  fst (startBLEStreaming w s) = Ok tt
  /\ match Store.bleDeviceRef s with
     | Some _ =>
         Store.isRunning s' = Store.streamingRef s'
         /\ (Store.isRunning s' = true ->
             Store.trace s'
             = Store.trace s
                 ++ [StartNotifications; AddValueListener; SetTimeout 100;
                     WriteValue BLE_START])
         /\ (Store.trace s' <> Store.trace s ->
             Store.bleHandlerRef s' = true)
         /\ addsCalls
              (fun c => negb (isRemoveValueListener c || isStopNotifications c))
              s s'
     | None =>
         Store.trace s' = Store.trace s
         /\ Store.isRunning s' = Store.isRunning s
         /\ Store.streamingRef s' = Store.streamingRef s
     end.
Proof.
  cbv zeta. unfold startBLEStreaming, serverIsConnected.
  run_monad. unfold throw. run_step.
  destruct (Store.bleDeviceRef s) as [d|]; run_step; [|settle].
  destruct (BleDevice.server d && World.serverConnected w (length (Store.trace s)));
    run_step; run_world; settle.
  all: try (intros H; exfalso; apply H; reflexivity).
  all: unfold addsCalls; cbn [Store.trace Store.set_trace Store.set_logs
         Store.set_isRunning Store.set_streamingRef Store.set_bleHandlerRef].
  all: first
    [ exists []; split; [rewrite app_nil_r; reflexivity | reflexivity]
    | eexists; split; [rewrite <- ?app_assoc; reflexivity | reflexivity] ].
Qed.

(** ** What stopping leaves behind *)



(** ** Switching mode *)

Lemma bind_run {A B : Type} (m : M A) (k : A -> M B) (s : Store.t) :
  neverThrows m -> exists a : A, bind m k s = k a (snd (m s)).
Proof.
  intros H. destruct (H s) as [a Ha]. exists a. unfold bind.
  destruct (m s) as [[a'|e] s1]; cbn [fst snd] in *; congruence.
Qed.

Lemma keepsZoom_refl (s : Store.t) : keepsZoom s s.
Proof. split; reflexivity. Qed.

Lemma keepsZoom_trans (s1 s2 s3 : Store.t) :
  keepsZoom s1 s2 -> keepsZoom s2 s3 -> keepsZoom s1 s3.
Proof.
  intros [H1 H2] [H3 H4]. split; congruence.
Qed.

Ltac keepsZoom_side := split; reflexivity.

Ltac keepsZoom_walk :=
  repeat steps_walk keepsZoom_refl keepsZoom_trans keepsZoom_side.

(** Choosing the mode the page is in does nothing.  Choosing the other
    one always goes through to [setMode(next)]: whatever fails while the
    stream is stopped and the device released, the status ends as
    disconnected, the live buffer empty and the chart scrolled back to
    its origin, with the zoom left as the user set it, and the switch is
    the last entry of the log. *)
Theorem handleSwitchMode_outcome (w : World.t) (r : Render.t)
    (next : ConnectionMode) (s : Store.t) :
  let s' := snd (handleSwitchMode w r next s) in
  if ConnectionMode_eqb next (Render.mode r) then
    handleSwitchMode w r next s = (Ok None, s)
  else
    fst (handleSwitchMode w r next s) = Ok (Some next)
    /\ Store.connStatus s' = ConnStatus.disconnected
    /\ Store.liveData s' = []
    /\ Store.xStart s' = 0
    /\ Store.yShift s' = 0
    /\ Store.zoomRange s' = Store.zoomRange s
    /\ Store.yZoom s' = Store.yZoom s
    /\ exists entries : list LogEntry.t,
         Store.logs s'
         = Store.logs s ++ entries
             ++ [LogEntry.mk LogType.info
                   (JS.lit "Mode switched to "
                      ++ JS.toUpperCase (modeName next))].
Proof.
  cbv zeta. unfold handleSwitchMode.
  destruct (ConnectionMode_eqb next (Render.mode r)); [reflexivity|].
  match goal with
  | |- context [bind ?m ?k s] =>
      assert (Ht : neverThrows m) by (repeat never_walk);
      assert (Hz : steps keepsZoom m) by keepsZoom_walk;
      assert (Hl : steps growsLog m) by growsLog_walk;
      destruct (bind_run m k s Ht) as [[] E]; rewrite E; clear E Ht;
      specialize (Hz s); specialize (Hl s);
      set (s1 := snd (m s)) in *
  end.
  match goal with
  | |- context [bind ?m ?k s1] =>
      assert (Ht : neverThrows m) by (repeat never_walk);
      assert (Hz' : steps keepsZoom m) by keepsZoom_walk;
      assert (Hl' : steps growsLog m) by growsLog_walk;
      destruct (bind_run m k s1 Ht) as [[] E]; rewrite E; clear E Ht;
      specialize (Hz' s1); specialize (Hl' s1);
      set (s2 := snd (m s1)) in *
  end.
  unfold addLog. rewrite !bind_modify.
  cbn [ret fst snd Store.connStatus Store.liveData Store.xStart Store.yShift
       Store.zoomRange Store.yZoom Store.logs Store.set_logs
       Store.set_yShift Store.set_xStart Store.set_liveData
       Store.set_connStatus].
  destruct Hz as [Hz1 Hz2], Hz' as [Hz3 Hz4], Hl as [e1 Hl], Hl' as [e2 Hl'].
  repeat split; try congruence.
  exists (e1 ++ e2). rewrite Hl', Hl, <- !app_assoc. reflexivity.
Qed.

(** ** Outcomes of connecting *)

(** What was appended to [t] to make the left-nested [l]. *)
Ltac tail_of t l :=
  match l with
  | t => constr:(@nil IOCall)
  | ?l' ++ ?x => let n := tail_of t l' in constr:(n ++ x)
  end.



Lemma returnsWith_bind {A B : Type} (Q : Store.t -> Prop) (m : M A)
    (k : A -> M B) :
  (forall a : A, returnsWith Q (k a)) -> returnsWith Q (bind m k).
Proof.
  intros Hk s b s' H. unfold bind in H.
  destruct (m s) as [[a|e] s1]; [|discriminate].
  exact (Hk a s1 b s' H).
Qed.

Lemma returnsWith_throw {A : Type} (Q : Store.t -> Prop) (e : JsError.t) :
  returnsWith Q (throw (A := A) e).
Proof. intros s a s' H. discriminate. Qed.

(** Connecting over Bluetooth always returns normally.  Where Web
    Bluetooth is missing it only logs.  Otherwise there are two outcomes
    and no third: the device is held with its server and the status is
    connected, or no device is held, not even the one held before, and
    the status is [error]. *)
Theorem connectBLE_outcome (w : World.t) (s : Store.t) :
  let s' := snd (connectBLE w s) in
  fst (connectBLE w s) = Ok tt
  /\ if World.supportsWebBluetooth w then
       (Store.bleDeviceRef s' = Some (BleDevice.mk true)
        /\ Store.connStatus s' = ConnStatus.connected)
       \/ (Store.bleDeviceRef s' = None
           /\ Store.connStatus s' = ConnStatus.error)
     else
       s' = Store.set_logs
              (Store.logs s
                 ++ [LogEntry.mk LogType.error
                       (JS.lit
                          "Web Bluetooth not supported. Use Chrome/Edge/Opera with HTTPS")])
              s.
Proof.
  cbv zeta. unfold connectBLE.
  destruct (World.supportsWebBluetooth w); cbn [negb];
    [|split; reflexivity].
  match goal with
  | |- context [tryCatch ?body ?handler s] =>
      set (body0 := body); set (handler0 := handler)
  end.
  assert (Hb : returnsWith
                 (fun s' =>
                    Store.bleDeviceRef s' = Some (BleDevice.mk true)
                    /\ Store.connStatus s' = ConnStatus.connected)
                 body0).
  { subst body0.
    repeat (cbv beta iota zeta;
            lazymatch goal with
            | |- returnsWith _
                   (bind (modify (Store.set_bleDeviceRef (Some _))) _) => fail
            | |- _ => idtac
            end;
            first [ apply returnsWith_throw
                  | match goal with
                    | |- returnsWith _ (if ?b then _ else _) => destruct b
                    end
                  | apply returnsWith_bind; intros ? ]).
    intros ? ? ? H. cbv [bind addLog modify] in H.
    inversion H. split; reflexivity. }
  assert (Hh : forall e s1,
             fst (handler0 e s1) = Ok tt
             /\ Store.bleDeviceRef (snd (handler0 e s1)) = None
             /\ Store.connStatus (snd (handler0 e s1)) = ConnStatus.error).
  { intros e s1. subst handler0. cbv beta zeta.
    unfold disconnectHeldServer, serverIsConnected.
    run_monad. run_step.
    destruct (Store.bleDeviceRef s1) as [d|] eqn:Ed; run_step;
      [|repeat split; exact Ed].
    destruct (BleDevice.server d
              && World.serverConnected w (length (Store.trace s1)));
      run_step; run_world; repeat split. }
  clearbody body0 handler0. unfold tryCatch.
  destruct (body0 s) as [[[]|e] s1] eqn:Eb.
  - destruct (Hb s tt s1 Eb) as [H1 H2].
    split; [reflexivity | left; split; assumption].
  - destruct (Hh e s1) as (H1 & H2 & H3).
    split; [exact H1 | right; split; assumption].
Qed.

(** ** Texts too short to be a frame *)

Lemma matchFrameLine_length (line seq data : JS.jsstring) :
  matchFrameLine line = Some (seq, data) -> (110 <= length line)%nat.
Proof.
  intros H. apply (proj1 (matchFrameLine_pattern _ _ _)) in H.
  destruct H as (w1 & w2 & w3 & w4 & -> & _ & Hseq & _ & Hdata & _).
  rewrite !length_app, Hdata. destruct seq; [congruence|]. simpl. lia.
Qed.

Lemma length_dropWhile_le (p : N -> bool) (s : JS.jsstring) :
  (length (JS.dropWhile p s) <= length s)%nat.
Proof.
  induction s as [|c s IH]; simpl; [lia|].
  destruct (p c); simpl; lia.
Qed.

Lemma length_trim_le (s : JS.jsstring) : (length (JS.trim s) <= length s)%nat.
Proof.
  unfold JS.trim, JS.trimEnd, JS.trimStart.
  rewrite length_rev.
  etransitivity; [apply length_dropWhile_le|].
  rewrite length_rev. apply length_dropWhile_le.
Qed.

(** A frame needs at least 110 code units: a sequence digit, the colon
    and 108 hexadecimal characters.  A shorter text changes nothing,
    neither as a line of the serial stream nor as a USB packet: the USB
    reader of the earlier page matches each packet on its own, so a
    packet that does not hold a whole frame is dropped. *)
Theorem short_text_is_no_frame (r : Render.t) (statusOk : bool)
    (text : JS.jsstring) (s : Store.t) :
  (length text < 110)%nat ->
  processLine r text s = (Ok tt, s)
  /\ readUSBData_result r statusOk (Some text) s = (Ok tt, s).
Proof.
  intros Hlen. split.
  - unfold processLine.
    destruct (JS.isEmpty (JS.trim text)); [reflexivity|].
    destruct (matchFrameLine (JS.trim text)) as [[m1 m2]|] eqn:E;
      [|reflexivity].
    apply matchFrameLine_length in E.
    pose proof (length_trim_le text). lia.
  - unfold readUSBData_result. destruct statusOk; [|reflexivity].
    destruct (matchFrameLine text) as [[m1 m2]|] eqn:E; [|reflexivity].
    apply matchFrameLine_length in E. lia.
Qed.

Lemma short_text_is_no_frame_witness :
  processLine (connectedRender serial) (JS.lit "1F: 0123456789ABCDEF")
    initialStore = (Ok tt, initialStore)
  /\ readUSBData_result (connectedRender serial) true
       (Some (JS.lit "1F: 0123456789ABCDEF")) initialStore
     = (Ok tt, initialStore).
Proof.
  apply (short_text_is_no_frame (connectedRender serial) true
           (JS.lit "1F: 0123456789ABCDEF") initialStore).
  simpl. lia.
Defined.

(** ** The gain commands *)



(** ** The read loop over a whole stream *)

Lemma onlyBuffers_refl (s : Store.t) : onlyBuffers s s.
Proof. destruct s. reflexivity. Qed.

Lemma onlyBuffers_trans (s1 s2 s3 : Store.t) :
  onlyBuffers s1 s2 -> onlyBuffers s2 s3 -> onlyBuffers s1 s3.
Proof.
  unfold onlyBuffers. intros E1 E2. rewrite E2 at 1. rewrite E1 at 1.
  destruct s1. reflexivity.
Qed.

Lemma processLine_keeps (r : Render.t) (line : JS.jsstring) (s : Store.t) :
  onlyBuffers s (snd (processLine r line s)).
Proof.
  unfold processLine, onlyBuffers.
  destruct (JS.isEmpty (JS.trim line)); [destruct s; reflexivity|].
  destruct (matchFrameLine (JS.trim line)) as [[m1 m2]|];
    [|destruct s; reflexivity].
  destruct (Render.csvEnabled r); destruct s; reflexivity.
Qed.

Lemma processLines_keeps (r : Render.t) (lines : list JS.jsstring)
    (s : Store.t) :
  onlyBuffers s (processLines r lines s).
Proof.
  revert s. induction lines as [|l lines IH]; intros s.
  - apply onlyBuffers_refl.
  - unfold processLines. cbn [fold_left].
    eapply onlyBuffers_trans; [apply processLine_keeps | apply IH].
Qed.

Lemma onlyBuffers_streamingRef (s s' : Store.t) :
  onlyBuffers s s' -> Store.streamingRef s' = Store.streamingRef s.
Proof. unfold onlyBuffers. intros ->. reflexivity. Qed.

Lemma splitLines_carry (rest t : JS.jsstring) :
  ~ In 10%N rest -> splitLines [] (rest ++ t) = splitLines rest t.
Proof.
  intros H. rewrite splitLines_app, (splitLines_no_newline [] rest) by exact H.
  cbn [app]. destruct (splitLines rest t). reflexivity.
Qed.

(** The loop over chunks that arrive while streaming stays on: every
    complete line of the buffer followed by the chunks has gone through
    [processLine], and the loop goes on with the unfinished rest. *)
Lemma readLoop_values (w : World.t) (r : Render.t)
    (chunks : list JS.jsstring) (tail : list ReadResult)
    (buffer : JS.jsstring) (s : Store.t) :
  Store.streamingRef s = true ->
  ~ In 10%N buffer ->
  readLoop w r (map ReadValue chunks ++ tail) buffer s
  = readLoop w r tail (snd (splitLines [] (buffer ++ concat chunks)))
      (processLines r (fst (splitLines [] (buffer ++ concat chunks))) s).
Proof.
  revert buffer s. induction chunks as [|t chunks IH]; intros buffer s Hs Hb.
  - cbn [map concat app]. rewrite app_nil_r.
    rewrite (splitLines_no_newline [] buffer) by exact Hb. reflexivity.
  - cbn [map concat app readLoop]. unfold bind at 1, get.
    rewrite Hs. cbn [negb]. unfold bind, processChunk.
    rewrite drainLines_splitLines by lia. cbv beta iota.
    rewrite IH;
      [|rewrite (onlyBuffers_streamingRef _ _ (processLines_keeps _ _ _));
        exact Hs
       |apply splitLines_rest; simpl; tauto].
    rewrite (app_assoc buffer t (concat chunks)).
    rewrite (splitLines_app [] (buffer ++ t) (concat chunks)).
    pose proof (splitLines_rest [] (buffer ++ t) ltac:(simpl; tauto)) as Hr.
    destruct (splitLines [] (buffer ++ t)) as [l1 r1]. cbn [fst snd] in *.
    rewrite (splitLines_carry r1 (concat chunks)) by exact Hr.
    destruct (splitLines r1 (concat chunks)) as [l2 r2]. cbn [fst snd].
    rewrite processLines_app. reflexivity.
Qed.

(** Reading with the port held and streaming on.  However the stream is
    cut into chunks, the complete lines of their concatenation are what
    goes through [processLine], in order.  While more is to come the
    reader stays held.  At the end of the stream the warning is logged
    and the reader released, and the page is left as running: neither the
    streaming flag nor the run state is cleared.  When a read fails the
    lines read so far stay processed, the error is logged, the streaming
    flag and the run state are cleared and the reader released; reads
    after the end or the failure are not looked at. *)
Theorem readSerialData_stream (w : World.t) (r : Render.t)
    (chunks : list JS.jsstring) (later : list ReadResult) (e : JsError.t)
    (s : Store.t) :
  Store.serialPortRef s = true ->
  Store.streamingRef s = true ->
  World.outcome w GetReader (length (Store.trace s)) = None ->
  World.outcome w ReaderReleaseLock (S (length (Store.trace s))) = None ->
  let held :=
    processLines r (fst (splitLines [] (concat chunks)))
      (Store.set_serialReaderRef true
         (Store.set_trace (Store.trace s ++ [GetReader]) s)) in
  let released (s1 : Store.t) :=
    Store.set_serialReaderRef false
      (Store.set_trace (Store.trace s ++ [GetReader; ReaderReleaseLock])
         s1) in
  readSerialData w r (map ReadValue chunks) s = (Ok tt, held)
  /\ readSerialData w r (map ReadValue chunks ++ ReadDone :: later) s
     = (Ok tt,
        released
          (Store.set_logs
             (Store.logs s
                ++ [LogEntry.mk LogType.warning
                      (JS.lit "Serial stream ended")])
             held))
  /\ readSerialData w r (map ReadValue chunks ++ ReadThrows e :: later) s
     = (Ok tt,
        released
          (Store.set_isRunning false
             (Store.set_streamingRef false
                (Store.set_logs
                   (Store.logs s
                      ++ [LogEntry.mk LogType.error
                            (JS.lit "Serial read error: "
                               ++ JsError.message e)])
                   held)))).
Proof.
  intros Hport Hstream Hreader Hrelease. cbv zeta.
  pose proof (processLines_keeps r (fst (splitLines [] (concat chunks)))
                (Store.set_serialReaderRef true
                   (Store.set_trace (Store.trace s ++ [GetReader]) s)))
    as Hk.
  set (held := processLines r (fst (splitLines [] (concat chunks)))
                 (Store.set_serialReaderRef true
                    (Store.set_trace (Store.trace s ++ [GetReader]) s)))
    in *.
  assert (Hrun : forall tail : list ReadResult,
             readSerialData w r (map ReadValue chunks ++ tail) s
             = tryCatch
                 (fun s1 => readLoop w r tail
                              (snd (splitLines [] (concat chunks))) s1)
                 (fun err =>
                    (s1 ← get;
                     when (Store.streamingRef s1)
                       (addLog LogType.error
                          (JS.lit "Serial read error: "
                             ++ JsError.message err);;
                        modify (Store.set_streamingRef false);;
                        modify (Store.set_isRunning false)));;
                    s2 ← get;
                    when (Store.serialReaderRef s2)
                      (tryCatch (call w ReaderReleaseLock)
                         (fun _ => ret tt);;
                       modify (Store.set_serialReaderRef false)))
                 held).
  { intros tail. unfold readSerialData. unfold bind at 1, get.
    rewrite Hport, Hstream. cbn [negb orb].
    unfold tryCatch, bind, call, modify. rewrite Hreader.
    rewrite (readLoop_values w r chunks tail []) by (simpl; tauto).
    reflexivity. }
  unfold onlyBuffers in Hk.
  assert (Hs' : Store.streamingRef held = true) by (rewrite Hk; exact Hstream).
  assert (Ht' : Store.trace held = Store.trace s ++ [GetReader])
    by (rewrite Hk; reflexivity).
  assert (Hl' : Store.logs held = Store.logs s) by (rewrite Hk; reflexivity).
  assert (Hr' : Store.serialReaderRef held = true) by (rewrite Hk; reflexivity).
  assert (Hlen : length (Store.trace s ++ [GetReader])
                 = S (length (Store.trace s)))
    by (rewrite length_app; simpl; lia).
  split; [|split].
  - rewrite <- (app_nil_r (map ReadValue chunks)), Hrun.
    unfold tryCatch. cbn [readLoop]. unfold bind, get. rewrite Hs'.
    reflexivity.
  - rewrite Hrun. unfold tryCatch. cbn [readLoop].
    run_monad. rewrite Hs'. run_step. rewrite Ht', Hl', Hlen, Hrelease.
    run_step. rewrite <- app_assoc. reflexivity.
  - rewrite Hrun. unfold tryCatch. cbn [readLoop].
    run_monad. unfold throw. rewrite Hs'. run_step.
    rewrite Hs'. run_step. rewrite Hr'. run_step. rewrite Ht', Hl', Hlen, Hrelease.
    run_step. rewrite <- app_assoc. reflexivity.
Qed.

Lemma readSerialData_stream_witness :
  readSerialData calmWorld (connectedRender serial)
    (map ReadValue [JS.lit "1F:"; [10%N]] ++ ReadDone :: [])
    serialStreamingStore
  = (Ok tt,
     Store.set_serialReaderRef false
       (Store.set_trace [GetReader; ReaderReleaseLock]
          (Store.set_logs
             [LogEntry.mk LogType.warning (JS.lit "Serial stream ended")]
             serialStreamingStore))).
Proof.
  exact (proj1 (proj2
    (readSerialData_stream calmWorld (connectedRender serial)
       [JS.lit "1F:"; [10%N]] [] (Error (JS.lit "lost"))
       serialStreamingStore eq_refl eq_refl eq_refl eq_refl))).
Defined.

(** ** The CSV file *)

Lemma string_of_uint_digits (d : Decimal.uint) :
  forallb JS.isDigit (JS.lit (DecimalString.NilEmpty.string_of_uint d)) = true.
Proof.
  unfold JS.lit.
  induction d;
    cbn [DecimalString.NilEmpty.string_of_uint list_ascii_of_string map
         forallb];
    try rewrite IHd; reflexivity.
Qed.

(** [String(z)] is made of digits and, in front, a minus sign at most. *)
Lemma ofInteger_chars (z : Z) :
  forallb (fun c => JS.isDigit c || (c =? 45)%N) (JS.ofInteger z) = true.
Proof.
  assert (Hu : forall d : Decimal.uint,
             forallb (fun c => JS.isDigit c || (c =? 45)%N)
               (JS.lit (DecimalString.NilEmpty.string_of_uint d)) = true).
  { intros d. pose proof (string_of_uint_digits d) as H.
    rewrite forallb_forall in *. intros c Hc. rewrite (H c Hc). reflexivity. }
  unfold JS.ofInteger, DecimalString.NilZero.string_of_int.
  destruct (Z.to_int z) as [d|d];
    unfold DecimalString.NilZero.string_of_uint.
  - destruct d; try reflexivity; apply Hu.
  - change (JS.lit (String "-" ?s)) with (45%N :: JS.lit s).
    cbn [forallb]. destruct d; try reflexivity; apply Hu.
Qed.

Lemma ofInteger_no_newline (z : Z) : ~ In 10%N (JS.ofInteger z).
Proof.
  intros H. pose proof (ofInteger_chars z) as Hc.
  rewrite forallb_forall in Hc. specialize (Hc _ H). discriminate.
Qed.

Lemma splitLines_concat (lines : list JS.jsstring) (rest : JS.jsstring) :
  Forall (fun l => ~ In 10%N l) lines ->
  ~ In 10%N rest ->
  splitLines [] (concat (map (fun l => l ++ [10%N]) lines) ++ rest)
  = (lines, rest).
Proof.
  intros Hlines Hrest. induction Hlines as [|l lines Hl _ IH]; simpl.
  - apply splitLines_no_newline. exact Hrest.
  - rewrite <- !app_assoc. simpl.
    rewrite splitLines_line by exact Hl. rewrite IH. reflexivity.
Qed.

Lemma fold_left_append {A : Type} (row : A -> JS.jsstring) (l : list A)
    (init : JS.jsstring) :
  fold_left (fun content a => content ++ row a) l init
  = init ++ concat (map row l).
Proof.
  revert init. induction l as [|a l IH]; intros init; simpl.
  - rewrite app_nil_r. reflexivity.
  - rewrite IH, <- app_assoc. reflexivity.
Qed.

Lemma map_imap_pair {A B : Type} (g : nat -> A -> B) (f : nat -> nat)
    (l : list A) :
  map (fun iv => g (fst iv) (snd iv)) (imap (fun i v => (f i, v)) l)
  = imap (fun i v => g (f i) v) l.
Proof.
  revert f. induction l as [|a l IH]; intros f; [reflexivity|].
  cbn [imap map fst snd]. f_equal. exact (IH (f ∘ S)).
Qed.

(** The file written by [saveCSVIfEnabled] reads back line by line: cut
    at the newlines it is the header followed by one row per sample, in
    order, each the index and the value separated by a comma, and
    nothing is left after the last newline. *)
Theorem csvContent_lines (data : list Z) :
  splitLines [] (csvContent data)
  = (JS.lit "index,raw"
       :: imap (fun i v =>
                  JS.ofInteger (Z.of_nat i) ++ JS.lit "," ++ JS.ofInteger v)
            data,
     []).
Proof.
  unfold csvContent.
  rewrite (fold_left_append
             (fun iv => JS.ofInteger (Z.of_nat (fst iv)) ++ JS.lit ","
                        ++ JS.ofInteger (snd iv) ++ [10%N])).
  rewrite <- (map_imap_pair
                (fun i v => JS.ofInteger (Z.of_nat i) ++ JS.lit ","
                            ++ JS.ofInteger v) (fun i => i) data).
  set (rows := map (fun iv => JS.ofInteger (Z.of_nat (fst iv)) ++ JS.lit ","
                            ++ JS.ofInteger (snd iv))
                 (imap (fun i v => (i, v)) data)).
  rewrite <- (app_nil_r (concat _)).
  replace (map (fun iv => JS.ofInteger (Z.of_nat (fst iv)) ++ JS.lit ","
                          ++ JS.ofInteger (snd iv) ++ [10%N])
             (imap (fun i v => (i, v)) data))
    with (map (fun l => l ++ [10%N]) rows).
  2: { subst rows. rewrite map_map. apply map_ext. intros iv.
       rewrite <- !app_assoc. reflexivity. }
  rewrite <- app_assoc.
  change ((JS.lit "index,raw" ++ [10%N]) ++ ?x)
    with (concat (map (fun l => l ++ [10%N]) [JS.lit "index,raw"]) ++ x)
    || idtac.
  rewrite <- (splitLines_concat (JS.lit "index,raw" :: rows) []).
  - cbn [map concat]. rewrite <- !app_assoc. reflexivity.
  - constructor.
    + vm_compute. intuition discriminate.
    + subst rows. apply Forall_map. apply List.Forall_forall. intros iv _.
      cbn beta. rewrite !in_app_iff.
      intros [H|[H|H]].
      * exact (ofInteger_no_newline _ H).
      * vm_compute in H. intuition discriminate.
      * exact (ofInteger_no_newline _ H).
  - simpl. tauto.
Qed.

(** [toISOString()] ends with a dot, the milliseconds and [Z]: the file
    name drops exactly these and keeps date and time to the second, with
    the colons of the time replaced by dashes. *)
Theorem csvFilename_iso (stamp ms : JS.jsstring) :
  length ms = 3%nat ->
  csvFilename (stamp ++ [46%N] ++ ms ++ [90%N])
  = JS.lit "data_"
      ++ map (fun c => if ((c =? 58) || (c =? 46))%N then 45%N else c) stamp
      ++ JS.lit ".csv".
Proof.
  intros Hms. unfold csvFilename. cbv zeta.
  rewrite map_app, length_app, !length_map, !length_app, Hms.
  cbn [length].
  replace (length stamp + (1 + (3 + 1)) - 5)%nat
    with (length (map (fun c => if ((c =? 58) || (c =? 46))%N then 45%N else c)
                    stamp))
    by (rewrite length_map; lia).
  rewrite take_app_length. reflexivity.
Qed.

Lemma csvFilename_iso_witness :
  csvFilename (JS.lit "2025-01-02T03:04:05.678Z")
  = JS.lit "data_2025-01-02T03-04-05.csv".
Proof.
  exact (csvFilename_iso (JS.lit "2025-01-02T03:04:05") (JS.lit "678")
           eq_refl).
Defined.

(** ** The data path *)

(** Incoming data changes the live buffer and the CSV accumulator and
    nothing else: a chunk of the serial stream, a Bluetooth notification
    and a packet of the earlier USB reader leave the connection status,
    the run state, the log, the view, the held references and the trace
    of calls as they were. *)
Theorem data_path_touches_buffers_only (r : Render.t) :
  (forall text buffer : JS.jsstring,
      steps onlyBuffers (processChunk r text buffer))
  /\ (forall data : DataView.t, steps onlyBuffers (handleBLEData r data))
  /\ (forall (statusOk : bool) (data : option JS.jsstring),
         steps onlyBuffers (readUSBData_result r statusOk data)).
Proof.
  split; [|split].
  - intros text buffer s. unfold processChunk.
    rewrite drainLines_splitLines by lia. apply processLines_keeps.
  - intros data s. unfold handleBLEData, onlyBuffers.
    destruct (56 <=? DataView.byteLength data)%nat;
      [|destruct s; reflexivity].
    destruct (DataView.buffer data !! 0%nat) as [b|];
      [|destruct s; reflexivity].
    destruct b; try (destruct s; reflexivity).
    destruct (Render.csvEnabled r); destruct s; reflexivity.
  - intros statusOk data s. unfold readUSBData_result, onlyBuffers.
    destruct data as [text|]; [|destruct s; reflexivity].
    destruct statusOk; [|destruct s; reflexivity].
    destruct (matchFrameLine text) as [[m1 m2]|];
      [|destruct s; reflexivity].
    destruct (Render.csvEnabled r); destruct s; reflexivity.
Qed.

(** ** After an unexpected disconnection *)

(** When the device drops the link the listener clears the run state and
    the streaming flag and marks the status disconnected, but keeps the
    device with its server forgotten and leaves the notification handler
    as it is.  From there Start refuses without making a single call,
    whereas Stop still writes its command to the device. *)
Theorem unexpected_disconnect (w : World.t) (r : Render.t) (s : Store.t)
    (d : BleDevice.t) :
  Store.bleDeviceRef s = Some d ->
  let s1 := snd (disconnectHandler s) in
  (Store.isRunning s1 = false
   /\ Store.streamingRef s1 = false
   /\ Store.connStatus s1 = ConnStatus.disconnected
   /\ Store.bleDeviceRef s1 = Some (BleDevice.mk false)
   /\ Store.bleHandlerRef s1 = Store.bleHandlerRef s
   /\ Store.trace s1 = Store.trace s)
  /\ startBLEStreaming w s1
     = (Ok tt,
        Store.set_isRunning false
          (Store.set_streamingRef false
             (Store.set_logs
                (Store.logs s1
                   ++ [LogEntry.mk LogType.error
                         (JS.lit "BLE streaming failed: "
                            ++ JS.lit
                                 "GATT server is not connected. Please reconnect the device.")])
                s1)))
  /\ exists rest : list IOCall,
       Store.trace (snd (stopBLEStreaming w r s1))
       = Store.trace s ++ WriteValue BLE_STOP :: rest.
Proof.
  intros Hd. cbv zeta.
  assert (E : snd (disconnectHandler s)
              = Store.set_bleDeviceRef (Some (BleDevice.mk false))
                  (Store.set_isRunning false
                     (Store.set_streamingRef false
                        (Store.set_connStatus ConnStatus.disconnected
                           (Store.set_logs
                              (Store.logs s
                                 ++ [LogEntry.mk LogType.warning
                                       (WARNING_SIGN
                                          ++ JS.lit
                                               " BLE device disconnected unexpectedly")])
                              s))))).
  { unfold disconnectHandler. run_monad. run_step. rewrite Hd. reflexivity. }
  assert (E1 : Store.bleDeviceRef (snd (disconnectHandler s))
               = Some (BleDevice.mk false)) by (rewrite E; reflexivity).
  assert (E2 : Store.trace (snd (disconnectHandler s)) = Store.trace s)
    by (rewrite E; reflexivity).
  split; [|split].
  - rewrite E. repeat split.
  - unfold startBLEStreaming, serverIsConnected. unfold bind at 1, get.
    rewrite E1. reflexivity.
  - rewrite <- E2. clear E E2.
    set (s1 := snd (disconnectHandler s)) in *. clearbody s1.
    unfold stopBLEStreaming, saveCSVIfEnabled. run_monad.
    rewrite E1. run_step.
    destruct (Render.csvEnabled r), (Render.folderHandle r);
      run_step; run_world.
    all: match goal with
         | |- exists rest, ?l = _ =>
             let n := tail_of (Store.trace s1) l in
             exists (tail n); rewrite <- ?app_assoc; reflexivity
         end.
Qed.

Lemma unexpected_disconnect_witness :
  Store.trace
    (snd (startBLEStreaming calmWorld (snd (disconnectHandler bleStreamingStore))))
  = [].
Proof.
  destruct (unexpected_disconnect calmWorld (connectedRender bluetooth)
              bleStreamingStore (BleDevice.mk true) eq_refl)
    as (_ & H & _).
  rewrite H. reflexivity.
Defined.
